(** * Swappable temporary memory and its buffer-cache adapter

    A shallow embedding of [libxfs/xfile.c] (memfd-backed, partitioned
    staging files) and [libxfs/buf_mem.c] (the buffer cache that maps pages
    of such a partition), together with a small model of the system calls
    they are written against.

    Conventions.
    - C integers are [Z]; where the source mixes signed and unsigned
      operands the conversion is written out with [u64], [s64], [u32].  The
      data model is LP64 Linux: [loff_t], [size_t], [uint64_t] and
      [unsigned long long] are 64 bits wide, [int] and [unsigned int] 32.
    - Constants and helpers that the two files use without defining them,
      and whose headers are not among the sources verified here, are
      parameters of the model or carry a comment that says what they were
      modelled from.
    - A system call returns [SysOk v] or [SysErr errno]; the source's
      [ret < 0] / [-errno] idiom reads off the second constructor.
    - What the kernel decides on its own (an allocation that fails, a short
      transfer, [ENOSPC]) is an explicit input of type [faults].
    - [fcb_mutex] and the per-target lock are not modelled: every function
      is run to completion, as it is under the lock. *)

From Stdlib Require Import ZArith Lia List Bool.
From Stdlib.Strings Require Import Byte.
From stdpp Require Import base gmap list.

Local Open Scope Z_scope.

(** ** C integer conversions and constants *)

Definition u64 (x : Z) : Z := x mod 2 ^ 64.
Definition s64 (x : Z) : Z := (x + 2 ^ 63) mod 2 ^ 64 - 2 ^ 63.
Definition u32 (x : Z) : Z := x mod 2 ^ 32.

Definition INT_MAX : Z := 2 ^ 31 - 1.
Definition LLONG_MAX : Z := 2 ^ 63 - 1.

(** errno values of Linux (asm-generic/errno-base.h, errno.h). *)
Definition E2BIG : Z := 7.
Definition ENXIO : Z := 6.
Definition EBADF : Z := 9.
Definition ENOMEM : Z := 12.
Definition EINVAL : Z := 22.
Definition EFBIG : Z := 27.

(** Modelled from the spec: [roundup_64], whose definition is not among
    the sources; the request is "rounded up to the page size", that is, to
    the next multiple of [y] at or above [x]. *)
Definition roundup_64 (x y : Z) : Z := (x + y - 1) / y * y.

(** Result of a system call. *)
Inductive sysret (A : Type) : Type :=
| SysOk (v : A)
| SysErr (errno : Z).
Arguments SysOk {A} v.
Arguments SysErr {A} errno.

(** What the kernel may decide about a transfer; an errno is never 0. *)
Inductive fault : Type :=
| NoFault
| Fail (errno : positive)
| Short (n : Z).

(** ** Files *)

(** A sparse file: its length, its bytes, and which pages are resident.
    Pages are numbered from 0; page [p] covers
    [p * PAGE_SIZE, (p + 1) * PAGE_SIZE). *)
Record file : Type := mk_file {
  f_size : Z;
  f_byte : Z -> byte;
  f_resident : Z -> bool
}.

Definition empty_file : file :=
  {| f_size := 0; f_byte := fun _ => x00; f_resident := fun _ => false |}.

Record stat : Type := mk_stat { st_size : Z; st_blocks : Z }.

Definition in_range (lo len o : Z) : bool := (lo <=? o) && (o <? lo + len).

(** First offset in [o, o + n) satisfying [p]. *)
Fixpoint scan (p : Z -> bool) (n : nat) (o : Z) : option Z :=
  match n with
  | O => None
  | S n' => if p o then Some o else scan p n' (o + 1)
  end.

(** Number of offsets in [o, o + n) satisfying [p]. *)
Fixpoint count_true (p : Z -> bool) (n : nat) (o : Z) : Z :=
  match n with
  | O => 0
  | S n' => (if p o then 1 else 0) + count_true p n' (o + 1)
  end.

Definition read_bytes (f : file) (off n : Z) : list byte :=
  f_byte f <$> seqZ off n.

(** Decisions of the kernel and of the allocators that the program cannot
    foresee, indexed by the arguments of the call they apply to.  [None],
    [false] and [NoFault] mean that the call goes through. *)
Record faults : Type := mk_faults {
  (* errno, when none of the ways to get a descriptor works *)
  flt_create_fd : option positive;
  (* malloc(sizeof(struct xfile_fcb)) returns NULL *)
  flt_malloc : bool;
  (* kmalloc(sizeof(struct xfile)) returns NULL *)
  flt_kmalloc : bool;
  (* kmem_cache_zalloc(xfs_buf_cache) returns NULL *)
  flt_zalloc : bool;
  (* by descriptor *)
  flt_fstat : Z -> option positive;
  (* by descriptor and length *)
  flt_ftruncate : Z -> Z -> option positive;
  (* by descriptor, count and offset *)
  flt_pread : Z -> Z -> Z -> fault;
  flt_pwrite : Z -> Z -> Z -> fault;
  (* by descriptor and offset *)
  flt_lseek : Z -> Z -> option positive;
  (* by descriptor, offset and length *)
  flt_fallocate : Z -> Z -> Z -> option positive;
  flt_mmap : Z -> Z -> Z -> option positive
}.

Definition no_faults : faults :=
  {| flt_create_fd := None; flt_malloc := false; flt_kmalloc := false;
     flt_zalloc := false;
     flt_fstat := fun _ => None; flt_ftruncate := fun _ _ => None;
     flt_pread := fun _ _ _ => NoFault; flt_pwrite := fun _ _ _ => NoFault;
     flt_lseek := fun _ _ => None; flt_fallocate := fun _ _ _ => None;
     flt_mmap := fun _ _ _ => None |}.

(** A kernel that cuts every pwrite as [ft] says, and one that refuses
    every mmap with [e]; otherwise as [K]. *)
Definition with_pwrite (ft : fault) (K : faults) : faults :=
  {| flt_create_fd := flt_create_fd K; flt_malloc := flt_malloc K;
     flt_kmalloc := flt_kmalloc K; flt_zalloc := flt_zalloc K;
     flt_fstat := flt_fstat K; flt_ftruncate := flt_ftruncate K;
     flt_pread := flt_pread K; flt_pwrite := fun _ _ _ => ft;
     flt_lseek := flt_lseek K; flt_fallocate := flt_fallocate K;
     flt_mmap := flt_mmap K |}.


(** Kernels that answer fstat, ftruncate or lseek as [g] says; otherwise
    as [K]. *)
Definition with_fstat (g : Z -> option positive) (K : faults) : faults :=
  {| flt_create_fd := flt_create_fd K; flt_malloc := flt_malloc K;
     flt_kmalloc := flt_kmalloc K; flt_zalloc := flt_zalloc K;
     flt_fstat := g; flt_ftruncate := flt_ftruncate K;
     flt_pread := flt_pread K; flt_pwrite := flt_pwrite K;
     flt_lseek := flt_lseek K; flt_fallocate := flt_fallocate K;
     flt_mmap := flt_mmap K |}.

Definition with_ftruncate (g : Z -> Z -> option positive) (K : faults)
  : faults :=
  {| flt_create_fd := flt_create_fd K; flt_malloc := flt_malloc K;
     flt_kmalloc := flt_kmalloc K; flt_zalloc := flt_zalloc K;
     flt_fstat := flt_fstat K; flt_ftruncate := g;
     flt_pread := flt_pread K; flt_pwrite := flt_pwrite K;
     flt_lseek := flt_lseek K; flt_fallocate := flt_fallocate K;
     flt_mmap := flt_mmap K |}.

Definition with_lseek (g : Z -> Z -> option positive) (K : faults) : faults :=
  {| flt_create_fd := flt_create_fd K; flt_malloc := flt_malloc K;
     flt_kmalloc := flt_kmalloc K; flt_zalloc := flt_zalloc K;
     flt_fstat := flt_fstat K; flt_ftruncate := flt_ftruncate K;
     flt_pread := flt_pread K; flt_pwrite := flt_pwrite K;
     flt_lseek := g; flt_fallocate := flt_fallocate K;
     flt_mmap := flt_mmap K |}.

(** ** Program state *)

(** struct xfile_fcb.  The [fcb_list] link is represented by membership of
    the block's address in the global list, see [world]. *)
Record xfile_fcb : Type := mk_fcb { fd : Z; refcount : Z }.

(** struct xfile; [fcb] is the address of the control block. *)
Record xfile : Type := mk_xfile {
  fcb : Z;
  partition_pos : Z;
  maxbytes : Z
}.

(** One mmap()ed region of the process. *)
Record mapping : Type := mk_mapping {
  map_fd : Z; map_off : Z; map_len : Z; map_prot : Z
}.

(** Everything the two files read or change: the open descriptors, the
    heap of control blocks, the global [fcb_list] (addresses, in list
    order), the descriptors closed so far (most recent first), the address
    space, and the object count of [xfs_buf_cache]. *)
Record world : Type := mk_world {
  files : gmap Z file;
  fcbs : gmap Z xfile_fcb;
  fcb_list : list Z;
  closed : list Z;
  maps : gmap Z mapping;
  allocated : Z
}.

Definition empty_world : world :=
  {| files := ∅; fcbs := ∅; fcb_list := []; closed := []; maps := ∅;
     allocated := 0 |}.

Definition set_files (m : gmap Z file) (w : world) : world :=
  {| files := m; fcbs := fcbs w; fcb_list := fcb_list w;
     closed := closed w; maps := maps w; allocated := allocated w |}.
Definition set_fcbs (m : gmap Z xfile_fcb) (w : world) : world :=
  {| files := files w; fcbs := m; fcb_list := fcb_list w;
     closed := closed w; maps := maps w; allocated := allocated w |}.
Definition set_fcb_list (l : list Z) (w : world) : world :=
  {| files := files w; fcbs := fcbs w; fcb_list := l;
     closed := closed w; maps := maps w; allocated := allocated w |}.
Definition set_maps (m : gmap Z mapping) (w : world) : world :=
  {| files := files w; fcbs := fcbs w; fcb_list := fcb_list w;
     closed := closed w; maps := m; allocated := allocated w |}.
Definition set_allocated (n : Z) (w : world) : world :=
  {| files := files w; fcbs := fcbs w; fcb_list := fcb_list w;
     closed := closed w; maps := maps w; allocated := n |}.

(** close(fd). *)
Definition sys_close (d : Z) (w : world) : world :=
  {| files := delete d (files w); fcbs := fcbs w; fcb_list := fcb_list w;
     closed := d :: closed w; maps := maps w; allocated := allocated w |}.

Section Model.

(** Constants that the two files use and do not define; their headers are
    not among the sources, so the model takes them as parameters.
    - [PAGE_SIZE]: the system page size.
    - [BBSHIFT]: the shift of an XFS basic block; block numbers and buffer
      lengths ([blkno], [bblen], [xfs_daddr_t]) count basic blocks.
    - [LIBXFS_B_STALE], [LIBXFS_B_UPTODATE], [LIBXFS_B_UNCHECKED]: buffer
      flag bits.
    - [EFSCORRUPTED]: the errno for a block that fails verification. *)
Variable PAGE_SIZE : Z.
Variable BBSHIFT : Z.
Variable LIBXFS_B_STALE : Z.
Variable LIBXFS_B_UPTODATE : Z.
Variable LIBXFS_B_UNCHECKED : Z.
Variable EFSCORRUPTED : Z.

(** [BBTOB(bbs)], basic blocks to bytes: [(bbs) << BBSHIFT]. *)
Definition BBTOB (bbs : Z) : Z := Z.shiftl bbs BBSHIFT.

(** *** The system calls used by the two files, on one open file *)

(** A byte is data when it lies below end-of-file on a resident page. *)
Definition is_data (f : file) (o : Z) : bool :=
  (0 <=? o) && (o <? f_size f) && f_resident f (o / PAGE_SIZE).

(** Bytes of data in the absolute range [lo, hi). *)
Definition resident_bytes (f : file) (lo hi : Z) : Z :=
  count_true (is_data f) (Z.to_nat (hi - lo)) lo.

(** lseek(fd, off, SEEK_DATA). *)
Definition lseek_data (flt : option positive) (f : file) (off : Z) : sysret Z :=
  match flt with
  | Some e => SysErr (Z.pos e)
  | None =>
    if (off <? 0) || (f_size f <=? off) then SysErr ENXIO
    else match scan (is_data f) (Z.to_nat (f_size f - off)) off with
         | Some d => SysOk d
         | None => SysErr ENXIO
         end
  end.

(** lseek(fd, off, SEEK_HOLE); end-of-file counts as a hole. *)
Definition lseek_hole (flt : option positive) (f : file) (off : Z) : sysret Z :=
  match flt with
  | Some e => SysErr (Z.pos e)
  | None =>
    if (off <? 0) || (f_size f <=? off) then SysErr ENXIO
    else match scan (fun o => negb (is_data f o))
                    (Z.to_nat (f_size f - off)) off with
         | Some h => SysOk h
         | None => SysOk (f_size f)
         end
  end.

Definition write (f : file) (buf : list byte) (n off : Z) : file :=
  if n <=? 0 then f
  else {| f_size := Z.max (f_size f) (off + n);
          f_byte := fun o =>
            if in_range off n o
            then default x00 (buf !! Z.to_nat (o - off))
            else f_byte f o;
          f_resident := fun p =>
            f_resident f p ||
            ((off / PAGE_SIZE <=? p) && (p <=? (off + n - 1) / PAGE_SIZE)) |}.

(** pwrite(fd, buf, count, off): the bytes moved are [count], or fewer if
    the kernel cuts the transfer short. *)
Definition pwrite (flt : fault) (f : file) (buf : list byte) (count off : Z)
  : sysret Z * file :=
  if off <? 0 then (SysErr EINVAL, f)
  else match flt with
       | Fail e => (SysErr (Z.pos e), f)
       | NoFault => (SysOk (Z.max 0 count), write f buf (Z.max 0 count) off)
       | Short k =>
         let n := Z.max 0 (Z.min k count) in (SysOk n, write f buf n off)
       end.

(** pread(fd, buf, count, off): reads stop at end-of-file. *)
Definition pread (flt : fault) (f : file) (count off : Z)
  : sysret (list byte) :=
  if off <? 0 then SysErr EINVAL
  else
    let avail := Z.max 0 (Z.min count (f_size f - off)) in
    match flt with
    | Fail e => SysErr (Z.pos e)
    | NoFault => SysOk (read_bytes f off avail)
    | Short k => SysOk (read_bytes f off (Z.max 0 (Z.min k avail)))
    end.

(** fallocate(fd, FALLOC_FL_PUNCH_HOLE | FALLOC_FL_KEEP_SIZE, off, len):
    the range reads as zeroes afterwards, pages wholly inside it are given
    back, the length of the file stays. *)
Definition punch (f : file) (off len : Z) : file :=
  {| f_size := f_size f;
     f_byte := fun o => if in_range off len o then x00 else f_byte f o;
     f_resident := fun p =>
       f_resident f p &&
       negb ((off <=? p * PAGE_SIZE) && ((p + 1) * PAGE_SIZE <=? off + len)) |}.

Definition fallocate_punch (flt : option positive) (f : file) (off len : Z)
  : sysret unit * file :=
  if (off <? 0) || (len <=? 0) then (SysErr EINVAL, f)
  else match flt with
       | Some e => (SysErr (Z.pos e), f)
       | None => (SysOk tt, punch f off len)
       end.

(** ftruncate(fd, len): bytes past the new end are dropped, bytes gained
    read as zeroes. *)
Definition truncate (f : file) (len : Z) : file :=
  {| f_size := len;
     f_byte := fun o =>
       if o <? Z.min len (f_size f) then f_byte f o else x00;
     f_resident := fun p => f_resident f p && (p * PAGE_SIZE <? len) |}.

Definition ftruncate (flt : option positive) (f : file) (len : Z)
  : sysret unit * file :=
  if len <? 0 then (SysErr EINVAL, f)
  else match flt with
       | Some e => (SysErr (Z.pos e), f)
       | None => (SysOk tt, truncate f len)
       end.

(** Resident pages of the file. *)
Definition resident_pages (f : file) : Z :=
  count_true (f_resident f)
             (Z.to_nat ((f_size f + PAGE_SIZE - 1) / PAGE_SIZE)) 0.

(** fstat(fd, &statbuf): [st_blocks] counts 512-byte units actually
    allocated. *)
Definition fstat (flt : option positive) (f : file) : sysret stat :=
  match flt with
  | Some e => SysErr (Z.pos e)
  | None => SysOk {| st_size := f_size f;
                     st_blocks := resident_pages f * (PAGE_SIZE / 512) |}
  end.

(** *** System calls on a descriptor *)

Definition sys_fstat (K : faults) (w : world) (d : Z) : sysret stat :=
  match files w !! d with
  | None => SysErr EBADF
  | Some f => fstat (flt_fstat K d) f
  end.

Definition sys_ftruncate (K : faults) (w : world) (d len : Z)
  : sysret unit * world :=
  match files w !! d with
  | None => (SysErr EBADF, w)
  | Some f =>
    let '(r, f') := ftruncate (flt_ftruncate K d len) f len in
    (r, set_files (<[d := f']> (files w)) w)
  end.

Definition sys_pread (K : faults) (w : world) (d count off : Z)
  : sysret (list byte) :=
  match files w !! d with
  | None => SysErr EBADF
  | Some f => pread (flt_pread K d count off) f count off
  end.

Definition sys_pwrite (K : faults) (w : world) (d : Z) (buf : list byte)
  (count off : Z) : sysret Z * world :=
  match files w !! d with
  | None => (SysErr EBADF, w)
  | Some f =>
    let '(r, f') := pwrite (flt_pwrite K d count off) f buf count off in
    (r, set_files (<[d := f']> (files w)) w)
  end.

Definition sys_lseek_data (K : faults) (w : world) (d off : Z) : sysret Z :=
  match files w !! d with
  | None => SysErr EBADF
  | Some f => lseek_data (flt_lseek K d off) f off
  end.

Definition sys_lseek_hole (K : faults) (w : world) (d off : Z) : sysret Z :=
  match files w !! d with
  | None => SysErr EBADF
  | Some f => lseek_hole (flt_lseek K d off) f off
  end.

Definition sys_fallocate_punch (K : faults) (w : world) (d off len : Z)
  : sysret unit * world :=
  match files w !! d with
  | None => (SysErr EBADF, w)
  | Some f =>
    let '(r, f') := fallocate_punch (flt_fallocate K d off len) f off len in
    (r, set_files (<[d := f']> (files w)) w)
  end.

(** ** libxfs/xfile.c *)

(** [xfile_create_fd]: memfd_create with MFD_NOEXEC_SEAL, memfd_create
    without it, O_TMPFILE in /dev/shm, O_TMPFILE in /tmp, mkostemp, in this
    order; the first that works yields a new descriptor on an empty file.
    The description only names the memfd; mode bits are not modelled. *)
Definition xfile_create_fd (K : faults) (w : world) : sysret Z * world :=
  match flt_create_fd K with
  | Some e => (SysErr (Z.pos e), w)
  | None =>
    let d := fresh (dom (files w)) in
    (SysOk d, set_files (<[d := empty_file]> (files w)) w)
  end.

(** [xfile_fcb_create]: result is (error, address of the new block). *)
Definition xfile_fcb_create (K : faults) (w : world) : Z * Z * world :=
  match xfile_create_fd K w with
  | (SysErr e, w1) => (- e, 0, w1)
  | (SysOk d, w1) =>
    if flt_malloc K then (- ENOMEM, 0, sys_close d w1)
    else
      let a := fresh (dom (fcbs w1)) in
      (0, a, set_fcbs (<[a := {| fd := d; refcount := 1 |}]> (fcbs w1)) w1)
  end.

(** free(fcb). *)
Definition free_fcb (a : Z) (w : world) : world :=
  set_fcbs (delete a (fcbs w)) w.

(** [list_empty(&fcb->fcb_list)]: the block is linked only to itself. *)
Definition fcb_is_private (w : world) (a : Z) : bool :=
  bool_decide (a ∉ fcb_list w).

(** [list_del(&fcb->fcb_list)]. *)
Definition list_del (a : Z) (l : list Z) : list Z :=
  filter (fun b => b ≠ a) l.

(** [xfile_fcb_irele].  A dangling [fcb] is undefined in C; the model
    leaves the world alone. *)
Definition xfile_fcb_irele (K : faults) (w : world) (a pos len : Z) : world :=
  match fcbs w !! a with
  | None => w
  | Some c =>
    if fcb_is_private w a then free_fcb a (sys_close (fd c) w)
    else
      let r := u32 (refcount c - 1) in
      if r =? 0 then
        free_fcb a (sys_close (fd c) (set_fcb_list (list_del a (fcb_list w)) w))
      else
        let w1 :=
          set_fcbs (<[a := {| fd := fd c; refcount := r |}]> (fcbs w)) w in
        if 0 <? len then
          match sys_fstat K w1 (fd c) with
          | SysOk st =>
            if u64 (st_size st) =? u64 (pos + len)
            then snd (sys_ftruncate K w1 (fd c) pos)
            else w1
          | SysErr _ => w1
          end
        else w1
  end.

(** The [list_for_each_entry] loop of [xfile_fcb_find]: the first block
    whose file can be stat'ed and extended wins. *)
Fixpoint fcb_scan (K : faults) (l : list Z) (maxbytes : Z) (w : world)
  : option (Z * Z) * world :=
  match l with
  | [] => (None, w)
  | a :: l' =>
    match fcbs w !! a with
    | None => fcb_scan K l' maxbytes w
    | Some c =>
      match sys_fstat K w (fd c) with
      | SysErr _ => fcb_scan K l' maxbytes w
      | SysOk st =>
        let pos := roundup_64 (st_size st) PAGE_SIZE in
        match sys_ftruncate K w (fd c) (s64 (pos + maxbytes)) with
        | (SysErr _, w1) => fcb_scan K l' maxbytes w1
        | (SysOk _, w1) =>
          (Some (pos, a),
           set_fcbs (<[a := {| fd := fd c;
                               refcount := u32 (refcount c + 1) |}]> (fcbs w1))
                    w1)
        end
      end
    end
  end.

(** [xfile_fcb_find]: result is (error, *posp, *fcbp). *)
Definition xfile_fcb_find (K : faults) (w : world) (maxbytes : Z)
  : Z * Z * Z * world :=
  if maxbytes =? 0 then
    let '(error, a, w1) := xfile_fcb_create K w in (error, 0, a, w1)
  else
    let maxbytes := u64 (roundup_64 maxbytes PAGE_SIZE) in
    match fcb_scan K (fcb_list w) maxbytes w with
    | (Some (pos, a), w1) => (0, pos, a, w1)
    | (None, w1) =>
      let '(error, a, w2) := xfile_fcb_create K w1 in
      if negb (error =? 0) then (error, 0, 0, w2)
      else
        let d := default (-1) (fd <$> fcbs w2 !! a) in
        match sys_ftruncate K w2 d (s64 maxbytes) with
        | (SysErr e, w3) => (- e, 0, 0, xfile_fcb_irele K w3 a 0 maxbytes)
        | (SysOk _, w3) =>
          (0, 0, a, set_fcb_list (fcb_list w3 ++ [a]) w3)
        end
    end.

(** [xfile_create]: result is (error, *xfilep). *)
Definition xfile_create (K : faults) (w : world) (maxbytes : Z)
  : Z * option xfile * world :=
  if flt_kmalloc K then (- ENOMEM, None, w)
  else
    let '(error, pos, a, w1) := xfile_fcb_find K w maxbytes in
    if negb (error =? 0) then (error, None, w1)
    else (0, Some {| fcb := a; partition_pos := pos; maxbytes := maxbytes |},
          w1).

Definition xfile_destroy (K : faults) (w : world) (xf : xfile) : world :=
  xfile_fcb_irele K w (fcb xf) (partition_pos xf) (maxbytes xf).

(** [xfile_maxbytes], with [sizeof(loff_t) == 8]. *)
Definition xfile_maxbytes (xf : xfile) : Z :=
  if 0 <? maxbytes xf then s64 (maxbytes xf) else LLONG_MAX.

(** [xf->fcb->fd]; a dangling [fcb] gives the invalid descriptor. *)
Definition xf_fd (w : world) (xf : xfile) : Z :=
  default (-1) (fd <$> fcbs w !! fcb xf).

(** [xfile_load]: result is the return value and the bytes placed in
    [buf].  In [xfile_maxbytes(xf) - pos < count] the left operand is a
    [loff_t], signed, and the right one a [size_t], unsigned and of the
    same width: by the usual arithmetic conversions the difference is
    converted to the unsigned type before the two are compared, so a
    negative difference counts as a value of [2 ^ 63] or more. *)
Definition xfile_load (K : faults) (w : world) (xf : xfile) (count pos : Z)
  : Z * list byte :=
  if INT_MAX <? count then (- ENOMEM, [])
  else if u64 (xfile_maxbytes xf - pos) <? count then (- ENOMEM, [])
  else match sys_pread K w (xf_fd w xf) count (pos + partition_pos xf) with
       | SysErr e => (- e, [])
       | SysOk bs =>
         if negb (Z.of_nat (length bs) =? count) then (- ENOMEM, bs)
         else (0, bs)
       end.

(** [xfile_store]. *)
Definition xfile_store (K : faults) (w : world) (xf : xfile)
  (buf : list byte) (count pos : Z) : Z * world :=
  if INT_MAX <? count then (- E2BIG, w)
  else if u64 (xfile_maxbytes xf - pos) <? count then (- EFBIG, w)
  else match sys_pwrite K w (xf_fd w xf) buf count (pos + partition_pos xf) with
       | (SysErr e, w1) => (- e, w1)
       | (SysOk n, w1) =>
         if negb (n =? count) then (- ENOMEM, w1) else (0, w1)
       end.

(** How the loop of [xfile_partition_bytes] is left: by its [return], or
    by falling out with the last [data_pos]. *)
Inductive loop_exit : Type :=
| Returned (bytes : Z)
| Fell (data_pos : sysret Z) (bytes : Z).

Fixpoint partition_bytes_loop (fuel : nat) (K : faults) (w : world)
  (d stop_pos : Z) (data_pos : sysret Z) (bytes : Z) : option loop_exit :=
  match data_pos with
  | SysErr e => Some (Fell (SysErr e) bytes)
  | SysOk dp =>
    if stop_pos <=? dp then Some (Fell (SysOk dp) bytes)
    else
      match fuel with
      | O => None
      | S fuel' =>
        match sys_lseek_hole K w d dp with
        | SysErr e => Some (Fell (SysErr e) bytes)
        | SysOk hp =>
          if stop_pos <=? hp then Some (Returned (bytes + (stop_pos - dp)))
          else partition_bytes_loop fuel' K w d stop_pos
                 (sys_lseek_data K w d hp) (bytes + (hp - dp))
        end
      end
  end.

(** [xfile_partition_bytes].  Every round of the loop moves [data_pos]
    forward, so [stop_pos - partition_pos] rounds are enough; [None] would
    be a loop that is still running after that many. *)
Definition xfile_partition_bytes (K : faults) (w : world) (xf : xfile)
  : option Z :=
  let data_pos := partition_pos xf in
  let stop_pos := s64 (data_pos + maxbytes xf) in
  let d := xf_fd w xf in
  match partition_bytes_loop (Z.to_nat (stop_pos - data_pos)) K w d stop_pos
          (sys_lseek_data K w d data_pos) 0 with
  | None => None
  | Some (Returned bytes) => Some bytes
  | Some (Fell (SysOk _) bytes) => Some bytes
  | Some (Fell (SysErr e) bytes) =>
    if negb (e =? ENXIO) then Some (maxbytes xf) else Some bytes
  end.

(** [xfile_bytes]. *)
Definition xfile_bytes (K : faults) (w : world) (xf : xfile) : option Z :=
  if 0 <? maxbytes xf then xfile_partition_bytes K w xf
  else match sys_fstat K w (xf_fd w xf) with
       | SysErr e => Some (u64 (- e))
       | SysOk st => Some (u64 (Z.shiftl (st_blocks st) 9))
       end.

(** [xfile_discard]: the result of fallocate is dropped. *)
Definition xfile_discard (K : faults) (w : world) (xf : xfile)
  (pos count : Z) : world :=
  snd (sys_fallocate_punch K w (xf_fd w xf) pos (s64 count)).

(** ** libxfs/buf_mem.c *)

(** Protection bits of sys/mman.h. *)
Definition PROT_READ : Z := 1.
Definition PROT_WRITE : Z := 2.

(** struct xfs_buftarg, as far as the memory-backed code reads it.
    [xfs_buftarg_is_mem] ([bt_xfile != NULL]) is asserted by every entry
    point, so the field is an xfile outright. *)
Record xfs_buftarg : Type := mk_buftarg { bt_xfile : xfile }.

Record xfs_bufkey : Type := mk_bufkey {
  buftarg : xfs_buftarg; blkno : Z; bblen : Z
}.

(** [b_ops->verify_struct]: from the block address and the mapped bytes to
    a failure address, 0 ([NULL]) when the block is sound. *)
Record xfs_buf_ops : Type := mk_buf_ops {
  verify_struct : Z -> list byte -> Z
}.

(** struct xfs_buf; [bm_bn] and [bm_len] are [b_maps[0]], [b_addr] is
    [None] for [NULL]. *)
Record xfs_buf : Type := mk_buf {
  b_cache_key : Z;
  b_length : Z;
  b_target : xfs_buftarg;
  b_flags : Z;
  b_addr : option Z;
  b_error : Z;
  b_nmaps : Z;
  bm_bn : Z;
  bm_len : Z;
  b_ops : option xfs_buf_ops
}.


(** mmap(NULL, len, prot, MAP_SHARED, fd, off). *)
Definition sys_mmap (K : faults) (w : world) (len prot d off : Z)
  : sysret Z * world :=
  match files w !! d with
  | None => (SysErr EBADF, w)
  | Some _ =>
    if (len <=? 0) || (off <? 0) || negb (off mod PAGE_SIZE =? 0)
    then (SysErr EINVAL, w)
    else match flt_mmap K d off len with
         | Some e => (SysErr (Z.pos e), w)
         | None =>
           let p := fresh (dom (maps w)) in
           (SysOk p,
            set_maps (<[p := {| map_fd := d; map_off := off;
                                map_len := len; map_prot := prot |}]> (maps w))
                     w)
         end
  end.

(** munmap(addr, len) of a region obtained from [sys_mmap]. *)
Definition sys_munmap (w : world) (addr : option Z) : world :=
  match addr with
  | None => w
  | Some p => set_maps (delete p (maps w)) w
  end.

(** Modelled from the spec: [xfs_buf_daddr], whose definition is not among
    the sources; the "block address" of a buffer, the [bm_bn] that
    [xmbuf_cache_alloc] stores in [b_maps[0]]. *)
Definition xfs_buf_daddr (bp : xfs_buf) : Z := bm_bn bp.

(** [xmbuf_map_page]: result is the return value and the updated buffer.
    [BBTOB(bp->b_length)] is an [unsigned int] ([xmbuf_cache_alloc]
    prints it with [%u]): the length handed to mmap is the shifted value
    cut to 32 bits. *)
Definition xmbuf_map_page (K : faults) (w : world) (bp : xfs_buf)
  : Z * xfs_buf * world :=
  let xfile := bt_xfile (b_target bp) in
  let pos := partition_pos xfile + BBTOB (xfs_buf_daddr bp) in
  match sys_mmap K w (u32 (BBTOB (b_length bp))) (Z.lor PROT_READ PROT_WRITE)
                 (xf_fd w xfile) pos with
  | (SysErr e, w1) => (- e, bp, w1)
  | (SysOk p, w1) =>
    (0,
     {| b_cache_key := b_cache_key bp; b_length := b_length bp;
        b_target := b_target bp;
        b_flags := Z.lor (b_flags bp)
                         (Z.lor LIBXFS_B_UPTODATE LIBXFS_B_UNCHECKED);
        b_addr := Some p; b_error := 0; b_nmaps := b_nmaps bp;
        bm_bn := bm_bn bp; bm_len := bm_len bp; b_ops := b_ops bp |},
     w1)
  end.

(** [xmbuf_unmap_page]. *)
Definition xmbuf_unmap_page (w : world) (bp : xfs_buf) : xfs_buf * world :=
  ({| b_cache_key := b_cache_key bp; b_length := b_length bp;
      b_target := b_target bp; b_flags := b_flags bp;
      b_addr := None; b_error := b_error bp; b_nmaps := b_nmaps bp;
      bm_bn := bm_bn bp; bm_len := bm_len bp; b_ops := b_ops bp |},
   sys_munmap w (b_addr bp)).

(** [kmem_cache_free(xfs_buf_cache, bp)], include/kmem.h. *)
Definition kmem_cache_free (w : world) : world :=
  set_allocated (allocated w - 1) w.

(** [xmbuf_cache_alloc]: [None] is the [NULL] return.  An object taken
    from [xfs_buf_cache] counts in [allocated] until [kmem_cache_free]
    takes it off again. *)
Definition xmbuf_cache_alloc (K : faults) (w : world) (key : xfs_bufkey)
  : option xfs_buf * world :=
  if flt_zalloc K then (None, w)
  else
    let w1 := set_allocated (allocated w + 1) w in
    let bp := {| b_cache_key := blkno key; b_length := bblen key;
                 b_target := buftarg key; b_flags := 0; b_addr := None;
                 b_error := 0; b_nmaps := 1; bm_bn := blkno key;
                 bm_len := bblen key; b_ops := None |} in
    let '(error, bp', w2) := xmbuf_map_page K w1 bp in
    if negb (error =? 0) then (None, kmem_cache_free w2)
    else (Some bp', w2).

(** [xmbuf_cache_flush]. *)
Definition xmbuf_cache_flush (bp : xfs_buf) : Z := 0.

(** [xmbuf_cache_relse]. *)
Definition xmbuf_cache_relse (w : world) (bp : xfs_buf) : world :=
  kmem_cache_free (snd (xmbuf_unmap_page w bp)).

(** [xmbuf_cache_bulkrelse]. *)
Definition xmbuf_cache_bulkrelse (w : world) (l : list xfs_buf) : Z * world :=
  fold_left (fun '(count, w) bp => (count + 1, xmbuf_cache_relse w bp)) l
            (0, w).

(** [xmbuf_verify_daddr]: [daddr] is a signed [xfs_daddr_t], the right
    operand an [unsigned long long]; the comparison is unsigned. *)
Definition xmbuf_verify_daddr (btp : xfs_buftarg) (daddr : Z) : bool :=
  u64 daddr <? Z.shiftr (maxbytes (bt_xfile btp)) BBSHIFT.




(** ** Vocabulary of the statements *)

(** What a function may not touch: the heap of blocks, the list, the log
    of closed descriptors. *)
Definition same_pool (w w' : world) : Prop :=
  fcbs w' = fcbs w /\ fcb_list w' = fcb_list w /\ closed w' = closed w.

(** Every block on the list is allocated. *)
Definition pool_wf (w : world) : Prop :=
  forall b, b ∈ fcb_list w -> is_Some (fcbs w !! b).

(** A run of [xfile_destroy] calls, each with the kernel's decisions for
    it. *)
Definition release_all (rs : list (faults * xfile)) (w : world) : world :=
  fold_left (fun w r => xfile_destroy (fst r) w (snd r)) rs w.

(** Calls a client of xfile.c can make on partitions. *)
Inductive pool_op : Type :=
| Acquire (maxbytes : Z)
| Release (xf : xfile).

Definition run_op (K : faults) (op : pool_op) (w : world)
  : option xfile * world :=
  match op with
  | Acquire m => let '(_, oxf, w') := xfile_create K w m in (oxf, w')
  | Release xf => (None, xfile_destroy K w xf)
  end.

(** A run of such calls: the partitions handed out, and the final world. *)
Fixpoint run_ops (ops : list (faults * pool_op)) (w : world)
  : list xfile * world :=
  match ops with
  | [] => ([], w)
  | (K, op) :: ops' =>
    let '(oxf, w1) := run_op K op w in
    let '(acq, w2) := run_ops ops' w1 in
    (match oxf with Some xf => xf :: acq | None => acq end, w2)
  end.

Definition releases_of (ops : list (faults * pool_op)) : list xfile :=
  omap (fun o => match snd o with Release xf => Some xf | _ => None end) ops.

(** ** The rest of libxfs/buf_mem.c *)

(** Helpers of [xmbuf_libinit] whose definitions are not among the
    sources; parameters of the model. *)
Section Libinit.

Variable is_power_of_2 : Z -> bool.
Variable libxfs_highbit32 : Z -> Z.

(** [xmbuf_libinit], from the value of sysconf(_SC_PAGESIZE) to
    (XMBUF_BLOCKSIZE, XMBUF_BLOCKSHIFT); both are [unsigned int]. *)
Definition xmbuf_libinit (sysconf_pagesize : Z) : Z * Z :=
  let ret :=
    if (sysconf_pagesize <? 0) || negb (is_power_of_2 sysconf_pagesize)
    then 4096 else sysconf_pagesize in
  let XMBUF_BLOCKSIZE := u32 ret in
  (XMBUF_BLOCKSIZE, u32 (libxfs_highbit32 XMBUF_BLOCKSIZE)).

End Libinit.

(** What [xmbuf_alloc] meets beyond [faults]: kzalloc of the target
    returning NULL, the result of cache_init (a handle, or [None] for
    NULL), and the error number of pthread_mutex_init if it fails.  The
    generic cache is not among the sources; of [struct cache] only the
    handle is kept. *)
Record target_faults : Type := mk_target_faults {
  flt_kzalloc : bool;
  cache_init_result : option Z;
  flt_mutex_init : option positive
}.

(** struct xfs_buftarg as [xmbuf_alloc] fills it in; [bt_target] holds
    [bt_xfile]. *)
Record xmbuf_target : Type := mk_xmbuf_target {
  bt_mount : Z;
  bt_bdev : Z;
  bt_bdev_fd : Z;
  bt_target : xfs_buftarg;
  bcache : Z
}.

(** [xmbuf_alloc]: result is the return value and [*btpp]. *)
Definition xmbuf_alloc (T : target_faults) (K : faults) (w : world)
  (mp maxpos : Z) : Z * option xmbuf_target * world :=
  if flt_kzalloc T then (- ENOMEM, None, w)
  else
    let '(error, oxf, w1) := xfile_create K w maxpos in
    if negb (error =? 0) then (error, None, w1)
    else
      match oxf with
      | None => (error, None, w1)
      | Some xfile =>
        match cache_init_result T with
        | None => (- ENOMEM, None, xfile_destroy K w1 xfile)
        | Some cache =>
          match flt_mutex_init T with
          | Some e => (Z.pos e, None, xfile_destroy K w1 xfile)
          | None =>
            (0,
             Some {| bt_mount := mp; bt_bdev := u64 (-1); bt_bdev_fd := -1;
                     bt_target := {| bt_xfile := xfile |};
                     bcache := cache |},
             w1)
          end
        end
      end.

(** [xmbuf_free]: destroying the cache and the lock leaves the modelled
    state alone. *)
Definition xmbuf_free (K : faults) (w : world) (btp : xmbuf_target) : world :=
  xfile_destroy K w (bt_xfile (bt_target btp)).

(** [xmbuf_bytes], libxfs/buf_mem.h. *)
Definition xmbuf_bytes (K : faults) (w : world) (btp : xmbuf_target)
  : option Z :=
  xfile_bytes K w (bt_xfile (bt_target btp)).

(** ** More vocabulary *)

(** A listed block that the scan of [xfile_fcb_find] can use for [m] more
    bytes: it can be stat'ed and its file extended. *)
Definition fcb_usable (K : faults) (w : world) (m : Z) (a : Z) : bool :=
  match fcbs w !! a with
  | None => false
  | Some c =>
    match sys_fstat K w (fd c) with
    | SysErr _ => false
    | SysOk st =>
      match fst (sys_ftruncate K w (fd c)
                   (s64 (roundup_64 (st_size st) PAGE_SIZE + m))) with
      | SysOk _ => true
      | SysErr _ => false
      end
    end
  end.

(** The pool is in order: no block is listed twice, listed blocks are
    allocated, the descriptor of every block is open, and no two blocks
    have the same descriptor. *)
Definition pool_inv (w : world) : Prop :=
  NoDup (fcb_list w) /\
  pool_wf w /\
  (forall a c, fcbs w !! a = Some c -> is_Some (files w !! fd c)) /\
  (forall a b ca cb,
     fcbs w !! a = Some ca -> fcbs w !! b = Some cb -> fd ca = fd cb -> a = b).

(** The file behind a partition. *)
Definition xf_file (w : world) (xf : xfile) : option file :=
  files w !! xf_fd w xf.

(** The bytes [lo, lo + n) of two files agree. *)
Definition same_bytes (f f' : file) (lo n : Z) : Prop :=
  forall o, lo <= o < lo + n -> f_byte f' o = f_byte f o.

(** What is left of a failed call: the world as it was, or with one
    descriptor that was not open before logged as closed. *)
Definition nothing_leaked (w w' : world) : Prop :=
  files w' = files w /\ fcbs w' = fcbs w /\ fcb_list w' = fcb_list w /\
  maps w' = maps w /\ allocated w' = allocated w /\
  (closed w' = closed w \/
   exists d, files w !! d = None /\ closed w' = d :: closed w).

(** Closes a goal whose hypothesis [E] equates two different return
    values. *)
Ltac absurd_ret E :=
  exfalso; inversion E;
  try (unfold ENOMEM, EFBIG, E2BIG, EINVAL, EBADF in *; lia).

(** * Properties *)

(** ** Integer conversions *)

Lemma u64_small (x : Z) : 0 <= x < 2 ^ 64 -> u64 x = x.
Proof. intros H. unfold u64. now apply Z.mod_small. Qed.

Lemma s64_small (x : Z) : - 2 ^ 63 <= x < 2 ^ 63 -> s64 x = x.
Proof. intros H. unfold s64. rewrite Z.mod_small; lia. Qed.

Lemma u32_small (x : Z) : 0 <= x < 2 ^ 32 -> u32 x = x.
Proof. intros H. unfold u32. now apply Z.mod_small. Qed.

Lemma xfile_maxbytes_bounded (xf : xfile) :
  0 < maxbytes xf <= LLONG_MAX -> xfile_maxbytes xf = maxbytes xf.
Proof.
  intros H. unfold xfile_maxbytes, LLONG_MAX in *.
  destruct (Z.ltb_spec 0 (maxbytes xf)); [| lia].
  apply s64_small. lia.
Qed.

(** The capacity test of [xfile_load] and [xfile_store] rejects exactly
    the requests that run past the end, as long as the position itself is
    not past the end. *)
Lemma capacity_test_rejects (xf : xfile) (count pos : Z) :
  0 < maxbytes xf <= LLONG_MAX ->
  - 2 ^ 63 <= pos <= maxbytes xf ->
  (u64 (xfile_maxbytes xf - pos) <? count) = (maxbytes xf <? pos + count).
Proof.
  intros Hm Hp. rewrite xfile_maxbytes_bounded by assumption.
  unfold LLONG_MAX in *. rewrite u64_small by lia.
  destruct (Z.ltb_spec (maxbytes xf - pos) count),
           (Z.ltb_spec (maxbytes xf) (pos + count)); lia.
Qed.

(** ** The world after a write *)

Lemma xf_fd_set_files (w : world) (m : gmap Z file) (xf : xfile) :
  xf_fd (set_files m w) xf = xf_fd w xf.
Proof. reflexivity. Qed.

Lemma read_bytes_length (f : file) (off n : Z) :
  length (read_bytes f off n) = Z.to_nat n.
Proof. unfold read_bytes. now rewrite length_fmap, length_seqZ. Qed.

Lemma read_bytes_write (f : file) (buf : list byte) (off : Z) :
  read_bytes (write f buf (Z.of_nat (length buf)) off) off
             (Z.of_nat (length buf)) = buf.
Proof.
  unfold read_bytes, write.
  destruct (Z.leb_spec (Z.of_nat (length buf)) 0) as [Hz | Hpos].
  - assert (length buf = O) as E by lia.
    destruct buf; [reflexivity | discriminate E].
  - apply list_eq. intros i. rewrite list_lookup_fmap.
    destruct (decide (i < length buf)%nat) as [Hi | Hi].
    + rewrite lookup_seqZ_lt by lia. cbn [fmap option_fmap option_map f_byte].
      unfold in_range.
      destruct (Z.leb_spec off (off + Z.of_nat i)); [| lia].
      destruct (Z.ltb_spec (off + Z.of_nat i) (off + Z.of_nat (length buf)));
        [| lia].
      cbn [andb]. replace (Z.to_nat (off + Z.of_nat i - off)) with i by lia.
      destruct (lookup_lt_is_Some_2 buf i Hi) as [b Hb]. now rewrite Hb.
    + rewrite lookup_seqZ_ge by lia.
      symmetry. apply lookup_ge_None. lia.
Qed.

Lemma write_size (f : file) (buf : list byte) (n off : Z) :
  0 < n -> f_size (write f buf n off) = Z.max (f_size f) (off + n).
Proof.
  intros H. unfold write. destruct (Z.leb_spec n 0); [lia | reflexivity].
Qed.

(** A [pwrite] that reports [count] bytes has written all of [buf]. *)
Lemma pwrite_full (flt : fault) (f f' : file) (buf : list byte)
  (count off n : Z) :
  Z.of_nat (length buf) = count ->
  pwrite flt f buf count off = (SysOk n, f') ->
  n = count ->
  0 <= off /\ f' = write f buf count off.
Proof.
  intros Hlen Hw Hn. unfold pwrite in Hw.
  destruct (Z.ltb_spec off 0); [discriminate |].
  split; [assumption |].
  destruct flt as [| e | k]; [| discriminate |].
  - inversion Hw; subst. f_equal. lia.
  - inversion Hw as [[Hk Hf]]. rewrite Hk. now rewrite Hn.
Qed.

Lemma pwrite_errno (flt : fault) (f f' : file) (buf : list byte)
  (count off e : Z) :
  pwrite flt f buf count off = (SysErr e, f') -> 0 < e /\ f' = f.
Proof.
  unfold pwrite. destruct (off <? 0).
  - intros [= <- <-]. unfold EINVAL. split; [lia | reflexivity].
  - destruct flt; intros [= <- <-]. split; [lia | reflexivity].
Qed.

Lemma pread_errno (flt : fault) (f : file) (count off e : Z) :
  pread flt f count off = SysErr e -> 0 < e.
Proof.
  unfold pread. destruct (off <? 0).
  - intros [= <-]. unfold EINVAL. lia.
  - destruct flt; intros [= <-]. lia.
Qed.

(** What a successful [xfile_store] did. *)
Lemma xfile_store_ok (K : faults) (w w' : world) (xf : xfile)
  (buf : list byte) (count pos : Z) :
  Z.of_nat (length buf) = count ->
  xfile_store K w xf buf count pos = (0, w') ->
  exists f,
    files w !! xf_fd w xf = Some f /\
    0 <= pos + partition_pos xf /\
    w' = set_files (<[xf_fd w xf :=
                        write f buf count (pos + partition_pos xf)]> (files w))
                   w.
Proof.
  intros Hlen H. unfold xfile_store in H.
  destruct (INT_MAX <? count); [inversion H |].
  destruct (u64 (xfile_maxbytes xf - pos) <? count); [inversion H |].
  unfold sys_pwrite in H.
  destruct (files w !! xf_fd w xf) as [f |] eqn:Hf; [| inversion H].
  destruct (pwrite _ f buf count (pos + partition_pos xf)) as [r f'] eqn:Hp.
  destruct r as [n | e].
  - destruct (Z.eqb_spec n count) as [-> | Hne]; cbn [negb] in H;
      [| inversion H].
    inversion H; subst w'. exists f.
    destruct (pwrite_full _ _ _ _ _ _ _ Hlen Hp eq_refl) as [Hoff ->].
    auto.
  - apply pwrite_errno in Hp. inversion H. lia.
Qed.

(** [xfile_load] right after, at the same place. *)
Lemma xfile_load_after_store (K K' : faults) (w w' : world) (xf : xfile)
  (buf : list byte) (count pos : Z) :
  Z.of_nat (length buf) = count ->
  xfile_store K w xf buf count pos = (0, w') ->
  (forall out, xfile_load K' w' xf count pos = (0, out) -> out = buf) /\
  (flt_pread K' (xf_fd w' xf) count (pos + partition_pos xf) = NoFault ->
   xfile_load K' w' xf count pos = (0, buf)).
Proof.
  intros Hlen Hst.
  assert (Hchk : (INT_MAX <? count) = false /\
                 (u64 (xfile_maxbytes xf - pos) <? count) = false).
  { unfold xfile_store in Hst.
    destruct (INT_MAX <? count); [inversion Hst |].
    destruct (u64 (xfile_maxbytes xf - pos) <? count); [inversion Hst |].
    auto. }
  destruct Hchk as [Hc1 Hc2].
  destruct (xfile_store_ok _ _ _ _ _ _ _ Hlen Hst) as (f & Hf & Hoff & ->).
  rewrite xf_fd_set_files.
  unfold xfile_load. rewrite Hc1, Hc2. unfold sys_pread.
  rewrite xf_fd_set_files. cbn [files set_files].
  rewrite lookup_insert_eq.
  set (off := pos + partition_pos xf) in *.
  set (f' := write f buf count off).
  assert (Havail : Z.max 0 (Z.min count (f_size f' - off)) = count).
  { destruct (Z.eq_dec count 0) as [-> | Hnz]; [lia |].
    unfold f'. rewrite write_size by lia. lia. }
  assert (Hfull : read_bytes f' off count = buf).
  { unfold f'. rewrite <- Hlen. apply read_bytes_write. }
  unfold pread. destruct (Z.ltb_spec off 0); [lia |]. rewrite Havail.
  split.
  - intros out.
    destruct (flt_pread K' _ count off) as [| e | k].
    + rewrite Hfull, Hlen, Z.eqb_refl. cbn [negb]. now intros [= <-].
    + intros E. absurd_ret E.
    + rewrite read_bytes_length.
      destruct (Z.eqb_spec (Z.of_nat (Z.to_nat (Z.max 0 (Z.min k count))))
                           count) as [E | E]; cbn [negb];
        [| intros E'; absurd_ret E'].
      intros [= <-]. replace (Z.max 0 (Z.min k count)) with count by lia.
      exact Hfull.
  - intros ->. now rewrite Hfull, Hlen, Z.eqb_refl.
Qed.

(** C4.  Round trip: after a successful store of [count] bytes at [pos],
    inside the partition, a load of [count] bytes at [pos] that succeeds
    returns the bytes stored; and it does succeed unless the kernel fails
    the read. *)
Theorem store_load_roundtrip (K K' : faults) (w w' : world) (xf : xfile)
  (buf out : list byte) (count pos : Z) :
  Z.of_nat (length buf) = count ->
  0 <= pos -> pos + count <= xfile_maxbytes xf ->
  xfile_store K w xf buf count pos = (0, w') ->
  (xfile_load K' w' xf count pos = (0, out) -> out = buf) /\
  (flt_pread K' (xf_fd w' xf) count (pos + partition_pos xf) = NoFault ->
   xfile_load K' w' xf count pos = (0, buf)).
Proof.
  intros Hlen _ _ Hst.
  destruct (xfile_load_after_store K K' _ _ _ _ _ _ Hlen Hst) as [H1 H2].
  split; [apply H1 | apply H2].
Qed.

(** What the two functions return when they refuse.  A request that
    starts at or before the end of a bounded partition and runs past it is
    refused before any transfer: [xfile_load] returns [-ENOMEM],
    [xfile_store] returns [-EFBIG], and the world is as it was.  A [count]
    above [INT_MAX] is refused with [-ENOMEM] by [xfile_load] and with
    [-E2BIG] by [xfile_store].  A transfer that moves fewer bytes than
    asked makes both return [-ENOMEM]. *)
Theorem capacity_enforcement (K : faults) (w : world) (xf : xfile)
  (buf : list byte) (count pos : Z) :
  (0 < maxbytes xf <= LLONG_MAX ->
   - 2 ^ 63 <= pos <= maxbytes xf ->
   0 <= count <= INT_MAX ->
   maxbytes xf < pos + count ->
   xfile_load K w xf count pos = (- ENOMEM, []) /\
   xfile_store K w xf buf count pos = (- EFBIG, w)) /\
  (INT_MAX < count ->
   xfile_load K w xf count pos = (- ENOMEM, []) /\
   xfile_store K w xf buf count pos = (- E2BIG, w)) /\
  (count <= INT_MAX ->
   (u64 (xfile_maxbytes xf - pos) <? count) = false ->
   (forall bs,
      sys_pread K w (xf_fd w xf) count (pos + partition_pos xf) = SysOk bs ->
      Z.of_nat (length bs) <> count ->
      fst (xfile_load K w xf count pos) = - ENOMEM) /\
   (forall n w1,
      sys_pwrite K w (xf_fd w xf) buf count (pos + partition_pos xf)
        = (SysOk n, w1) ->
      n <> count ->
      xfile_store K w xf buf count pos = (- ENOMEM, w1))).
Proof.
  split; [| split].
  - intros Hm Hp Hc Hover. unfold xfile_load, xfile_store.
    destruct (Z.ltb_spec INT_MAX count); [lia |].
    rewrite capacity_test_rejects by assumption.
    destruct (Z.ltb_spec (maxbytes xf) (pos + count)); [auto | lia].
  - intros Hc. unfold xfile_load, xfile_store.
    destruct (Z.ltb_spec INT_MAX count); [auto | lia].
  - intros Hc Hchk. unfold xfile_load, xfile_store.
    destruct (Z.ltb_spec INT_MAX count); [lia |]. rewrite Hchk.
    split.
    + intros bs -> Hne.
      destruct (Z.eqb_spec (Z.of_nat (length bs)) count); [contradiction |].
      reflexivity.
    + intros n w1 -> Hne.
      destruct (Z.eqb_spec n count); [contradiction | reflexivity].
Qed.

(** ** The buffer cache adapter *)

(** C2, as the code has it.  A block address is valid exactly when it is
    non-negative and below the capacity of the partition counted in basic
    blocks ([maxbytes >> BBSHIFT]); the first address past that is
    refused. *)
Theorem xmbuf_verify_daddr_spec (btp : xfs_buftarg) (daddr : Z) :
  0 < BBSHIFT ->
  0 <= maxbytes (bt_xfile btp) < 2 ^ 64 ->
  - 2 ^ 63 <= daddr < 2 ^ 63 ->
  (xmbuf_verify_daddr btp daddr = true <->
   0 <= daddr < Z.shiftr (maxbytes (bt_xfile btp)) BBSHIFT) /\
  xmbuf_verify_daddr btp (Z.shiftr (maxbytes (bt_xfile btp)) BBSHIFT) = false.
Proof.
  intros HB Hm Hd. unfold xmbuf_verify_daddr.
  set (m := maxbytes (bt_xfile btp)) in *.
  assert (Hs : 0 <= Z.shiftr m BBSHIFT < 2 ^ 63).
  { rewrite Z.shiftr_div_pow2 by lia.
    assert (2 ^ 1 <= 2 ^ BBSHIFT) by (apply Z.pow_le_mono_r; lia).
    split.
    - apply Z.div_pos; lia.
    - apply Z.div_lt_upper_bound; lia. }
  split.
  - destruct (Z.neg_nonneg_cases daddr) as [Hneg | Hpos].
    + assert (u64 daddr = daddr + 2 ^ 64) as ->.
      { unfold u64. symmetry. apply Z.mod_unique with (q := -1); lia. }
      destruct (Z.ltb_spec (daddr + 2 ^ 64) (Z.shiftr m BBSHIFT)); split;
        intros; try discriminate; lia.
    + rewrite u64_small by lia.
      destruct (Z.ltb_spec daddr (Z.shiftr m BBSHIFT)); split; intros;
        try discriminate; try reflexivity; lia.
  - rewrite u64_small by lia. apply Z.ltb_irrefl.
Qed.


Lemma sys_mmap_err (K : faults) (w w1 : world) (len prot d off e : Z) :
  sys_mmap K w len prot d off = (SysErr e, w1) -> w1 = w.
Proof.
  unfold sys_mmap. destruct (files w !! d); [| now intros [= _ <-]].
  destruct (_ || _); [now intros [= _ <-] |].
  destruct (flt_mmap K d off len); now intros [= <-].
Qed.

Lemma sys_mmap_ok (K : faults) (w w1 : world) (len prot d off p : Z) :
  sys_mmap K w len prot d off = (SysOk p, w1) ->
  maps w !! p = None /\
  w1 = set_maps (<[p := {| map_fd := d; map_off := off; map_len := len;
                           map_prot := prot |}]> (maps w)) w /\
  is_Some (files w !! d).
Proof.
  unfold sys_mmap. destruct (files w !! d) eqn:Hf; [| discriminate].
  destruct (_ || _); [discriminate |].
  destruct (flt_mmap K d off len); [discriminate |].
  intros [= <- <-]. split; [| split; [reflexivity | eauto]].
  apply not_elem_of_dom. apply is_fresh.
Qed.




(** ** The pool of control blocks *)

Lemma same_pool_refl (w : world) : same_pool w w.
Proof. now unfold same_pool. Qed.

Lemma same_pool_trans (w1 w2 w3 : world) :
  same_pool w1 w2 -> same_pool w2 w3 -> same_pool w1 w3.
Proof. unfold same_pool. intros (-> & -> & ->) (-> & -> & ->). auto. Qed.

Lemma sys_ftruncate_pool (K : faults) (w : world) (d len : Z) :
  same_pool w (snd (sys_ftruncate K w d len)) /\
  dom (files (snd (sys_ftruncate K w d len))) = dom (files w).
Proof.
  unfold sys_ftruncate. destruct (files w !! d) as [f |] eqn:Hf.
  - destruct (ftruncate _ f len) as [r f']. cbn.
    split; [now unfold same_pool |].
    apply dom_insert_lookup_L. eauto.
  - cbn. split; [apply same_pool_refl | reflexivity].
Qed.

Lemma sys_ftruncate_errno (K : faults) (w : world) (d len : Z) :
  match sys_ftruncate K w d len with
  | (SysErr e, _) => 0 < e
  | _ => True
  end.
Proof.
  unfold sys_ftruncate. destruct (files w !! d) as [f |]; [| reflexivity].
  unfold ftruncate. destruct (len <? 0); [reflexivity |].
  destruct (flt_ftruncate K d len); [reflexivity | exact I].
Qed.

Lemma fcb_scan_spec (K : faults) (l : list Z) (m : Z) (w : world) :
  match fcb_scan K l m w with
  | (Some (pos, a), w') =>
    a ∈ l /\
    exists c, fcbs w !! a = Some c /\
      fcbs w' = <[a := {| fd := fd c; refcount := u32 (refcount c + 1) |}]>
                  (fcbs w) /\
      fcb_list w' = fcb_list w /\ closed w' = closed w
  | (None, w') => same_pool w w'
  end.
Proof.
  revert w. induction l as [| a l IH]; intros w; cbn [fcb_scan].
  - apply same_pool_refl.
  - assert (Hrec : forall w1, same_pool w w1 ->
      match fcb_scan K l m w1 with
      | (Some (pos, a0), w') =>
        a0 ∈ a :: l /\
        exists c, fcbs w !! a0 = Some c /\
          fcbs w' = <[a0 := {| fd := fd c;
                               refcount := u32 (refcount c + 1) |}]> (fcbs w) /\
          fcb_list w' = fcb_list w /\ closed w' = closed w
      | (None, w') => same_pool w w'
      end).
    { intros w1 Hs. specialize (IH w1).
      destruct (fcb_scan K l m w1) as [[[pos a0] |] w'].
      - destruct IH as (Hin & c & Hc & Hf & Hl & Hcl).
        destruct Hs as (Hs1 & Hs2 & Hs3).
        split; [now apply list_elem_of_further |].
        exists c. rewrite <- Hs1, <- Hs2, <- Hs3. auto.
      - eapply same_pool_trans; eassumption. }
    destruct (fcbs w !! a) as [c |] eqn:Hc;
      [| apply Hrec, same_pool_refl].
    destruct (sys_fstat K w (fd c)) as [st | e];
      [| apply Hrec, same_pool_refl].
    destruct (sys_ftruncate_pool K w (fd c)
                (s64 (roundup_64 (st_size st) PAGE_SIZE + m))) as [Hp _].
    destruct (sys_ftruncate K w (fd c) _) as [[[] | e] w1]; cbn [snd] in Hp.
    + destruct Hp as (Hp1 & Hp2 & Hp3).
      split; [apply list_elem_of_here |].
      exists c. cbn. rewrite Hp1. auto.
    + apply Hrec, Hp.
Qed.

Lemma xfile_fcb_create_spec (K : faults) (w : world) :
  match xfile_fcb_create K w with
  | (0, a, w') =>
    fcbs w !! a = None /\
    exists d, files w !! d = None /\
      w' = set_fcbs (<[a := {| fd := d; refcount := 1 |}]> (fcbs w))
             (set_files (<[d := empty_file]> (files w)) w)
  | (_, _, w') => fcbs w' = fcbs w /\ fcb_list w' = fcb_list w
  end.
Proof.
  unfold xfile_fcb_create, xfile_create_fd.
  destruct (flt_create_fd K) as [e |]; [cbn; split; reflexivity |].
  destruct (flt_malloc K); [cbn; split; reflexivity |].
  cbn. split.
  - apply not_elem_of_dom, is_fresh.
  - eexists. split; [| reflexivity]. apply not_elem_of_dom, is_fresh.
Qed.

(** The two ways [xfile_fcb_find] can succeed for a bounded request: an
    existing member of the list takes one more reference, or a new block
    with one reference joins the list at its tail. *)
Lemma xfile_fcb_find_bounded (K : faults) (w w' : world) (m pos a : Z) :
  m <> 0 ->
  xfile_fcb_find K w m = (0, pos, a, w') ->
  (a ∈ fcb_list w /\
   exists c, fcbs w !! a = Some c /\
     fcbs w' = <[a := {| fd := fd c; refcount := u32 (refcount c + 1) |}]>
                 (fcbs w) /\
     fcb_list w' = fcb_list w /\ closed w' = closed w) \/
  (fcbs w !! a = None /\ pos = 0 /\
   exists d, fcbs w' = <[a := {| fd := d; refcount := 1 |}]> (fcbs w) /\
     fcb_list w' = fcb_list w ++ [a] /\ closed w' = closed w).
Proof.
  intros Hm H. unfold xfile_fcb_find in H.
  destruct (Z.eqb_spec m 0); [contradiction |].
  pose proof (fcb_scan_spec K (fcb_list w) (u64 (roundup_64 m PAGE_SIZE)) w)
    as Hscan.
  destruct (fcb_scan K (fcb_list w) _ w) as [[[pos0 a0] |] w1].
  - injection H as <- <- <-. left. exact Hscan.
  - right. destruct Hscan as (Hs1 & Hs2 & Hs3).
    pose proof (xfile_fcb_create_spec K w1) as Hcr.
    destruct (xfile_fcb_create K w1) as [[error a1] w2].
    destruct (Z.eqb_spec error 0) as [-> | Hne]; cbn [negb] in H;
      [| injection H as E; contradiction].
    destruct Hcr as (Hnew & d & Hd & ->).
    cbn [fcbs set_fcbs] in H. rewrite lookup_insert_eq in H. cbn in H.
    match type of H with
    | context [sys_ftruncate ?K' ?w0 ?d0 ?l0] =>
      pose proof (sys_ftruncate_pool K' w0 d0 l0) as [Hp _];
      pose proof (sys_ftruncate_errno K' w0 d0 l0) as He;
      destruct (sys_ftruncate K' w0 d0 l0) as [[[] | e] w3]
    end; cbn [snd] in Hp.
    + injection H as <- <- <-. destruct Hp as (Hp1 & Hp2 & Hp3).
      rewrite <- Hs1. split; [assumption | split; [reflexivity |]].
      exists d. cbn. rewrite Hp1, Hp2, Hp3. cbn. rewrite Hs2, Hs3. auto.
    + injection H as E. lia.
Qed.

(** *** Releasing a reference *)

Lemma fcb_is_private_false (w : world) (a : Z) :
  a ∈ fcb_list w -> fcb_is_private w a = false.
Proof. intros H. unfold fcb_is_private. apply bool_decide_eq_false. auto. Qed.

Lemma fcb_is_private_true (w : world) (a : Z) :
  a ∉ fcb_list w -> fcb_is_private w a = true.
Proof. intros H. unfold fcb_is_private. now apply bool_decide_eq_true. Qed.

Lemma not_elem_of_list_del (a : Z) (l : list Z) : a ∉ list_del a l.
Proof. unfold list_del. rewrite list_elem_of_filter. tauto. Qed.

Lemma elem_of_list_del (a b : Z) (l : list Z) :
  b ∈ list_del a l <-> b <> a /\ b ∈ l.
Proof. unfold list_del. rewrite list_elem_of_filter. tauto. Qed.

(** A listed block with more than one reference loses one and stays. *)
Lemma xfile_fcb_irele_keeps (K : faults) (w : world) (a pos len : Z)
  (c : xfile_fcb) :
  fcbs w !! a = Some c -> a ∈ fcb_list w -> 1 < refcount c < 2 ^ 32 ->
  let w' := xfile_fcb_irele K w a pos len in
  fcbs w' = <[a := {| fd := fd c; refcount := refcount c - 1 |}]> (fcbs w) /\
  fcb_list w' = fcb_list w /\ closed w' = closed w /\
  dom (files w') = dom (files w).
Proof.
  intros Hc Hin Hr. cbv zeta. unfold xfile_fcb_irele.
  rewrite Hc, fcb_is_private_false by assumption.
  rewrite u32_small by lia.
  destruct (Z.eqb_spec (refcount c - 1) 0); [lia |].
  destruct (0 <? len); [| now cbn].
  destruct (sys_fstat K _ (fd c)) as [st | e]; [| now cbn].
  destruct (_ =? _); [| now cbn].
  match goal with
  | |- context [sys_ftruncate ?K' ?w0 ?d0 ?l0] =>
    destruct (sys_ftruncate_pool K' w0 d0 l0) as [(H1 & H2 & H3) H4]
  end.
  rewrite H1, H2, H3, H4. now cbn.
Qed.

(** A listed block with one reference left is unlinked, closed and
    freed. *)
Lemma xfile_fcb_irele_last (K : faults) (w : world) (a pos len : Z)
  (c : xfile_fcb) :
  fcbs w !! a = Some c -> a ∈ fcb_list w -> refcount c = 1 ->
  xfile_fcb_irele K w a pos len
  = free_fcb a (sys_close (fd c)
                  (set_fcb_list (list_del a (fcb_list w)) w)).
Proof.
  intros Hc Hin Hr. unfold xfile_fcb_irele.
  rewrite Hc, fcb_is_private_false by assumption.
  rewrite Hr. reflexivity.
Qed.

(** Releasing one block leaves every other block as it was, and never
    adds to the list. *)
Lemma xfile_fcb_irele_other (K : faults) (w : world) (b pos len a : Z) :
  a <> b ->
  let w' := xfile_fcb_irele K w b pos len in
  fcbs w' !! a = fcbs w !! a /\ (a ∈ fcb_list w' -> a ∈ fcb_list w).
Proof.
  intros Hne. cbv zeta. unfold xfile_fcb_irele.
  destruct (fcbs w !! b) as [c |] eqn:Hc; [| auto].
  destruct (fcb_is_private w b).
  { cbn. rewrite lookup_delete_ne by auto. auto. }
  destruct (_ =? 0).
  { cbn. rewrite lookup_delete_ne by auto. split; [reflexivity |].
    rewrite elem_of_list_del. tauto. }
  assert (Hbase : forall w1,
            same_pool (set_fcbs (<[b := {| fd := fd c;
                          refcount := u32 (refcount c - 1) |}]> (fcbs w)) w)
                      w1 ->
            fcbs w1 !! a = fcbs w !! a /\
            (a ∈ fcb_list w1 -> a ∈ fcb_list w)).
  { intros w1 (E1 & E2 & _). rewrite E1, E2. cbn.
    rewrite lookup_insert_ne by auto. auto. }
  destruct (0 <? len); [| apply Hbase, same_pool_refl].
  destruct (sys_fstat K _ (fd c)); [| apply Hbase, same_pool_refl].
  destruct (_ =? _); [| apply Hbase, same_pool_refl].
  apply Hbase. apply sys_ftruncate_pool.
Qed.

Lemma xfile_fcb_irele_wf (K : faults) (w : world) (b pos len : Z) :
  pool_wf w -> pool_wf (xfile_fcb_irele K w b pos len).
Proof.
  intros Hwf. unfold xfile_fcb_irele.
  destruct (fcbs w !! b) as [c |] eqn:Hc; [| assumption].
  destruct (fcb_is_private w b) eqn:Hp.
  { intros x Hx. cbn in *. unfold fcb_is_private in Hp.
    apply bool_decide_eq_true in Hp.
    rewrite lookup_delete_ne by (intros ->; contradiction). now apply Hwf. }
  destruct (_ =? 0).
  { intros x Hx. cbn in *. apply elem_of_list_del in Hx as [Hne Hx].
    rewrite lookup_delete_ne by auto. now apply Hwf. }
  assert (Hbase : forall w1,
            same_pool (set_fcbs (<[b := {| fd := fd c;
                          refcount := u32 (refcount c - 1) |}]> (fcbs w)) w)
                      w1 ->
            pool_wf w1).
  { intros w1 (E1 & E2 & _) x Hx. rewrite E2 in Hx. rewrite E1. cbn in *.
    rewrite lookup_insert_is_Some. destruct (decide (b = x)); auto. }
  destruct (0 <? len); [| apply Hbase, same_pool_refl].
  destruct (sys_fstat K _ (fd c)); [| apply Hbase, same_pool_refl].
  destruct (_ =? _); [| apply Hbase, same_pool_refl].
  apply Hbase. apply sys_ftruncate_pool.
Qed.

(** [n] references on a listed block: releases short of [n] leave it in
    place, open, with the remaining count. *)
Lemma release_all_keeps (rs : list (faults * xfile)) (w : world) (a : Z)
  (c : xfile_fcb) :
  fcbs w !! a = Some c -> a ∈ fcb_list w ->
  Forall (fun r => fcb (snd r) = a) rs ->
  Z.of_nat (length rs) < refcount c < 2 ^ 32 ->
  let w' := release_all rs w in
  fcbs w' !! a = Some {| fd := fd c;
                         refcount := refcount c - Z.of_nat (length rs) |} /\
  a ∈ fcb_list w' /\ closed w' = closed w /\ dom (files w') = dom (files w).
Proof.
  revert w c. induction rs as [| [K xf] rs IH]; intros w c Hc Hin Hall Hr.
  - cbn. rewrite Z.sub_0_r. destruct c; auto.
  - apply Forall_cons in Hall as [Hxf Hall']. cbn [snd] in Hxf.
    cbn [length] in Hr. rewrite Nat2Z.inj_succ in Hr.
    assert (Hstep : release_all ((K, xf) :: rs) w
                    = release_all rs (xfile_fcb_irele K w a (partition_pos xf)
                                        (maxbytes xf))).
    { unfold release_all. cbn [fold_left fst snd]. f_equal.
      unfold xfile_destroy. now rewrite Hxf. }
    cbv zeta. rewrite Hstep. clear Hstep.
    destruct (xfile_fcb_irele_keeps K w a (partition_pos xf)
                (maxbytes xf) c Hc Hin ltac:(lia)) as (E1 & E2 & E3 & E4).
    set (w1 := xfile_fcb_irele K w a (partition_pos xf) (maxbytes xf))
      in *.
    destruct (IH w1 {| fd := fd c; refcount := refcount c - 1 |})
      as (F1 & F2 & F3 & F4).
    + rewrite E1. apply lookup_insert_eq.
    + now rewrite E2.
    + assumption.
    + cbn. lia.
    + cbn in F1. rewrite F1, F3, F4, E3, E4. cbn [length].
      rewrite Nat2Z.inj_succ.
      repeat split; auto. do 2 f_equal. lia.
Qed.

Lemma release_all_app (rs1 rs2 : list (faults * xfile)) (w : world) :
  release_all (rs1 ++ rs2) w = release_all rs2 (release_all rs1 w).
Proof. unfold release_all. apply fold_left_app. Qed.

(** C5.  Reference counting of a shared backing file.  A successful
    bounded acquisition either takes one more reference on a block of the
    list (the count goes up by one) or puts a new block with one reference
    at the tail of the list.  When a listed block holds [n >= 1]
    references and its [n] partitions are released one after the other,
    then after any [k < n] of the releases the block is still listed and
    allocated with [n - k] references, its descriptor has not been
    closed and is still open if it was; after the [n]-th release the block
    is off the list and freed and its descriptor has been closed, once. *)
Theorem shared_fcb_refcount :
  (forall (K : faults) (w w' : world) (m : Z) (xf : xfile),
     m <> 0 ->
     xfile_create K w m = (0, Some xf, w') ->
     maxbytes xf = m /\
     ((fcb xf ∈ fcb_list w /\ fcb_list w' = fcb_list w /\
       exists c, fcbs w !! fcb xf = Some c /\
         fcbs w' !! fcb xf
         = Some {| fd := fd c; refcount := u32 (refcount c + 1) |} /\
         (refcount c + 1 < 2 ^ 32 -> 0 <= refcount c ->
          u32 (refcount c + 1) = refcount c + 1)) \/
      (fcbs w !! fcb xf = None /\ fcb_list w' = fcb_list w ++ [fcb xf] /\
       exists d, fcbs w' !! fcb xf = Some {| fd := d; refcount := 1 |}))) /\
  (forall (w : world) (a : Z) (c : xfile_fcb) (rs : list (faults * xfile)),
     fcbs w !! a = Some c -> a ∈ fcb_list w ->
     Forall (fun r => fcb (snd r) = a) rs ->
     refcount c = Z.of_nat (length rs) ->
     (0 < length rs)%nat -> Z.of_nat (length rs) < 2 ^ 32 ->
     (forall k, (k < length rs)%nat ->
        let w' := release_all (take k rs) w in
        fcbs w' !! a = Some {| fd := fd c;
                               refcount := refcount c - Z.of_nat k |} /\
        a ∈ fcb_list w' /\ closed w' = closed w /\
        dom (files w') = dom (files w)) /\
     (let w' := release_all rs w in
      fcbs w' !! a = None /\ (a ∉ fcb_list w') /\
      closed w' = (fd c :: closed w) /\ files w' !! fd c = None)).
Proof.
  split.
  - intros K w w' m xf Hm H. unfold xfile_create in H.
    destruct (flt_kmalloc K); [inversion H |].
    destruct (xfile_fcb_find K w m) as [[[error pos] a] w1] eqn:Hfind.
    destruct (Z.eqb_spec error 0) as [-> | Hne]; cbn [negb] in H;
      [| inversion H].
    injection H as <- <-. cbn [fcb maxbytes]. split; [reflexivity |].
    destruct (xfile_fcb_find_bounded K w w1 m pos a Hm Hfind)
      as [(Hin & c & Hc & Hf & Hl & _) | (Hnew & _ & d & Hf & Hl & _)].
    + left. split; [assumption | split; [assumption |]].
      exists c. split; [assumption |]. split.
      * rewrite Hf. apply lookup_insert_eq.
      * intros. apply u32_small. lia.
    + right. split; [assumption | split; [assumption |]].
      exists d. rewrite Hf. apply lookup_insert_eq.
  - intros w a c rs Hc Hin Hall Hn Hpos Hlt. split.
    + intros k Hk.
      assert (Hlen : length (take k rs) = k) by (rewrite length_take; lia).
      pose proof (release_all_keeps (take k rs) w a c Hc Hin
                    (Forall_take _ _ _ Hall)) as Hkeep.
      rewrite Hlen in Hkeep. apply Hkeep. lia.
    + cbv zeta.
      destruct (exists_last (l := rs)) as (rs' & [K xf] & ->).
      { intros ->. cbn in Hpos. lia. }
      rewrite length_app in Hn, Hlt. cbn [length] in Hn, Hlt.
      apply Forall_app in Hall as [Hall' Hlast].
      apply Forall_cons in Hlast as [Hxf _]. cbn [snd] in Hxf. subst a.
      rewrite release_all_app.
      destruct (release_all_keeps rs' w (fcb xf) c Hc Hin Hall' ltac:(lia))
        as (F1 & F2 & F3 & F4).
      set (w1 := release_all rs' w) in *.
      assert (Hlast : release_all [(K, xf)] w1
                      = free_fcb (fcb xf)
                          (sys_close (fd c)
                             (set_fcb_list (list_del (fcb xf) (fcb_list w1))
                                           w1))).
      { unfold release_all. cbn [fold_left fst snd]. unfold xfile_destroy.
        rewrite (xfile_fcb_irele_last K w1 (fcb xf) _ _ _ F1 F2)
          by (cbn; lia).
        reflexivity. }
      rewrite Hlast. cbn. rewrite lookup_delete_eq. rewrite F3.
      split; [reflexivity |]. split; [apply not_elem_of_list_del |].
      split; [reflexivity | apply lookup_delete_eq].
Qed.

(** *** Private blocks *)

Lemma xfile_fcb_create_cases (K : faults) (w w' : world) (error a : Z) :
  xfile_fcb_create K w = (error, a, w') ->
  (error = 0 /\ fcbs w !! a = None /\
   exists d, files w !! d = None /\
     w' = set_fcbs (<[a := {| fd := d; refcount := 1 |}]> (fcbs w))
            (set_files (<[d := empty_file]> (files w)) w)) \/
  (error <> 0 /\ fcbs w' = fcbs w /\ fcb_list w' = fcb_list w).
Proof.
  intros H. pose proof (xfile_fcb_create_spec K w) as Hs. rewrite H in Hs.
  destruct error; [left | right | right]; intuition (auto; lia).
Qed.

Lemma insert_keeps_wf (w w' : world) (a : Z) (c : xfile_fcb) :
  pool_wf w ->
  fcbs w' = <[a := c]> (fcbs w) ->
  (forall b, b ∈ fcb_list w' -> b = a \/ b ∈ fcb_list w) ->
  pool_wf w'.
Proof.
  intros Hwf Hf Hl b Hb. rewrite Hf, lookup_insert_is_Some.
  destruct (Hl b Hb) as [-> | Hin]; [now left |].
  destruct (decide (a = b)); [now left | right; split; auto].
Qed.

(** Whatever [xfile_fcb_find] does, a block that is allocated and not on
    the list stays so, and is never the block handed out. *)
Lemma xfile_fcb_find_frame (K : faults) (w : world) (m a : Z)
  (c0 : xfile_fcb) :
  pool_wf w -> fcbs w !! a = Some c0 -> a ∉ fcb_list w ->
  match xfile_fcb_find K w m with
  | (error, pos, a1, w') =>
    pool_wf w' /\ fcbs w' !! a = Some c0 /\ (a ∉ fcb_list w') /\
    (error = 0 -> a1 <> a)
  end.
Proof.
  intros Hwf Ha Hnl. unfold xfile_fcb_find.
  assert (Hcreate : forall w1, same_pool w w1 ->
            forall error a1 w2, xfile_fcb_create K w1 = (error, a1, w2) ->
            (error = 0 /\ a1 <> a /\ fcbs w !! a1 = None /\
             exists d, w2 = set_fcbs (<[a1 := {| fd := d; refcount := 1 |}]>
                                        (fcbs w1))
                              (set_files (<[d := empty_file]> (files w1))
                                         w1)) \/
            (error <> 0 /\ fcbs w2 = fcbs w /\ fcb_list w2 = fcb_list w)).
  { intros w1 (E1 & E2 & E3) error a1 w2 Hcr.
    destruct (xfile_fcb_create_cases _ _ _ _ _ Hcr)
      as [(-> & Hnew & d & _ & ->) | (Hne & F1 & F2)].
    - left. rewrite E1 in Hnew. repeat split; eauto. congruence.
    - right. rewrite F1, F2. auto. }
  destruct (Z.eqb_spec m 0) as [-> | Hm].
  - destruct (xfile_fcb_create K w) as [[error a1] w1] eqn:Hcr.
    destruct (Hcreate w (same_pool_refl w) _ _ _ Hcr)
      as [(-> & Hne & Hnew & d & ->) | (Hne & E1 & E2)].
    + split; [| split; [| split]].
      * eapply insert_keeps_wf; [exact Hwf | reflexivity | cbn; auto].
      * cbn. now rewrite lookup_insert_ne.
      * exact Hnl.
      * auto.
    + split; [| split; [| split]].
      * intros b Hb. rewrite E2 in Hb. rewrite E1. auto.
      * now rewrite E1.
      * now rewrite E2.
      * intros; contradiction.
  - pose proof (fcb_scan_spec K (fcb_list w) (u64 (roundup_64 m PAGE_SIZE)) w)
      as Hscan.
    destruct (fcb_scan K (fcb_list w) _ w) as [[[pos0 a0] |] w1].
    + destruct Hscan as (Hin & c & Hc & Hf & Hl & _).
      assert (a0 <> a) by (intros ->; contradiction).
      split; [| split; [| split]].
      * eapply insert_keeps_wf; [exact Hwf | exact Hf | rewrite Hl; auto].
      * rewrite Hf. now rewrite lookup_insert_ne.
      * now rewrite Hl.
      * auto.
    + destruct (xfile_fcb_create K w1) as [[error a1] w2] eqn:Hcr.
      destruct (Hcreate w1 Hscan _ _ _ Hcr)
        as [(-> & Hne & Hnew & d & ->) | (Hne & E1 & E2)].
      * cbn [negb Z.eqb fcbs set_fcbs]. rewrite lookup_insert_eq.
        cbn [fmap option_fmap option_map default fd].
        destruct Hscan as (S1 & S2 & S3).
        match goal with
        | |- context [sys_ftruncate ?K' ?w0 ?d0 ?l0] =>
          pose proof (sys_ftruncate_pool K' w0 d0 l0) as [(P1 & P2 & P3) _];
          pose proof (sys_ftruncate_errno K' w0 d0 l0) as He;
          destruct (sys_ftruncate K' w0 d0 l0) as [[[] | e] w3]
        end; cbn [snd fcbs fcb_list set_fcbs set_files] in P1, P2, P3.
        -- split; [| split; [| split]].
           ++ eapply insert_keeps_wf;
                [exact Hwf | cbn; rewrite P1, S1; reflexivity |].
              cbn. intros b.
              rewrite P2, S2, elem_of_app, list_elem_of_singleton.
              tauto.
           ++ cbn. rewrite P1, S1. now rewrite lookup_insert_ne.
           ++ cbn. rewrite P2, S2, elem_of_app, list_elem_of_singleton.
              intros [? | ?]; [contradiction | congruence].
           ++ auto.
        -- assert (Hpriv : a1 ∉ fcb_list w3).
           { rewrite P2, S2. intros Hin. apply Hwf in Hin as [x Hx].
             congruence. }
           unfold xfile_fcb_irele. rewrite P1, lookup_insert_eq.
           rewrite fcb_is_private_true by assumption.
           split; [| split; [| split]].
           ++ intros b Hb. cbn in *. rewrite P2, S2 in Hb. rewrite P1, S1.
              rewrite delete_insert_eq.
              rewrite lookup_delete_ne; [auto |].
              intros ->. apply Hwf in Hb as [x Hx]. congruence.
           ++ cbn. rewrite P1, S1, delete_insert_eq.
              now rewrite lookup_delete_ne.
           ++ cbn. now rewrite P2, S2.
           ++ intros; lia.
      * cbn [negb]. destruct (Z.eqb_spec error 0); [contradiction |].
        cbn [negb].
        split; [| split; [| split]].
        -- intros b Hb. rewrite E2 in Hb. rewrite E1. auto.
        -- now rewrite E1.
        -- now rewrite E2.
        -- intros; contradiction.
Qed.

Lemma run_op_private (K : faults) (op : pool_op) (w : world) (a : Z)
  (c0 : xfile_fcb) :
  pool_wf w -> fcbs w !! a = Some c0 -> a ∉ fcb_list w ->
  (forall xf', op = Release xf' -> fcb xf' <> a) ->
  pool_wf (snd (run_op K op w)) /\
  fcbs (snd (run_op K op w)) !! a = Some c0 /\
  (a ∉ fcb_list (snd (run_op K op w))) /\
  (forall xf', fst (run_op K op w) = Some xf' -> fcb xf' <> a).
Proof.
  intros Hwf Ha Hnl Hrel. destruct op as [m | xf']; cbn [run_op].
  - unfold xfile_create. destruct (flt_kmalloc K).
    { cbn. split; [| split; [| split]]; auto; discriminate. }
    pose proof (xfile_fcb_find_frame K w m a c0 Hwf Ha Hnl) as Hfr.
    destruct (xfile_fcb_find K w m) as [[[error pos] a1] w1].
    destruct Hfr as (F1 & F2 & F3 & F4).
    destruct (Z.eqb_spec error 0) as [-> | Hne]; cbn.
    + split; [| split; [| split]]; auto.
      intros xf' [= <-]. cbn. auto.
    + split; [| split; [| split]]; auto; discriminate.
  - cbn [fst snd]. unfold xfile_destroy.
    specialize (Hrel xf' eq_refl).
    destruct (xfile_fcb_irele_other K w (fcb xf') (partition_pos xf')
                (maxbytes xf') a ltac:(auto)) as [E1 E2].
    split; [| split; [| split]].
    + now apply xfile_fcb_irele_wf.
    + now rewrite E1.
    + auto.
    + discriminate.
Qed.

Lemma run_ops_private (ops : list (faults * pool_op)) (w : world) (a : Z)
  (c0 : xfile_fcb) :
  pool_wf w -> fcbs w !! a = Some c0 -> a ∉ fcb_list w ->
  Forall (fun xf' => fcb xf' <> a) (releases_of ops) ->
  Forall (fun xf' => fcb xf' <> a) (fst (run_ops ops w)) /\
  fcbs (snd (run_ops ops w)) !! a = Some c0 /\
  (a ∉ fcb_list (snd (run_ops ops w))).
Proof.
  revert w. induction ops as [| [K op] ops IH]; intros w Hwf Ha Hnl Hrel.
  - cbn. auto.
  - cbn [run_ops].
    assert (Hop : forall xf', op = Release xf' -> fcb xf' <> a).
    { intros xf' ->. unfold releases_of in Hrel. cbn in Hrel.
      now apply Forall_cons in Hrel as [? _]. }
    assert (Hrest : Forall (fun xf' => fcb xf' <> a) (releases_of ops)).
    { unfold releases_of in *. cbn [omap list_omap snd] in Hrel.
      destruct op; [exact Hrel |]. now apply Forall_cons in Hrel as [_ ?]. }
    destruct (run_op_private K op w a c0 Hwf Ha Hnl Hop)
      as (G1 & G2 & G3 & G4).
    destruct (run_op K op w) as [oxf w1]. cbn [fst snd] in *.
    destruct (IH w1 G1 G2 G3 Hrest) as (I1 & I2 & I3).
    destruct (run_ops ops w1) as [acq w2]. cbn [fst snd] in *.
    split; [| auto].
    destruct oxf as [xf' |]; [| exact I1].
    apply Forall_cons. split; [apply G4; reflexivity | exact I1].
Qed.

(** C6.  An acquisition with [maxbytes = 0] that succeeds created a block
    and a descriptor that did not exist, left the list alone, and returned
    a partition at offset 0 whose only limit is that of [loff_t].  However
    the pool is used afterwards, as long as that partition is not
    released, its block is never on the list, never handed out by another
    acquisition, and keeps its single reference; releasing the partition
    closes the descriptor and frees the block. *)
Theorem private_fcb_exclusive (K : faults) (w w1 : world) (xf : xfile) :
  pool_wf w ->
  xfile_create K w 0 = (0, Some xf, w1) ->
  partition_pos xf = 0 /\ maxbytes xf = 0 /\ xfile_maxbytes xf = LLONG_MAX /\
  fcbs w !! fcb xf = None /\
  fcb_list w1 = fcb_list w /\ (fcb xf ∉ fcb_list w1) /\
  exists d,
    files w !! d = None /\ files w1 !! d = Some empty_file /\
    fcbs w1 !! fcb xf = Some {| fd := d; refcount := 1 |} /\
    forall ops,
      Forall (fun xf' => fcb xf' <> fcb xf) (releases_of ops) ->
      let acquired := fst (run_ops ops w1) in
      let w2 := snd (run_ops ops w1) in
      Forall (fun xf' => fcb xf' <> fcb xf) acquired /\
      (fcb xf ∉ fcb_list w2) /\
      fcbs w2 !! fcb xf = Some {| fd := d; refcount := 1 |} /\
      forall K', xfile_destroy K' w2 xf = free_fcb (fcb xf) (sys_close d w2).
Proof.
  intros Hwf H. unfold xfile_create in H.
  destruct (flt_kmalloc K); [inversion H |].
  unfold xfile_fcb_find in H. cbn [Z.eqb] in H.
  destruct (xfile_fcb_create K w) as [[error a] w'] eqn:Hcr.
  destruct (Z.eqb_spec error 0) as [-> | Hne]; cbn [negb] in H;
    [| inversion H].
  injection H as <- <-. cbn [fcb partition_pos maxbytes].
  destruct (xfile_fcb_create_cases _ _ _ _ _ Hcr)
    as [(_ & Hnew & d & Hd & ->) | (Hne & _)]; [| contradiction].
  assert (Hnl : a ∉ fcb_list w).
  { intros Hin. apply Hwf in Hin as [x Hx]. congruence. }
  split; [reflexivity |]. split; [reflexivity |]. split; [reflexivity |].
  split; [assumption |]. split; [reflexivity |]. split; [exact Hnl |].
  exists d. split; [assumption |].
  split; [cbn; apply lookup_insert_eq |].
  split; [cbn; apply lookup_insert_eq |].
  intros ops Hrel. cbv zeta.
  set (w1 := set_fcbs _ _).
  assert (Hwf1 : pool_wf w1).
  { eapply insert_keeps_wf; [exact Hwf | reflexivity | cbn; auto]. }
  destruct (run_ops_private ops w1 a {| fd := d; refcount := 1 |} Hwf1
              ltac:(cbn; apply lookup_insert_eq) Hnl Hrel) as (R1 & R2 & R3).
  split; [assumption |]. split; [assumption |]. split; [assumption |].
  intros K'. unfold xfile_destroy, xfile_fcb_irele. cbn [fcb].
  rewrite R2, fcb_is_private_true by assumption. reflexivity.
Qed.

(** ** Accounting *)

Lemma scan_Some (p : Z -> bool) (n : nat) (o d : Z) :
  scan p n o = Some d ->
  o <= d < o + Z.of_nat n /\ p d = true /\
  forall x, o <= x < d -> p x = false.
Proof.
  revert o. induction n as [| n IH]; intros o; cbn [scan]; [discriminate |].
  destruct (p o) eqn:Hp.
  - intros [= <-]. split; [lia | split; [assumption | intros; lia]].
  - intros H. apply IH in H as (H1 & H2 & H3).
    split; [lia | split; [assumption |]].
    intros x Hx. destruct (Z.eq_dec x o) as [-> | Hne]; [assumption |].
    apply H3. lia.
Qed.

Lemma scan_None (p : Z -> bool) (n : nat) (o : Z) :
  scan p n o = None -> forall x, o <= x < o + Z.of_nat n -> p x = false.
Proof.
  revert o. induction n as [| n IH]; intros o; cbn [scan].
  - intros _ x Hx. lia.
  - destruct (p o) eqn:Hp; [discriminate |].
    intros H x Hx. destruct (Z.eq_dec x o) as [-> | Hne]; [assumption |].
    apply (IH _ H). lia.
Qed.

Lemma count_true_app (p : Z -> bool) (n1 n2 : nat) (o : Z) :
  count_true p (n1 + n2) o
  = count_true p n1 o + count_true p n2 (o + Z.of_nat n1).
Proof.
  revert o. induction n1 as [| n1 IH]; intros o.
  - cbn. now rewrite Z.add_0_r.
  - cbn [Nat.add count_true]. rewrite IH.
    replace (o + 1 + Z.of_nat n1) with (o + Z.of_nat (S n1)) by lia. lia.
Qed.

Lemma count_true_none (p : Z -> bool) (n : nat) (o : Z) :
  (forall x, o <= x < o + Z.of_nat n -> p x = false) ->
  count_true p n o = 0.
Proof.
  revert o. induction n as [| n IH]; intros o H; cbn [count_true];
    [reflexivity |].
  rewrite (H o) by lia. rewrite IH; [reflexivity |].
  intros x Hx. apply H. lia.
Qed.

Lemma count_true_all (p : Z -> bool) (n : nat) (o : Z) :
  (forall x, o <= x < o + Z.of_nat n -> p x = true) ->
  count_true p n o = Z.of_nat n.
Proof.
  revert o. induction n as [| n IH]; intros o H; cbn [count_true];
    [reflexivity |].
  rewrite (H o) by lia. rewrite IH; [lia |].
  intros x Hx. apply H. lia.
Qed.

Lemma count_true_bounds (p : Z -> bool) (n : nat) (o : Z) :
  0 <= count_true p n o <= Z.of_nat n.
Proof.
  revert o. induction n as [| n IH]; intros o; cbn [count_true]; [lia |].
  specialize (IH (o + 1)). destruct (p o); lia.
Qed.

Lemma count_true_pos (p : Z -> bool) (n : nat) (o x : Z) :
  o <= x < o + Z.of_nat n -> p x = true -> 0 < count_true p n o.
Proof.
  revert o. induction n as [| n IH]; intros o Hx Hp; cbn [count_true];
    [lia |].
  pose proof (count_true_bounds p n (o + 1)).
  destruct (Z.eq_dec x o) as [-> | Hne]; [rewrite Hp; lia |].
  specialize (IH (o + 1) ltac:(lia) Hp). destruct (p o); lia.
Qed.

(** Counting over [lo, hi) splits at any point in between. *)
Lemma count_true_split (p : Z -> bool) (lo mid hi : Z) :
  lo <= mid <= hi ->
  count_true p (Z.to_nat (hi - lo)) lo
  = count_true p (Z.to_nat (mid - lo)) lo
    + count_true p (Z.to_nat (hi - mid)) mid.
Proof.
  intros H.
  replace (Z.to_nat (hi - lo))
    with (Z.to_nat (mid - lo) + Z.to_nat (hi - mid))%nat by lia.
  rewrite count_true_app. do 2 f_equal. lia.
Qed.

Lemma is_data_bounds (f : file) (o : Z) :
  is_data f o = true -> 0 <= o < f_size f.
Proof.
  unfold is_data. intros H.
  apply andb_true_iff in H as [H _]. apply andb_true_iff in H as [H1 H2].
  lia.
Qed.

Lemma lseek_data_ok (f : file) (off d : Z) :
  lseek_data None f off = SysOk d ->
  off <= d < f_size f /\ is_data f d = true /\
  forall x, off <= x < d -> is_data f x = false.
Proof.
  unfold lseek_data. destruct (_ || _); [discriminate |].
  destruct (scan _ _ off) as [d' |] eqn:Hs; [| discriminate].
  intros [= <-]. apply scan_Some in Hs as (H1 & H2 & H3).
  pose proof (is_data_bounds f d' H2). split; [lia | split; assumption].
Qed.

Lemma lseek_data_err (f : file) (off e : Z) :
  0 <= off ->
  lseek_data None f off = SysErr e ->
  e = ENXIO /\ forall x, off <= x -> is_data f x = false.
Proof.
  intros Hoff. unfold lseek_data.
  destruct (Z.ltb_spec off 0); [lia |]. cbn [orb].
  assert (Hpast : forall x, f_size f <= x -> is_data f x = false).
  { intros x Hx. destruct (is_data f x) eqn:E; [| reflexivity].
    apply is_data_bounds in E. lia. }
  destruct (Z.leb_spec (f_size f) off).
  - intros [= <-]. split; [reflexivity |]. intros x Hx. apply Hpast. lia.
  - destruct (scan _ _ off) as [d' |] eqn:Hs; [discriminate |].
    intros [= <-]. split; [reflexivity |]. intros x Hx.
    destruct (Z.lt_ge_cases x (f_size f)); [| now apply Hpast].
    apply (scan_None _ _ _ Hs). lia.
Qed.

Lemma lseek_hole_ok (f : file) (off : Z) :
  is_data f off = true ->
  exists h, lseek_hole None f off = SysOk h /\
    off < h <= f_size f /\ forall x, off <= x < h -> is_data f x = true.
Proof.
  intros Hd. pose proof (is_data_bounds f off Hd) as Hb.
  unfold lseek_hole.
  destruct (Z.ltb_spec off 0); [lia |].
  destruct (Z.leb_spec (f_size f) off); [lia |]. cbn [orb].
  destruct (scan _ _ off) as [h |] eqn:Hs.
  - apply scan_Some in Hs as (H1 & H2 & H3).
    exists h. split; [reflexivity |].
    assert (h <> off) by (intros ->; rewrite Hd in H2; discriminate).
    split; [lia |]. intros x Hx.
    destruct (Z.eq_dec x off) as [-> | Hne]; [assumption |].
    specialize (H3 x ltac:(lia)). now apply negb_false_iff in H3.
  - exists (f_size f). split; [reflexivity |]. split; [lia |].
    intros x Hx. pose proof (scan_None _ _ _ Hs x ltac:(lia)) as Hx'.
    now apply negb_false_iff in Hx'.
Qed.

(** The loop of [xfile_partition_bytes], entered with the result of
    SEEK_DATA at [q]: it ends within [stop_pos - q] rounds and has added
    the data bytes of [q, stop_pos) to [bytes]. *)
Lemma partition_bytes_loop_counts (K : faults) (w : world) (d stop_pos : Z)
  (f : file) :
  files w !! d = Some f ->
  (forall o, flt_lseek K d o = None) ->
  forall (fuel : nat) (q bytes : Z),
    0 <= q -> (Z.to_nat (stop_pos - q) <= fuel)%nat ->
    exists ex,
      partition_bytes_loop fuel K w d stop_pos (sys_lseek_data K w d q) bytes
      = Some ex /\
      let total := bytes + resident_bytes f q stop_pos in
      (ex = Returned total \/ (exists dp, ex = Fell (SysOk dp) total) \/
       ex = Fell (SysErr ENXIO) total).
Proof.
  intros Hf HK. unfold resident_bytes.
  assert (Hsd : forall o, sys_lseek_data K w d o = lseek_data None f o).
  { intros o. unfold sys_lseek_data. now rewrite Hf, HK. }
  assert (Hsh : forall o, sys_lseek_hole K w d o = lseek_hole None f o).
  { intros o. unfold sys_lseek_hole. now rewrite Hf, HK. }
  induction fuel as [| fuel IH]; intros q bytes Hq Hfuel; rewrite Hsd.
  - destruct (lseek_data None f q) as [dp | e] eqn:Hdp;
      cbn [partition_bytes_loop].
    + destruct (Z.leb_spec stop_pos dp).
      * eexists. split; [reflexivity |]. cbv zeta. right. left. exists dp.
        do 2 f_equal. replace (Z.to_nat (stop_pos - q)) with O by lia.
        cbn. lia.
      * apply lseek_data_ok in Hdp. lia.
    + apply lseek_data_err in Hdp as [-> Hno]; [| assumption].
      eexists. split; [reflexivity |]. cbv zeta. right. right.
      do 2 f_equal. replace (Z.to_nat (stop_pos - q)) with O by lia.
      cbn. lia.
  - destruct (lseek_data None f q) as [dp | e] eqn:Hdp;
      cbn [partition_bytes_loop].
    + apply lseek_data_ok in Hdp as (Hr & Hdat & Hno).
      assert (Hgap : forall hi, hi <= dp ->
                count_true (is_data f) (Z.to_nat (hi - q)) q = 0).
      { intros hi Hhi. apply count_true_none. intros x Hx. apply Hno. lia. }
      destruct (Z.leb_spec stop_pos dp).
      * eexists. split; [reflexivity |]. cbv zeta. right. left. exists dp.
        rewrite Hgap by lia. do 2 f_equal. lia.
      * rewrite Hsh.
        destruct (lseek_hole_ok f dp Hdat) as (hp & -> & Hh & Hall).
        rewrite (count_true_split _ q dp stop_pos) by lia.
        rewrite Hgap by lia.
        destruct (Z.leb_spec stop_pos hp).
        -- eexists. split; [reflexivity |]. cbv zeta. left.
           rewrite count_true_all by (intros x Hx; apply Hall; lia).
           f_equal. lia.
        -- destruct (IH hp (bytes + (hp - dp)) ltac:(lia) ltac:(lia))
             as (ex & Hex & Htot).
           exists ex. split; [exact Hex |]. cbv zeta in *.
           rewrite (count_true_split _ dp hp stop_pos) by lia.
           rewrite (count_true_all _ (Z.to_nat (hp - dp)))
             by (intros x Hx; apply Hall; lia).
           replace (bytes + (0 + (Z.of_nat (Z.to_nat (hp - dp)) +
                      count_true (is_data f) (Z.to_nat (stop_pos - hp)) hp)))
             with (bytes + (hp - dp) +
                   count_true (is_data f) (Z.to_nat (stop_pos - hp)) hp)
             by lia.
           exact Htot.
    + apply lseek_data_err in Hdp as [-> Hno]; [| assumption].
      eexists. split; [reflexivity |]. cbv zeta. right. right.
      rewrite count_true_none by (intros x Hx; apply Hno; lia).
      do 2 f_equal. lia.
Qed.

Lemma xfile_partition_bytes_counts (K : faults) (w : world) (xf : xfile)
  (f : file) :
  0 <= partition_pos xf ->
  0 <= maxbytes xf ->
  partition_pos xf + maxbytes xf < 2 ^ 63 ->
  files w !! xf_fd w xf = Some f ->
  (forall o, flt_lseek K (xf_fd w xf) o = None) ->
  xfile_partition_bytes K w xf
  = Some (resident_bytes f (partition_pos xf)
                         (partition_pos xf + maxbytes xf)).
Proof.
  intros Hp Hm Hlt Hf HK. unfold xfile_partition_bytes.
  rewrite s64_small by lia.
  destruct (partition_bytes_loop_counts K w (xf_fd w xf)
              (partition_pos xf + maxbytes xf) f Hf HK
              (Z.to_nat (partition_pos xf + maxbytes xf - partition_pos xf))
              (partition_pos xf) 0 Hp ltac:(lia))
    as (ex & -> & Hex).
  cbv zeta in Hex. rewrite Z.add_0_l in Hex.
  destruct Hex as [-> | [[dp ->] | ->]]; reflexivity.
Qed.

(** Pages made resident by one write into an empty file. *)
Lemma resident_pages_first_write (buf : list byte) (n off : Z) :
  0 < PAGE_SIZE -> 0 <= off -> 0 < n ->
  resident_pages (write empty_file buf n off)
  = (off + n - 1) / PAGE_SIZE - off / PAGE_SIZE + 1.
Proof.
  intros HP Hoff Hn. unfold resident_pages.
  rewrite write_size by assumption. cbn [f_size empty_file].
  unfold write. destruct (Z.leb_spec n 0); [lia |].
  cbn [f_resident empty_file orb].
  set (a := off / PAGE_SIZE). set (b := (off + n - 1) / PAGE_SIZE).
  assert (Ha : 0 <= a) by (apply Z.div_pos; lia).
  assert (Hab : a <= b) by (apply Z.div_le_mono; lia).
  replace ((Z.max 0 (off + n) + PAGE_SIZE - 1) / PAGE_SIZE) with (b + 1).
  2:{ unfold b. replace (Z.max 0 (off + n) + PAGE_SIZE - 1)
        with (off + n - 1 + 1 * PAGE_SIZE) by lia.
      rewrite Z.div_add by lia. reflexivity. }
  replace (Z.to_nat (b + 1)) with (Z.to_nat (b + 1 - 0)) by (f_equal; lia).
  rewrite (count_true_split _ 0 a (b + 1)) by lia.
  rewrite count_true_none.
  2:{ intros x Hx. destruct (Z.leb_spec a x); [lia | reflexivity]. }
  rewrite count_true_all.
  2:{ intros x Hx. destruct (Z.leb_spec a x); [| lia].
      destruct (Z.leb_spec x b); [reflexivity | lia]. }
  lia.
Qed.

(** After a write of at least one byte some page is resident, and no more
    pages are resident than the file has. *)
Lemma resident_pages_after_write (f : file) (buf : list byte) (n off : Z) :
  0 < PAGE_SIZE -> 0 <= off -> 0 < n -> 0 <= f_size f ->
  let f' := write f buf n off in
  0 < resident_pages f' /\
  resident_pages f' * PAGE_SIZE <= f_size f' + PAGE_SIZE - 1.
Proof.
  intros HP Hoff Hn Hsz. cbv zeta. unfold resident_pages.
  rewrite write_size by assumption.
  set (sz := Z.max (f_size f) (off + n)).
  set (np := (sz + PAGE_SIZE - 1) / PAGE_SIZE).
  assert (Hnp : off / PAGE_SIZE < np).
  { unfold np. apply Z.lt_le_trans with ((off + 1 * PAGE_SIZE) / PAGE_SIZE).
    - rewrite Z.div_add by lia. lia.
    - apply Z.div_le_mono; lia. }
  assert (H0 : 0 <= off / PAGE_SIZE) by (apply Z.div_pos; lia).
  split.
  - apply count_true_pos with (x := off / PAGE_SIZE); [lia |].
    unfold write. destruct (Z.leb_spec n 0); [lia |]. cbn [f_resident].
    apply orb_true_iff. right. apply andb_true_iff. split.
    + apply Z.leb_le. lia.
    + apply Z.leb_le. apply Z.div_le_mono; lia.
  - pose proof (count_true_bounds (f_resident (write f buf n off))
                  (Z.to_nat np) 0) as Hb.
    pose proof (Z.mul_div_le (sz + PAGE_SIZE - 1) PAGE_SIZE HP) as Hm.
    fold np in Hm. nia.
Qed.

(** C9.  [xfile_bytes] of a bounded partition is the number of data bytes
    of the backing file inside the partition's range; of a private
    partition it is [st_blocks << 9] as fstat reports it.  In the model of
    the kernel that figure is a page for every resident page: after a
    store it is positive, and after a first store it is the pages the
    store touched, whatever the offset. *)
Theorem xfile_bytes_spec (K : faults) (w : world) (xf : xfile) (f : file) :
  files w !! xf_fd w xf = Some f ->
  (0 < maxbytes xf ->
   0 <= partition_pos xf ->
   partition_pos xf + maxbytes xf < 2 ^ 63 ->
   (forall o, flt_lseek K (xf_fd w xf) o = None) ->
   xfile_bytes K w xf
   = Some (resident_bytes f (partition_pos xf)
                          (partition_pos xf + maxbytes xf))) /\
  (maxbytes xf = 0 ->
   (forall st, sys_fstat K w (xf_fd w xf) = SysOk st ->
      xfile_bytes K w xf = Some (u64 (Z.shiftl (st_blocks st) 9))) /\
   (forall K' w' buf count pos,
      0 < PAGE_SIZE < 2 ^ 62 -> PAGE_SIZE mod 512 = 0 ->
      0 <= f_size f <= LLONG_MAX ->
      pos + partition_pos xf + count <= LLONG_MAX ->
      0 < count -> Z.of_nat (length buf) = count ->
      xfile_store K' w xf buf count pos = (0, w') ->
      flt_fstat K (xf_fd w xf) = None ->
      let f' := write f buf count (pos + partition_pos xf) in
      xfile_bytes K w' xf = Some (resident_pages f' * PAGE_SIZE) /\
      0 < resident_pages f' * PAGE_SIZE /\
      (f = empty_file ->
       resident_pages f'
       = (pos + partition_pos xf + count - 1) / PAGE_SIZE
         - (pos + partition_pos xf) / PAGE_SIZE + 1))).
Proof.
  intros Hf. split.
  - intros Hm Hp Hlt HK. unfold xfile_bytes.
    destruct (Z.ltb_spec 0 (maxbytes xf)); [| lia].
    apply xfile_partition_bytes_counts; auto; lia.
  - intros Hm. split.
    + intros st Hst. unfold xfile_bytes. rewrite Hm, Hst. reflexivity.
    + intros K' w' buf count pos HP H512 Hsz Hend Hc Hlen Hst HK.
      destruct (xfile_store_ok _ _ _ _ _ _ _ Hlen Hst)
        as (f0 & Hf0 & Hoff & ->).
      rewrite Hf in Hf0. injection Hf0 as <-.
      set (off := pos + partition_pos xf) in *. cbv zeta.
      destruct (resident_pages_after_write f buf count off
                  ltac:(lia) Hoff Hc ltac:(lia)) as [Hpos Hle].
      rewrite write_size in Hle by assumption.
      split; [| split].
      * unfold xfile_bytes. rewrite Hm. cbn [Z.ltb].
        rewrite xf_fd_set_files. unfold sys_fstat. cbn [files set_files].
        rewrite lookup_insert_eq. unfold fstat. rewrite HK.
        cbn [st_blocks]. f_equal. rewrite Z.shiftl_mul_pow2 by lia.
        pose proof (Z.div_mod PAGE_SIZE 512 ltac:(lia)) as Hdm.
        rewrite H512 in Hdm.
        replace (resident_pages (write f buf count off) * (PAGE_SIZE / 512)
                 * 2 ^ 9)
          with (resident_pages (write f buf count off) * PAGE_SIZE) by lia.
        apply u64_small. unfold LLONG_MAX in *. lia.
      * lia.
      * intros ->. apply resident_pages_first_write; lia.
Qed.

(** When the position itself lies past the end of a bounded partition the
    difference [xfile_maxbytes(xf) - pos] is negative; converted to
    [size_t] it is at least [2 ^ 63], and the test lets the request
    through. *)
Lemma capacity_test_bypassed (xf : xfile) (count pos : Z) :
  0 < maxbytes xf <= LLONG_MAX ->
  maxbytes xf < pos <= LLONG_MAX ->
  0 <= count <= INT_MAX ->
  (u64 (xfile_maxbytes xf - pos) <? count) = false.
Proof.
  intros Hm Hp Hc. rewrite xfile_maxbytes_bounded by assumption.
  unfold LLONG_MAX, INT_MAX in *.
  assert (u64 (maxbytes xf - pos) = maxbytes xf - pos + 2 ^ 64) as ->.
  { unfold u64. symmetry. apply Z.mod_unique with (q := -1); lia. }
  apply Z.ltb_ge. lia.
Qed.

(** [xfile_discard] passes [pos] to fallocate as it is: where the
    partition starts plays no part. *)
Lemma xfile_discard_absolute (K : faults) (w : world) (xf : xfile)
  (pos count start : Z) :
  xfile_discard K w xf pos count
  = xfile_discard K w {| fcb := fcb xf; partition_pos := start;
                         maxbytes := maxbytes xf |} pos count.
Proof. reflexivity. Qed.

(** What [xfile_create] records for a bounded request: the caller's
    [maxbytes] as it was passed, next to a file that grew by the rounded
    amount when a new block was made for it. *)
Lemma xfile_create_records_maxbytes (K : faults) (w w' : world) (m : Z)
  (xf : xfile) :
  xfile_create K w m = (0, Some xf, w') -> maxbytes xf = m.
Proof.
  unfold xfile_create. destruct (flt_kmalloc K); [intros [=] |].
  destruct (xfile_fcb_find K w m) as [[[error pos] a] w1].
  destruct (negb (error =? 0)); [intros [=] |].
  now intros [= <- <-].
Qed.

(** ** Frame of the data path *)

Lemma set_files_id (w : world) : set_files (files w) w = w.
Proof. destruct w; reflexivity. Qed.

Lemma sys_ftruncate_err_same (K : faults) (w w1 : world) (d len e : Z) :
  sys_ftruncate K w d len = (SysErr e, w1) -> w1 = w.
Proof.
  unfold sys_ftruncate. destruct (files w !! d) as [f |] eqn:Hf.
  - unfold ftruncate. destruct (len <? 0).
    + intros [= _ <-]. rewrite insert_id by assumption. apply set_files_id.
    + destruct (flt_ftruncate K d len).
      * intros [= _ <-]. rewrite insert_id by assumption. apply set_files_id.
      * discriminate.
  - now intros [= _ <-].
Qed.

Lemma sys_ftruncate_ok (K : faults) (w w1 : world) (d len : Z) (u : unit) :
  sys_ftruncate K w d len = (SysOk u, w1) ->
  exists f, files w !! d = Some f /\ 0 <= len /\
    flt_ftruncate K d len = None /\
    w1 = set_files (<[d := truncate f len]> (files w)) w.
Proof.
  unfold sys_ftruncate. destruct (files w !! d) as [f |] eqn:Hf;
    [| discriminate].
  unfold ftruncate. destruct (Z.ltb_spec len 0); [discriminate |].
  destruct (flt_ftruncate K d len); [discriminate |].
  intros [= _ <-]. exists f. repeat split; auto.
Qed.

Lemma write_frame (f : file) (buf : list byte) (n count off : Z) :
  n <= count ->
  f_size f <= f_size (write f buf n off) /\
  forall o, ~ (off <= o < off + count) ->
    f_byte (write f buf n off) o = f_byte f o.
Proof.
  intros Hn. unfold write. destruct (Z.leb_spec n 0).
  - split; [lia | reflexivity].
  - cbn [f_size f_byte]. split; [lia |].
    intros o Ho. unfold in_range.
    destruct (Z.leb_spec off o); cbn [andb]; [| reflexivity].
    destruct (Z.ltb_spec o (off + n)); [lia | reflexivity].
Qed.

Lemma pwrite_frame (flt : fault) (f : file) (buf : list byte)
  (count off : Z) :
  f_size f <= f_size (snd (pwrite flt f buf count off)) /\
  forall o, ~ (off <= o < off + count) ->
    f_byte (snd (pwrite flt f buf count off)) o = f_byte f o.
Proof.
  unfold pwrite. destruct (off <? 0); cbn [snd]; [split; [lia | reflexivity] |].
  destruct flt as [| e | k]; cbn [snd].
  - destruct (Z.max_spec 0 count) as [[H ->] | [H ->]].
    + apply write_frame. lia.
    + unfold write. destruct (Z.leb_spec 0 0); [| lia].
      split; [lia | reflexivity].
  - split; [lia | reflexivity].
  - destruct (Z.max_spec 0 (Z.min k count)) as [[H ->] | [H ->]].
    + apply write_frame. lia.
    + unfold write. destruct (Z.leb_spec 0 0); [| lia].
      split; [lia | reflexivity].
Qed.

Lemma sys_pwrite_frame (K : faults) (w : world) (d : Z) (buf : list byte)
  (count off : Z) :
  let w' := snd (sys_pwrite K w d buf count off) in
  fcbs w' = fcbs w /\ fcb_list w' = fcb_list w /\ closed w' = closed w /\
  maps w' = maps w /\ allocated w' = allocated w /\
  (forall d', d' <> d -> files w' !! d' = files w !! d') /\
  match files w !! d with
  | None => w' = w
  | Some f =>
    exists f', files w' !! d = Some f' /\ f_size f <= f_size f' /\
      forall o, ~ (off <= o < off + count) -> f_byte f' o = f_byte f o
  end.
Proof.
  unfold sys_pwrite. destruct (files w !! d) as [f |] eqn:Hf; cbn zeta.
  - pose proof (pwrite_frame (flt_pwrite K d count off) f buf count off)
      as [Hs Hb].
    destruct (pwrite (flt_pwrite K d count off) f buf count off) as [r f'].
    cbn [snd] in *. cbn [set_files fcbs fcb_list closed maps allocated files].
    repeat (split; [reflexivity |]).
    split.
    + intros d' Hd. now rewrite lookup_insert_ne by congruence.
    + exists f'. rewrite lookup_insert_eq. auto.
  - cbn [snd]. repeat (split; [reflexivity |]). split; reflexivity.
Qed.

Lemma xfile_store_world (K : faults) (w : world) (xf : xfile)
  (buf : list byte) (count pos : Z) :
  snd (xfile_store K w xf buf count pos) = w \/
  snd (xfile_store K w xf buf count pos)
  = snd (sys_pwrite K w (xf_fd w xf) buf count (pos + partition_pos xf)).
Proof.
  unfold xfile_store.
  destruct (INT_MAX <? count); [now left |].
  destruct (u64 (xfile_maxbytes xf - pos) <? count); [now left |].
  right.
  destruct (sys_pwrite K w (xf_fd w xf) buf count (pos + partition_pos xf))
    as [[n | e] w1]; cbn [snd]; [| reflexivity].
  now destruct (negb (n =? count)).
Qed.

Lemma store_frame_id (w : world) (d off count : Z) :
  fcbs w = fcbs w /\ fcb_list w = fcb_list w /\ closed w = closed w /\
  maps w = maps w /\ allocated w = allocated w /\
  (forall d', d' <> d -> files w !! d' = files w !! d') /\
  match files w !! d with
  | None => w = w
  | Some f =>
    exists f', files w !! d = Some f' /\ f_size f <= f_size f' /\
      forall o, ~ (off <= o < off + count) -> f_byte f' o = f_byte f o
  end.
Proof.
  repeat (split; [reflexivity |]).
  destruct (files w !! d) as [f |] eqn:Hf; [| reflexivity].
  exists f. split; [reflexivity |]. split; [lia | reflexivity].
Qed.

(** X1.  Whatever [xfile_store] returns, it leaves the blocks, the
    list, the mappings and every other file as they were, and in the file
    behind the partition it changes no byte outside the absolute range
    [partition_pos + pos, partition_pos + pos + count) and never makes the
    file shorter. *)
Theorem xfile_store_frame (K : faults) (w : world) (xf : xfile)
  (buf : list byte) (count pos : Z) :
  let w' := snd (xfile_store K w xf buf count pos) in
  let d := xf_fd w xf in
  let off := pos + partition_pos xf in
  fcbs w' = fcbs w /\ fcb_list w' = fcb_list w /\ closed w' = closed w /\
  maps w' = maps w /\ allocated w' = allocated w /\
  (forall d', d' <> d -> files w' !! d' = files w !! d') /\
  match files w !! d with
  | None => w' = w
  | Some f =>
    exists f', files w' !! d = Some f' /\ f_size f <= f_size f' /\
      forall o, ~ (off <= o < off + count) -> f_byte f' o = f_byte f o
  end.
Proof.
  cbn zeta.
  destruct (xfile_store_world K w xf buf count pos) as [-> | ->].
  - apply store_frame_id.
  - apply sys_pwrite_frame.
Qed.

Lemma read_bytes_ext (f f' : file) (off n : Z) :
  (forall o, off <= o < off + n -> f_byte f' o = f_byte f o) ->
  read_bytes f' off n = read_bytes f off n.
Proof.
  intros H. unfold read_bytes. apply list_fmap_ext.
  intros i o Ho. apply H.
  apply lookup_seqZ in Ho. lia.
Qed.

Lemma pread_ext (flt : fault) (f f' : file) (count off : Z) :
  f_size f <= f_size f' ->
  off + count <= f_size f ->
  (forall o, off <= o < off + count -> f_byte f' o = f_byte f o) ->
  pread flt f' count off = pread flt f count off.
Proof.
  intros Hs Hin Hb. unfold pread. destruct (off <? 0); [reflexivity |].
  replace (Z.min count (f_size f' - off)) with count by lia.
  replace (Z.min count (f_size f - off)) with count by lia.
  destruct flt as [| e | k]; [| reflexivity |]; f_equal;
    apply read_bytes_ext; intros o Ho; apply Hb; lia.
Qed.

(** X2.  Partitions do not see each other's stores: a store that
    stays inside its partition leaves every load that stays inside a
    disjoint partition as it was, whether the two share a file or not
    (the second partition lying inside its file). *)
Theorem xfile_store_isolated (K K' : faults) (w : world) (xf xf' : xfile)
  (buf : list byte) (count pos count' pos' : Z) :
  0 <= pos -> pos + count <= maxbytes xf ->
  0 <= pos' -> pos' + count' <= maxbytes xf' ->
  (partition_pos xf + maxbytes xf <= partition_pos xf' \/
   partition_pos xf' + maxbytes xf' <= partition_pos xf) ->
  (forall f, xf_file w xf' = Some f ->
     partition_pos xf' + maxbytes xf' <= f_size f) ->
  xfile_load K' (snd (xfile_store K w xf buf count pos)) xf' count' pos'
  = xfile_load K' w xf' count' pos'.
Proof.
  intros Hp Hc Hp' Hc' Hdis Hin.
  assert (H :
    let w' := snd (xfile_store K w xf buf count pos) in
    fcbs w' = fcbs w /\
    (forall d', d' <> xf_fd w xf -> files w' !! d' = files w !! d') /\
    match files w !! xf_fd w xf with
    | None => w' = w
    | Some f =>
      exists f', files w' !! xf_fd w xf = Some f' /\ f_size f <= f_size f' /\
        forall o, ~ (pos + partition_pos xf <= o
                     < pos + partition_pos xf + count) ->
                  f_byte f' o = f_byte f o
    end).
  { cbn zeta.
    destruct (xfile_store_world K w xf buf count pos) as [-> | ->].
    - pose proof (store_frame_id w (xf_fd w xf) (pos + partition_pos xf)
                                 count) as H. tauto.
    - pose proof (sys_pwrite_frame K w (xf_fd w xf) buf count
                                   (pos + partition_pos xf)) as H.
      cbn zeta in H. tauto. }
  cbn zeta in H. destruct H as (Hf & Ho & Hd).
  set (w' := snd (xfile_store K w xf buf count pos)) in *.
  unfold xfile_load.
  assert (Hfd : xf_fd w' xf' = xf_fd w xf') by (unfold xf_fd; now rewrite Hf).
  rewrite Hfd.
  assert (Hr :
    sys_pread K' w' (xf_fd w xf') count' (pos' + partition_pos xf')
    = sys_pread K' w (xf_fd w xf') count' (pos' + partition_pos xf')).
  { unfold sys_pread.
    destruct (decide (xf_fd w xf' = xf_fd w xf)) as [He | Hne].
    - rewrite He in *. unfold xf_file in Hin. rewrite He in Hin.
      destruct (files w !! xf_fd w xf) as [f |] eqn:Hfile.
      + destruct Hd as (f' & Hf' & Hs & Hb). rewrite Hf'.
        specialize (Hin f eq_refl).
        apply pread_ext; [assumption | lia |].
        intros o Hrange. apply Hb. lia.
      + rewrite Hd. now rewrite Hfile.
    - now rewrite (Ho _ Hne). }
  now rewrite Hr.
Qed.

(** A read that delivered [count] bytes took all of them from below the
    end of the file. *)
Lemma sys_pread_full (K : faults) (w : world) (d count off : Z)
  (bs : list byte) :
  sys_pread K w d count off = SysOk bs ->
  Z.of_nat (length bs) = count ->
  exists f,
    files w !! d = Some f /\ 0 <= off /\
    (0 < count -> off + count <= f_size f) /\
    bs = read_bytes f off count.
Proof.
  unfold sys_pread. destruct (files w !! d) as [f |]; [| discriminate].
  intros Hr Hl. exists f. split; [reflexivity |].
  unfold pread in Hr. destruct (Z.ltb_spec off 0); [discriminate |].
  split; [assumption |].
  destruct (flt_pread K d count off) as [| e | k]; [| discriminate |];
    injection Hr as <-; rewrite read_bytes_length in Hl;
    (split; [lia | f_equal; lia]).
Qed.

(** X3.  A load that returns 0 has read exactly [count] bytes, all
    of them below the end of the file behind the partition: what it hands
    back is the content of [partition_pos + pos, partition_pos + pos +
    count). *)
Theorem xfile_load_ok (K : faults) (w : world) (xf : xfile)
  (count pos : Z) (bs : list byte) :
  xfile_load K w xf count pos = (0, bs) ->
  exists f,
    xf_file w xf = Some f /\
    0 <= count <= INT_MAX /\
    0 <= pos + partition_pos xf /\
    (0 < count -> pos + partition_pos xf + count <= f_size f) /\
    Z.of_nat (length bs) = count /\
    bs = read_bytes f (pos + partition_pos xf) count.
Proof.
  unfold xfile_load, xf_file.
  destruct (Z.ltb_spec INT_MAX count); [intros E; absurd_ret E |].
  destruct (u64 (xfile_maxbytes xf - pos) <? count);
    [intros E; absurd_ret E |].
  destruct (sys_pread K w (xf_fd w xf) count (pos + partition_pos xf))
    as [bs' | e] eqn:Hr.
  2:{ unfold sys_pread in Hr.
      destruct (files w !! xf_fd w xf) as [f |].
      - apply pread_errno in Hr. intros [= He _]. lia.
      - injection Hr as <-. intros E. absurd_ret E. }
  destruct (Z.eqb_spec (Z.of_nat (length bs')) count) as [Hl | Hl];
    cbn [negb]; [| intros E; absurd_ret E].
  intros [= <-].
  destruct (sys_pread_full K w _ _ _ _ Hr Hl) as (f & Hf & Hoff & Hin & Hbs).
  exists f. split; [assumption |]. split; [lia |]. auto.
Qed.

(** ** Finding room for a partition *)

Lemma roundup_64_spec (x y : Z) :
  0 < y ->
  x <= roundup_64 x y < x + y /\ roundup_64 x y mod y = 0.
Proof.
  intros Hy. unfold roundup_64.
  pose proof (Z.div_mod (x + y - 1) y ltac:(lia)) as Hdm.
  pose proof (Z.mod_pos_bound (x + y - 1) y Hy) as Hb.
  split; [nia |]. apply Z.mod_mul. lia.
Qed.

Lemma sys_fstat_ok (K : faults) (w : world) (d : Z) (st : stat) :
  sys_fstat K w d = SysOk st ->
  exists f, files w !! d = Some f /\ flt_fstat K d = None /\
    st_size st = f_size f.
Proof.
  unfold sys_fstat. destruct (files w !! d) as [f |]; [| discriminate].
  unfold fstat. destruct (flt_fstat K d); [discriminate |].
  intros [= <-]. exists f. auto.
Qed.

Lemma fcb_scan_unusable (K : faults) (a : Z) (l : list Z) (m : Z)
  (w : world) :
  fcb_usable K w m a = false ->
  fcb_scan K (a :: l) m w = fcb_scan K l m w.
Proof.
  unfold fcb_usable. cbn [fcb_scan].
  destruct (fcbs w !! a) as [c |]; [| reflexivity].
  destruct (sys_fstat K w (fd c)) as [st | e]; [| reflexivity].
  destruct (sys_ftruncate K w (fd c)
              (s64 (roundup_64 (st_size st) PAGE_SIZE + m)))
    as [[u | e] w1] eqn:Ht; cbn [fst]; [discriminate |].
  intros _. now rewrite (sys_ftruncate_err_same _ _ _ _ _ _ Ht).
Qed.

Lemma fcb_scan_usable (K : faults) (a : Z) (l : list Z) (m : Z)
  (w : world) :
  fcb_usable K w m a = true ->
  exists c f,
    fcbs w !! a = Some c /\ files w !! fd c = Some f /\
    0 <= s64 (roundup_64 (f_size f) PAGE_SIZE + m) /\
    fcb_scan K (a :: l) m w
    = (Some (roundup_64 (f_size f) PAGE_SIZE, a),
       set_fcbs (<[a := {| fd := fd c; refcount := u32 (refcount c + 1) |}]>
                   (fcbs w))
         (set_files
            (<[fd c := truncate f
                         (s64 (roundup_64 (f_size f) PAGE_SIZE + m))]>
               (files w)) w)).
Proof.
  unfold fcb_usable. cbn [fcb_scan].
  destruct (fcbs w !! a) as [c |]; [| discriminate].
  destruct (sys_fstat K w (fd c)) as [st | e] eqn:Hst; [| discriminate].
  apply sys_fstat_ok in Hst as (f & Hf & _ & Hsz). rewrite Hsz.
  destruct (sys_ftruncate K w (fd c)
              (s64 (roundup_64 (f_size f) PAGE_SIZE + m)))
    as [[u | e] w1] eqn:Ht; cbn [fst]; [| discriminate].
  intros _. apply sys_ftruncate_ok in Ht as (f' & Hf' & Hlen & _ & ->).
  rewrite Hf in Hf'. injection Hf' as <-.
  exists c, f. repeat split; auto.
Qed.

Lemma fcb_scan_prefix (K : faults) (l1 l2 : list Z) (m : Z) (w : world) :
  Forall (fun b => fcb_usable K w m b = false) l1 ->
  fcb_scan K (l1 ++ l2) m w = fcb_scan K l2 m w.
Proof.
  induction 1 as [| b l1 Hb _ IH]; [reflexivity |].
  rewrite <- app_comm_cons. now rewrite fcb_scan_unusable.
Qed.

Lemma fcb_scan_Some (K : faults) (l : list Z) (m : Z) (w w' : world)
  (pos a : Z) :
  fcb_scan K l m w = (Some (pos, a), w') ->
  a ∈ l /\
  exists c f,
    fcbs w !! a = Some c /\ files w !! fd c = Some f /\
    pos = roundup_64 (f_size f) PAGE_SIZE /\
    0 <= s64 (pos + m) /\
    w' = set_fcbs
           (<[a := {| fd := fd c; refcount := u32 (refcount c + 1) |}]>
              (fcbs w))
           (set_files (<[fd c := truncate f (s64 (pos + m))]> (files w)) w).
Proof.
  induction l as [| b l IH]; [discriminate |].
  destruct (fcb_usable K w m b) eqn:Hu.
  - destruct (fcb_scan_usable K b l m w Hu) as (c & f & Hc & Hf & Hlen & ->).
    intros [= <- <- <-]. split; [apply list_elem_of_here |].
    exists c, f. auto.
  - rewrite fcb_scan_unusable by assumption. intros H.
    destruct (IH H) as [Hin Hrest].
    split; [now apply list_elem_of_further | exact Hrest].
Qed.

Lemma fcb_scan_None (K : faults) (l : list Z) (m : Z) (w w' : world) :
  fcb_scan K l m w = (None, w') ->
  w' = w /\ Forall (fun b => fcb_usable K w m b = false) l.
Proof.
  induction l as [| b l IH].
  - intros [= <-]. split; [reflexivity | constructor].
  - destruct (fcb_usable K w m b) eqn:Hu.
    + destruct (fcb_scan_usable K b l m w Hu) as (c & f & _ & _ & _ & ->).
      discriminate.
    + rewrite fcb_scan_unusable by assumption. intros H.
      destruct (IH H) as [-> Hall]. split; [reflexivity |].
      now constructor.
Qed.

Lemma fcb_scan_all_unusable (K : faults) (l : list Z) (m : Z) (w : world) :
  Forall (fun b => fcb_usable K w m b = false) l ->
  fcb_scan K l m w = (None, w).
Proof.
  intros H. rewrite <- (app_nil_r l). now rewrite fcb_scan_prefix.
Qed.

(** X4.  The scan is first-fit: when some listed block can be
    stat'ed and extended by the rounded request, [xfile_fcb_find] hands out
    the first such block in list order, without allocating a block or
    touching the list; when none can, a block it returns is a new one,
    appended at the tail of the list. *)
Theorem xfile_fcb_find_first_fit (K : faults) (w : world) (m : Z) :
  m <> 0 ->
  let M := u64 (roundup_64 m PAGE_SIZE) in
  (forall l1 a l2,
     fcb_list w = l1 ++ a :: l2 ->
     Forall (fun b => fcb_usable K w M b = false) l1 ->
     fcb_usable K w M a = true ->
     exists pos w',
       xfile_fcb_find K w m = (0, pos, a, w') /\
       fcb_list w' = fcb_list w /\ dom (fcbs w') = dom (fcbs w)) /\
  (Forall (fun b => fcb_usable K w M b = false) (fcb_list w) ->
   forall pos a w',
     xfile_fcb_find K w m = (0, pos, a, w') ->
     fcbs w !! a = None /\ pos = 0 /\ fcb_list w' = fcb_list w ++ [a]).
Proof.
  intros Hm M. unfold xfile_fcb_find.
  destruct (Z.eqb_spec m 0) as [| _]; [contradiction |]. fold M.
  split.
  - intros l1 a l2 Hl Hpre Ha. rewrite Hl.
    rewrite fcb_scan_prefix by assumption.
    destruct (fcb_scan_usable K a l2 M w Ha) as (c & f & Hc & Hf & Hlen & ->).
    eexists _, _. split; [reflexivity |].
    cbn [set_fcbs set_files fcb_list fcbs]. split; [now rewrite Hl |].
    apply dom_insert_lookup_L. now rewrite Hc.
  - intros Hall pos a w'. rewrite fcb_scan_all_unusable by assumption.
    destruct (xfile_fcb_create K w) as [[error a1] w2] eqn:Hcr.
    apply xfile_fcb_create_cases in Hcr
      as [(-> & Hnone & d & Hd & ->) | (Herr & _)].
    + cbn [Z.eqb negb].
      set (w2 := set_fcbs _ (set_files _ w)).
      assert (Hd2 : default (-1) (fd <$> fcbs w2 !! a1) = d).
      { unfold w2. cbn [set_fcbs set_files fcbs].
        now rewrite lookup_insert_eq. }
      rewrite Hd2.
      pose proof (sys_ftruncate_errno K w2 d (s64 M)) as He.
      destruct (sys_ftruncate K w2 d (s64 M)) as [[u | e] w3] eqn:Ht.
      * intros [= <- <- <-].
        apply sys_ftruncate_ok in Ht as (f & _ & _ & _ & ->).
        cbn [set_fcb_list set_files set_fcbs fcb_list w2]. auto.
      * intros [= H0]. lia.
    + destruct (Z.eqb_spec error 0); [contradiction |]. cbn [negb].
      intros [= H0]. contradiction.
Qed.

(** What a successful bounded [xfile_fcb_find] did to the files: the file
    of the block it returns, [f] before the call (the empty file for a new
    block), was truncated to [pos + M]. *)
Lemma xfile_fcb_find_carve (K : faults) (w w' : world) (m pos a : Z) :
  m <> 0 ->
  xfile_fcb_find K w m = (0, pos, a, w') ->
  let M := u64 (roundup_64 m PAGE_SIZE) in
  exists d rc f,
    fcbs w' !! a = Some {| fd := d; refcount := rc |} /\
    ((a ∈ fcb_list w /\ (exists c, fcbs w !! a = Some c /\ fd c = d) /\
      files w !! d = Some f /\ pos = roundup_64 (f_size f) PAGE_SIZE) \/
     (fcbs w !! a = None /\ files w !! d = None /\ f = empty_file /\
      pos = 0)) /\
    0 <= s64 (pos + M) /\
    files w' !! d = Some (truncate f (s64 (pos + M))) /\
    (forall d', d' <> d -> files w' !! d' = files w !! d').
Proof.
  intros Hm H M. unfold xfile_fcb_find in H.
  destruct (Z.eqb_spec m 0) as [| _]; [contradiction |]. fold M in H.
  destruct (fcb_scan K (fcb_list w) M w) as [[[pos1 a1] |] w1] eqn:Hs.
  - injection H as <- <- <-.
    apply fcb_scan_Some in Hs as (Hin & c & f & Hc & Hf & -> & Hlen & ->).
    exists (fd c), (u32 (refcount c + 1)), f.
    cbn [set_fcbs set_files fcbs files].
    rewrite !lookup_insert_eq. split; [reflexivity |].
    split; [left; eauto 10 |].
    split; [assumption |]. split; [reflexivity |].
    intros d' Hd'. now rewrite lookup_insert_ne by congruence.
  - apply fcb_scan_None in Hs as [-> _].
    destruct (xfile_fcb_create K w) as [[error a1] w2] eqn:Hcr.
    apply xfile_fcb_create_cases in Hcr
      as [(-> & Hnone & d & Hd & ->) | (Herr & _)].
    + cbn [Z.eqb negb] in H.
      set (w2 := set_fcbs _ (set_files _ w)) in H.
      assert (Hd2 : default (-1) (fd <$> fcbs w2 !! a1) = d).
      { unfold w2. cbn [set_fcbs set_files fcbs].
        now rewrite lookup_insert_eq. }
      rewrite Hd2 in H.
      pose proof (sys_ftruncate_errno K w2 d (s64 M)) as He.
      destruct (sys_ftruncate K w2 d (s64 M)) as [[u | e] w3] eqn:Ht.
      * injection H as <- <- <-.
        apply sys_ftruncate_ok in Ht as (f & Hf & Hlen & _ & ->).
        unfold w2 in Hf. cbn [set_fcbs set_files files] in Hf.
        rewrite lookup_insert_eq in Hf. injection Hf as <-.
        exists d, 1, empty_file.
        unfold w2. cbn [set_fcb_list set_fcbs set_files fcbs files].
        rewrite !lookup_insert_eq. rewrite Z.add_0_l.
        split; [reflexivity |]. split; [right; auto |].
        split; [assumption |]. split; [reflexivity |].
        intros d' Hd'. now rewrite !lookup_insert_ne by congruence.
      * injection H as H0. lia.
    + destruct (Z.eqb_spec error 0); [contradiction |]. cbn [negb] in H.
      injection H as H0. contradiction.
Qed.

Lemma xfile_create_ok (K : faults) (w w' : world) (m : Z) (xf : xfile) :
  xfile_create K w m = (0, Some xf, w') ->
  xfile_fcb_find K w m = (0, partition_pos xf, fcb xf, w') /\
  maxbytes xf = m.
Proof.
  unfold xfile_create. destruct (flt_kmalloc K); [intros E; absurd_ret E |].
  destruct (xfile_fcb_find K w m) as [[[error pos] a] w1].
  destruct (Z.eqb_spec error 0) as [-> | Hne]; cbn [negb].
  - intros [= <- <-]. auto.
  - intros E. inversion E.
Qed.


Lemma read_bytes_zero (f : file) (off n : Z) :
  (forall o, off <= o < off + n -> f_byte f o = x00) ->
  read_bytes f off n = replicate (Z.to_nat n) x00.
Proof.
  intros H.
  rewrite (read_bytes_ext empty_file f off n)
    by (intros o Ho; now rewrite H).
  unfold read_bytes. rewrite (const_fmap _ _ x00) by reflexivity.
  now rewrite length_seqZ.
Qed.

(** X6.  A newly created bounded partition whose range fits the file
    offsets ([0 <= partition_pos] and [partition_pos + roundup_64 maxbytes
    PAGE_SIZE < 2 ^ 63]) reads as zeroes: any load inside its [maxbytes],
    if the kernel does not fail the read, returns 0 and [count] zero
    bytes, whatever the earlier partitions of the same file hold.  Past
    that bound the rounded length wraps and the file may not reach the
    partition at all. *)
Theorem new_partition_reads_zero (K K' : faults) (w w' : world) (m : Z)
  (xf : xfile) (count pos : Z) :
  0 < PAGE_SIZE -> 0 < m ->
  xfile_create K w m = (0, Some xf, w') ->
  0 <= partition_pos xf ->
  partition_pos xf + roundup_64 m PAGE_SIZE < 2 ^ 63 ->
  0 <= pos -> 0 <= count <= INT_MAX -> pos + count <= m ->
  flt_pread K' (xf_fd w' xf) count (pos + partition_pos xf) = NoFault ->
  xfile_load K' w' xf count pos = (0, replicate (Z.to_nat count) x00).
Proof.
  intros HP Hm H Hp0 Hov Hpos Hcount Hin Hflt.
  pose proof (roundup_64_spec m PAGE_SIZE HP) as [Hr _].
  apply xfile_create_ok in H as [H Hmax].
  apply xfile_fcb_find_carve in H; [| lia]. cbn zeta in H.
  destruct H as (d & rc & f & Hc' & Hcase & _ & Hf' & _).
  rewrite u64_small, s64_small in Hf' by lia.
  assert (Hfd' : xf_fd w' xf = d) by (unfold xf_fd; now rewrite Hc').
  rewrite <- Hfd' in Hf'.
  set (f' := truncate f (partition_pos xf + roundup_64 m PAGE_SIZE)) in *.
  assert (Hle : f_size f <= partition_pos xf).
  { destruct Hcase as [(_ & _ & _ & ->) | (_ & _ & -> & ->)].
    - pose proof (roundup_64_spec (f_size f) PAGE_SIZE HP). lia.
    - cbn [f_size empty_file]. lia. }
  assert (Hsize : f_size f' = partition_pos xf + roundup_64 m PAGE_SIZE)
    by reflexivity.
  assert (Hzero : forall o, f_size f <= o -> f_byte f' o = x00).
  { intros o Ho. unfold f'. cbn [truncate f_byte].
    destruct (Z.ltb_spec o
      (Z.min (partition_pos xf + roundup_64 m PAGE_SIZE) (f_size f)));
      [lia | reflexivity]. }
  unfold xfile_load.
  destruct (Z.ltb_spec INT_MAX count); [lia |].
  rewrite capacity_test_rejects
    by (rewrite ?Hmax; unfold LLONG_MAX; lia).
  rewrite Hmax. destruct (Z.ltb_spec m (pos + count)); [lia |].
  unfold sys_pread. rewrite Hf'. rewrite Hflt. unfold pread.
  destruct (Z.ltb_spec (pos + partition_pos xf) 0); [lia |].
  replace (Z.max 0 (Z.min count (f_size f' - (pos + partition_pos xf))))
    with count by lia.
  rewrite read_bytes_length.
  destruct (Z.eqb_spec (Z.of_nat (Z.to_nat count)) count); [| lia].
  cbn [negb]. f_equal. apply read_bytes_zero.
  intros o Ho. apply Hzero. lia.
Qed.

Lemma xfile_fcb_create_error (K : faults) (w w' : world) (error a : Z) :
  xfile_fcb_create K w = (error, a, w') ->
  error <> 0 ->
  error < 0 /\
  (w' = w \/
   exists d, files w !! d = None /\
     w' = sys_close d (set_files (<[d := empty_file]> (files w)) w)).
Proof.
  unfold xfile_fcb_create, xfile_create_fd.
  destruct (flt_create_fd K) as [e |].
  - intros [= <- _ <-] _. split; [lia | now left].
  - destruct (flt_malloc K).
    + intros [= <- _ <-] _. split; [unfold ENOMEM; lia |].
      right. exists (fresh (dom (files w))). split; [| reflexivity].
      apply not_elem_of_dom. apply is_fresh.
    + intros [= <- _ _] Hne. contradiction.
Qed.

Lemma sys_close_new_fd (w : world) (d : Z) :
  files w !! d = None ->
  let w' := sys_close d (set_files (<[d := empty_file]> (files w)) w) in
  files w' = files w /\ fcbs w' = fcbs w /\ fcb_list w' = fcb_list w /\
  maps w' = maps w /\ allocated w' = allocated w /\
  closed w' = d :: closed w.
Proof.
  intros H. cbn [sys_close set_files files fcbs fcb_list maps allocated closed].
  rewrite delete_insert_id by assumption. repeat split.
Qed.

Lemma nothing_leaked_refl (w : world) : nothing_leaked w w.
Proof. unfold nothing_leaked. repeat split. now left. Qed.

Lemma xfile_fcb_create_nothing_leaked (K : faults) (w w' : world)
  (error a : Z) :
  xfile_fcb_create K w = (error, a, w') -> error <> 0 ->
  error < 0 /\ nothing_leaked w w'.
Proof.
  intros H Hne. apply xfile_fcb_create_error in H as [Hlt Hw]; [| assumption].
  split; [assumption |].
  destruct Hw as [-> | (d & Hd & ->)]; [apply nothing_leaked_refl |].
  destruct (sys_close_new_fd w d Hd) as (H1 & H2 & H3 & H4 & H5 & H6).
  unfold nothing_leaked. repeat (split; [assumption |]).
  right. eauto.
Qed.

Lemma xfile_fcb_find_error (K : faults) (w w' : world) (m error pos a : Z) :
  pool_wf w ->
  xfile_fcb_find K w m = (error, pos, a, w') -> error <> 0 ->
  error < 0 /\ nothing_leaked w w'.
Proof.
  intros Hwf H Hne. unfold xfile_fcb_find in H.
  destruct (m =? 0).
  - destruct (xfile_fcb_create K w) as [[error1 a1] w1] eqn:Hcr.
    injection H as -> _ _ ->.
    eapply xfile_fcb_create_nothing_leaked; eassumption.
  - set (M := u64 (roundup_64 m PAGE_SIZE)) in *.
    destruct (fcb_scan K (fcb_list w) M w) as [[[pos1 a1] |] w1] eqn:Hs.
    + injection H as H0. congruence.
    + apply fcb_scan_None in Hs as [-> _].
      destruct (xfile_fcb_create K w) as [[error1 a1] w2] eqn:Hcr.
      destruct (Z.eqb_spec error1 0) as [-> | Hne1]; cbn [negb] in H.
      * apply xfile_fcb_create_cases in Hcr
          as [(_ & Hnone & d & Hd & ->) | (Hbad & _)]; [| contradiction].
        set (w2 := set_fcbs _ (set_files _ w)) in H.
        assert (Hd2 : default (-1) (fd <$> fcbs w2 !! a1) = d).
        { unfold w2. cbn [set_fcbs set_files fcbs].
          now rewrite lookup_insert_eq. }
        rewrite Hd2 in H.
        pose proof (sys_ftruncate_errno K w2 d (s64 M)) as He.
        destruct (sys_ftruncate K w2 d (s64 M)) as [[u | e] w3] eqn:Ht.
        { injection H as H0. congruence. }
        apply sys_ftruncate_err_same in Ht as ->.
        injection H as <- _ _ <-. split; [lia |].
        assert (Hpriv : fcb_is_private w2 a1 = true).
        { apply fcb_is_private_true. unfold w2.
          cbn [set_fcbs set_files fcb_list]. intros Hin.
          apply Hwf in Hin as [c Hc]. congruence. }
        unfold xfile_fcb_irele.
        assert (Hc2 : fcbs w2 !! a1 = Some {| fd := d; refcount := 1 |}).
        { unfold w2. cbn [set_fcbs set_files fcbs].
          now rewrite lookup_insert_eq. }
        rewrite Hc2, Hpriv. cbn [fd].
        unfold nothing_leaked, free_fcb, w2.
        cbn [sys_close set_fcbs set_files files fcbs fcb_list maps
             allocated closed].
        rewrite !delete_insert_id by assumption.
        repeat (split; [reflexivity |]). right. eauto.
      * injection H as <- _ _ <-.
        eapply xfile_fcb_create_nothing_leaked; eassumption.
Qed.

(** X7.  [xfile_create] hands out a partition exactly when it
    returns 0, and a failed call returns a negative errno and leaves
    nothing behind: files, blocks, list, mappings and buffer count are as
    before, and a descriptor it had opened has been closed again. *)
Theorem xfile_create_failure_clean (K : faults) (w w' : world) (m error : Z)
  (oxf : option xfile) :
  pool_wf w ->
  xfile_create K w m = (error, oxf, w') ->
  (error = 0 <-> is_Some oxf) /\
  (error <> 0 -> error < 0 /\ nothing_leaked w w').
Proof.
  intros Hwf H. unfold xfile_create in H.
  destruct (flt_kmalloc K).
  - injection H as <- <- <-. split.
    + split; [unfold ENOMEM; lia | intros [x Hx]; discriminate].
    + intros _. split; [unfold ENOMEM; lia | apply nothing_leaked_refl].
  - destruct (xfile_fcb_find K w m) as [[[error1 pos] a] w1] eqn:Hf.
    destruct (Z.eqb_spec error1 0) as [-> | Hne]; cbn [negb] in H.
    + injection H as <- <- <-. split; [| congruence].
      split; [eauto | reflexivity].
    + injection H as <- <- <-. split.
      * split; [congruence | intros [x Hx]; discriminate].
      * intros _. eapply xfile_fcb_find_error; eassumption.
Qed.

(** ** Giving a partition back *)

(** X8.  What releasing a partition does to the file of a block that
    others still use.  The code compares [st_size], a signed [off_t],
    with [pos + len], an unsigned 64-bit sum, as unsigned values: the
    file is set to length [pos] by ftruncate exactly when [len > 0],
    fstat goes through, [st_size] and [pos + len] agree modulo [2 ^ 64],
    [pos] is not negative and ftruncate goes through; in every other case
    the file is left as it is.  No other file is touched. *)
Theorem xfile_fcb_irele_tail (K : faults) (w : world) (a pos len : Z)
  (c : xfile_fcb) (f : file) :
  fcbs w !! a = Some c -> a ∈ fcb_list w -> 1 < refcount c < 2 ^ 32 ->
  files w !! fd c = Some f ->
  let w' := xfile_fcb_irele K w a pos len in
  (0 < len -> u64 (f_size f) = u64 (pos + len) -> 0 <= pos ->
   flt_fstat K (fd c) = None -> flt_ftruncate K (fd c) pos = None ->
   files w' !! fd c = Some (truncate f pos)) /\
  (len <= 0 \/ u64 (f_size f) <> u64 (pos + len) \/ pos < 0 \/
   flt_fstat K (fd c) <> None \/ flt_ftruncate K (fd c) pos <> None ->
   files w' !! fd c = Some f) /\
  (forall d', d' <> fd c -> files w' !! d' = files w !! d').
Proof.
  intros Hc Hin Hrc Hf. cbn zeta.
  unfold xfile_fcb_irele. rewrite Hc.
  rewrite fcb_is_private_false by assumption.
  rewrite u32_small by lia.
  destruct (Z.eqb_spec (refcount c - 1) 0); [lia |].
  set (w1 := set_fcbs _ w).
  assert (Hf1 : files w1 !! fd c = Some f) by exact Hf.
  destruct (Z.ltb_spec 0 len) as [Hl | Hl].
  2:{ split; [lia |]. split; [intros _; exact Hf | reflexivity]. }
  unfold sys_fstat. rewrite Hf1. unfold fstat.
  destruct (flt_fstat K (fd c)) as [e |].
  { split; [discriminate |]. split; [intros _; exact Hf | reflexivity]. }
  cbn [st_size].
  destruct (Z.eqb_spec (u64 (f_size f)) (u64 (pos + len))) as [He | He].
  2:{ split; [contradiction |]. split; [intros _; exact Hf | reflexivity]. }
  unfold sys_ftruncate. rewrite Hf1. unfold ftruncate.
  destruct (Z.ltb_spec pos 0) as [Hneg | Hnn]; cbn [snd set_files files].
  { split; [lia |]. split.
    - intros _. now rewrite lookup_insert_eq.
    - intros d' Hd'. now rewrite lookup_insert_ne by congruence. }
  destruct (flt_ftruncate K (fd c) pos) as [e |];
    cbn [snd set_files files].
  - split; [discriminate |]. split.
    + intros _. now rewrite lookup_insert_eq.
    + intros d' Hd'. now rewrite lookup_insert_ne by congruence.
  - split; [intros; now rewrite lookup_insert_eq |]. split.
    + intros [? | [? | [? | [? | ?]]]]; try lia; contradiction.
    + intros d' Hd'. now rewrite lookup_insert_ne by congruence.
Qed.

Lemma list_del_app_fresh (a : Z) (l : list Z) :
  a ∉ l -> list_del a (l ++ [a]) = l.
Proof.
  intros Ha. unfold list_del. rewrite filter_app.
  rewrite filter_cons_False by (intros H; now apply H).
  rewrite filter_nil, app_nil_r.
  induction l as [| b l IH]; [reflexivity |].
  apply not_elem_of_cons in Ha as [Hne Hl].
  rewrite filter_cons_True by congruence. now rewrite IH.
Qed.

Lemma files_dom_same (m m' : gmap Z file) (d : Z) :
  is_Some (m !! d) -> is_Some (m' !! d) ->
  (forall d', d' <> d -> m' !! d' = m !! d') ->
  dom m' = dom m.
Proof.
  intros H1 H2 Ho. apply set_eq. intros x. rewrite !elem_of_dom.
  destruct (decide (x = d)) as [-> | Hne]; [tauto |].
  now rewrite Ho.
Qed.

Lemma files_dom_closed (m m' : gmap Z file) (d : Z) :
  m !! d = None ->
  (forall d', d' <> d -> m' !! d' = m !! d') ->
  dom (delete d m') = dom m.
Proof.
  intros H1 Ho. apply set_eq. intros x. rewrite !elem_of_dom.
  destruct (decide (x = d)) as [-> | Hne].
  - rewrite lookup_delete_eq, H1. split; intros [y Hy]; discriminate.
  - rewrite lookup_delete_ne by congruence. now rewrite Ho.
Qed.

(** An acquisition undone by a release, at the level of control blocks. *)
Lemma fcb_find_irele_roundtrip (K K' : faults) (w w1 : world)
  (m pos a pos' len' : Z) :
  pool_wf w ->
  (forall b c, fcbs w !! b = Some c -> 1 <= refcount c < 2 ^ 32 - 1) ->
  xfile_fcb_find K w m = (0, pos, a, w1) ->
  let w2 := xfile_fcb_irele K' w1 a pos' len' in
  fcbs w2 = fcbs w /\ fcb_list w2 = fcb_list w /\
  dom (files w2) = dom (files w).
Proof.
  intros Hwf Hrc H. cbn zeta.
  destruct (Z.eq_dec m 0) as [-> | Hm].
  - unfold xfile_fcb_find in H. cbn [Z.eqb] in H.
    destruct (xfile_fcb_create K w) as [[error a1] w2] eqn:Hcr.
    injection H as -> _ -> ->.
    apply xfile_fcb_create_cases in Hcr
      as [(_ & Hnone & d & Hd & ->) | (Hbad & _)]; [| contradiction].
    unfold xfile_fcb_irele. cbn [set_fcbs set_files fcbs].
    rewrite lookup_insert_eq.
    rewrite fcb_is_private_true.
    2:{ cbn [set_fcbs set_files fcb_list]. intros Hin.
        apply Hwf in Hin as [c Hc]. congruence. }
    cbn [free_fcb sys_close set_fcbs set_files fcbs files fcb_list fd].
    rewrite !delete_insert_id by assumption. auto.
  - pose proof H as Hb. apply xfile_fcb_find_bounded in Hb; [| assumption].
    apply xfile_fcb_find_carve in H; [| assumption]. cbn zeta in H.
    destruct H as (d & rc & f & Hc' & Hcase & _ & Hf' & Hother).
    destruct Hb as [(Hin & c & Hc & Hfcbs & Hlist & _) |
                    (Hnone & _ & d0 & Hfcbs & Hlist & _)].
    + destruct Hcase as [(_ & _ & Hf & _) | (Hn & _)]; [| congruence].
      assert (Hcd : {| fd := d; refcount := rc |}
                    = {| fd := fd c; refcount := u32 (refcount c + 1) |}).
      { rewrite Hfcbs, lookup_insert_eq in Hc'. congruence. }
      injection Hcd as -> ->.
      specialize (Hrc _ _ Hc).
      rewrite u32_small in * by lia.
      destruct (xfile_fcb_irele_keeps K' w1 (a) pos'
                  len' _ Hc') as (H1 & H2 & _ & H4).
      { rewrite Hlist. exact Hin. }
      { cbn [refcount]. lia. }
      rewrite H1, H2, H4. cbn [fd refcount].
      rewrite Hfcbs, insert_insert_eq.
      replace (refcount c + 1 - 1) with (refcount c) by lia.
      split.
      { apply insert_id. rewrite Hc. now destruct c. }
      split; [assumption |].
      apply (files_dom_same _ _ (fd c)); [eauto | eauto | assumption].
    + destruct Hcase as [(Hin & _) | (_ & Hd & _ & _)].
      { apply Hwf in Hin as [c Hc]. congruence. }
      assert (Hd0 : d0 = d /\ rc = 1).
      { rewrite Hfcbs, lookup_insert_eq in Hc'. split; congruence. }
      destruct Hd0 as [-> ->].
      rewrite (xfile_fcb_irele_last K' w1 (a) pos'
                 len' _ Hc').
      2:{ rewrite Hlist. apply elem_of_app. right. apply list_elem_of_here. }
      2:{ reflexivity. }
      cbn [free_fcb sys_close set_fcbs set_fcb_list fcbs fcb_list files fd].
      rewrite Hfcbs, Hlist.
      rewrite delete_insert_id by assumption.
      rewrite list_del_app_fresh.
      2:{ intros Hin. apply Hwf in Hin as [c Hc]. congruence. }
      split; [reflexivity |]. split; [reflexivity |].
      now apply files_dom_closed.
Qed.

(** X9.  Creating a partition and destroying it again puts the pool
    back: the blocks with their reference counts, the list in its order,
    and the set of open descriptors are as before the creation, for a
    private partition, for one carved from a listed block, and for one on
    a new listed block alike. *)
Theorem create_destroy_roundtrip (K K' : faults) (w w1 : world) (m : Z)
  (xf : xfile) :
  pool_wf w ->
  (forall b c, fcbs w !! b = Some c -> 1 <= refcount c < 2 ^ 32 - 1) ->
  xfile_create K w m = (0, Some xf, w1) ->
  let w2 := xfile_destroy K' w1 xf in
  fcbs w2 = fcbs w /\ fcb_list w2 = fcb_list w /\
  dom (files w2) = dom (files w).
Proof.
  intros Hwf Hrc H. apply xfile_create_ok in H as [H _].
  unfold xfile_destroy. eapply fcb_find_irele_roundtrip; eassumption.
Qed.

(** ** Counting bytes under any kernel *)





(** X11.  In [xfile_bytes] of an unbounded partition a failing
    fstat is not reported as an error: [-errno] is returned through the
    unsigned result type, that is, as the byte count [2 ^ 64 - errno]. *)
Theorem xfile_bytes_fstat_error (K : faults) (w : world) (xf : xfile)
  (e : Z) :
  maxbytes xf <= 0 ->
  sys_fstat K w (xf_fd w xf) = SysErr e ->
  e < 2 ^ 64 ->
  0 < e /\ xfile_bytes K w xf = Some (2 ^ 64 - e).
Proof.
  intros Hm He Hlt.
  assert (Hpos : 0 < e).
  { unfold sys_fstat in He. destruct (files w !! xf_fd w xf).
    - unfold fstat in He. destruct (flt_fstat K (xf_fd w xf));
        [| discriminate]. injection He as <-. lia.
    - injection He as <-. unfold EBADF. lia. }
  split; [assumption |].
  unfold xfile_bytes. destruct (Z.ltb_spec 0 (maxbytes xf)); [lia |].
  rewrite He. f_equal. unfold u64.
  rewrite <- (Z.mod_add _ 1) by lia.
  rewrite Z.mod_small by lia. lia.
Qed.

(** ** Buffers of the memory-backed cache *)

Lemma xmbuf_map_page_cases (K : faults) (w : world) (bp : xfs_buf) :
  let xf := bt_xfile (b_target bp) in
  (exists e, 0 < e /\ xmbuf_map_page K w bp = (- e, bp, w)) \/
  (exists p,
     maps w !! p = None /\
     is_Some (files w !! xf_fd w xf) /\
     xmbuf_map_page K w bp
     = (0,
        {| b_cache_key := b_cache_key bp; b_length := b_length bp;
           b_target := b_target bp;
           b_flags := Z.lor (b_flags bp)
                            (Z.lor LIBXFS_B_UPTODATE LIBXFS_B_UNCHECKED);
           b_addr := Some p; b_error := 0; b_nmaps := b_nmaps bp;
           bm_bn := bm_bn bp; bm_len := bm_len bp; b_ops := b_ops bp |},
        set_maps
          (<[p := {| map_fd := xf_fd w xf;
                     map_off := partition_pos xf + BBTOB (xfs_buf_daddr bp);
                     map_len := u32 (BBTOB (b_length bp));
                     map_prot := Z.lor PROT_READ PROT_WRITE |}]> (maps w))
          w)).
Proof.
  cbn zeta. unfold xmbuf_map_page.
  destruct (sys_mmap K w (u32 (BBTOB (b_length bp))) (Z.lor PROT_READ PROT_WRITE)
              (xf_fd w (bt_xfile (b_target bp)))
              (partition_pos (bt_xfile (b_target bp))
               + BBTOB (xfs_buf_daddr bp))) as [[p | e] w1] eqn:Hm.
  - right. apply sys_mmap_ok in Hm as (Hnone & -> & Hfile).
    exists p. auto.
  - left. pose proof (sys_mmap_err _ _ _ _ _ _ _ _ Hm) as ->.
    exists e. split; [| reflexivity].
    unfold sys_mmap in Hm.
    destruct (files w !! _); [| injection Hm as <-; unfold EBADF; lia].
    destruct (_ || _); [injection Hm as <-; unfold EINVAL; lia |].
    destruct (flt_mmap _ _ _ _); [injection Hm as <-; lia | discriminate].
Qed.

(** X12.  Mapping a buffer either fails with a negative errno and
    changes neither the buffer nor the world, or returns 0 with [b_addr]
    on a region that was not mapped before, [b_error] cleared, both
    LIBXFS_B_UPTODATE and LIBXFS_B_UNCHECKED set and every flag that was
    set still set; unmapping it then gives back the address space as it
    was and clears [b_addr]. *)
Theorem xmbuf_map_unmap_page (K : faults) (w : world) (bp : xfs_buf) :
  let '(error, bp', w') := xmbuf_map_page K w bp in
  (error < 0 /\ bp' = bp /\ w' = w) \/
  (error = 0 /\
   (exists p, b_addr bp' = Some p /\ maps w !! p = None /\
              is_Some (maps w' !! p)) /\
   b_error bp' = 0 /\
   Z.land (b_flags bp') (Z.lor LIBXFS_B_UPTODATE LIBXFS_B_UNCHECKED)
   = Z.lor LIBXFS_B_UPTODATE LIBXFS_B_UNCHECKED /\
   Z.land (b_flags bp') (b_flags bp) = b_flags bp /\
   snd (xmbuf_unmap_page w' bp') = w /\
   b_addr (fst (xmbuf_unmap_page w' bp')) = None).
Proof.
  destruct (xmbuf_map_page_cases K w bp)
    as [(e & He & ->) | (p & Hnone & _ & ->)].
  - left. split; [lia | auto].
  - right. split; [reflexivity |].
    cbn [b_addr b_error b_flags xmbuf_unmap_page fst snd sys_munmap
         set_maps maps].
    split; [exists p; rewrite lookup_insert_eq; eauto |].
    split; [reflexivity |].
    split; [| split; [| split; [| reflexivity]]].
    + apply Z.bits_inj'. intros i _.
      rewrite Z.land_spec, !Z.lor_spec.
      destruct (Z.testbit (b_flags bp) i),
               (Z.testbit LIBXFS_B_UPTODATE i),
               (Z.testbit LIBXFS_B_UNCHECKED i); reflexivity.
    + apply Z.bits_inj'. intros i _.
      rewrite Z.land_spec, !Z.lor_spec.
      destruct (Z.testbit (b_flags bp) i),
               (Z.testbit LIBXFS_B_UPTODATE i),
               (Z.testbit LIBXFS_B_UNCHECKED i); reflexivity.
    + rewrite delete_insert_id by assumption. now destruct w.
Qed.

(** X13.  Allocation and release of a cache node balance: releasing
    the buffer that [xmbuf_cache_alloc] returned gives back exactly the
    world before the allocation, mapping and object count included. *)
Theorem xmbuf_cache_alloc_relse (K : faults) (w w' : world)
  (key : xfs_bufkey) (bp : xfs_buf) :
  xmbuf_cache_alloc K w key = (Some bp, w') ->
  xmbuf_cache_relse w' bp = w.
Proof.
  unfold xmbuf_cache_alloc. destruct (flt_zalloc K); [discriminate |].
  set (w1 := set_allocated (allocated w + 1) w).
  set (bp0 := {| b_cache_key := blkno key; b_length := bblen key;
                 b_target := buftarg key; b_flags := 0; b_addr := None;
                 b_error := 0; b_nmaps := 1; bm_bn := blkno key;
                 bm_len := bblen key; b_ops := None |}).
  destruct (xmbuf_map_page_cases K w1 bp0)
    as [(e & He & ->) | (p & Hnone & _ & ->)].
  - destruct (Z.eqb_spec (- e) 0); [lia |]. discriminate.
  - cbn [Z.eqb negb]. intros [= <- <-].
    unfold xmbuf_cache_relse, kmem_cache_free.
    cbn [xmbuf_unmap_page snd b_addr sys_munmap set_maps maps
         set_allocated allocated files fcbs fcb_list closed].
    rewrite delete_insert_id by assumption.
    unfold w1. cbn [set_allocated maps allocated].
    replace (allocated w + 1 - 1) with (allocated w) by lia.
    now destruct w.
Qed.

Lemma xmbuf_cache_bulkrelse_snoc (w : world) (l : list xfs_buf)
  (bp : xfs_buf) :
  xmbuf_cache_bulkrelse w (l ++ [bp])
  = (fst (xmbuf_cache_bulkrelse w l) + 1,
     xmbuf_cache_relse (snd (xmbuf_cache_bulkrelse w l)) bp).
Proof.
  unfold xmbuf_cache_bulkrelse. rewrite fold_left_app. cbn [fold_left].
  now destruct (fold_left _ l (0, w)).
Qed.

Lemma xmbuf_cache_relse_effect (w : world) (bp : xfs_buf) :
  let w' := xmbuf_cache_relse w bp in
  allocated w' = allocated w - 1 /\ files w' = files w /\
  fcbs w' = fcbs w /\ fcb_list w' = fcb_list w /\
  (forall p, b_addr bp = Some p -> maps w' !! p = None) /\
  (forall p, b_addr bp <> Some p -> maps w' !! p = maps w !! p).
Proof.
  cbn zeta. unfold xmbuf_cache_relse, kmem_cache_free.
  cbn [xmbuf_unmap_page snd]. unfold sys_munmap.
  destruct (b_addr bp) as [q |];
    cbn [set_allocated set_maps allocated files fcbs fcb_list maps].
  - repeat (split; [reflexivity |]). split.
    + intros p [= <-]. apply lookup_delete_eq.
    + intros p Hp. apply lookup_delete_ne. congruence.
  - repeat (split; [reflexivity |]). split; [discriminate | reflexivity].
Qed.

(** X14.  Releasing a list of buffers in bulk returns the number
    of buffers on the list, takes that many objects off the cache count,
    unmaps the region of every buffer on the list and no other region, and
    leaves files and blocks alone. *)
Theorem xmbuf_cache_bulkrelse_spec (w : world) (l : list xfs_buf) :
  let w' := snd (xmbuf_cache_bulkrelse w l) in
  fst (xmbuf_cache_bulkrelse w l) = Z.of_nat (length l) /\
  allocated w' = allocated w - Z.of_nat (length l) /\
  files w' = files w /\ fcbs w' = fcbs w /\ fcb_list w' = fcb_list w /\
  (forall bp p, bp ∈ l -> b_addr bp = Some p -> maps w' !! p = None) /\
  (forall p, (forall bp, bp ∈ l -> b_addr bp <> Some p) ->
     maps w' !! p = maps w !! p).
Proof.
  cbn zeta. induction l as [| bp l IH] using rev_ind.
  - cbn. repeat (split; [reflexivity || lia |]). split.
    + intros bp p Hin. apply elem_of_nil in Hin. contradiction.
    + reflexivity.
  - rewrite xmbuf_cache_bulkrelse_snoc. cbn [fst snd].
    destruct IH as (Hn & Ha & Hf & Hc & Hl & Hun & Hkeep).
    destruct (xmbuf_cache_relse_effect (snd (xmbuf_cache_bulkrelse w l)) bp)
      as (Ha' & Hf' & Hc' & Hl' & Hun' & Hkeep').
    rewrite length_app. cbn [length].
    split; [lia |]. split; [lia |].
    split; [congruence |]. split; [congruence |]. split; [congruence |].
    split.
    + intros bp' p Hin Hp. apply elem_of_app in Hin as [Hin | Hin].
      * destruct (decide (b_addr bp = Some p)) as [He | Hne].
        -- now apply Hun'.
        -- rewrite Hkeep' by assumption. eapply Hun; eassumption.
      * apply list_elem_of_singleton in Hin as ->. now apply Hun'.
    + intros p Hp. rewrite Hkeep'.
      * apply Hkeep. intros bp' Hin. apply Hp. apply elem_of_app. now left.
      * apply Hp. apply elem_of_app. right. apply list_elem_of_here.
Qed.

Lemma BBTOB_mul (x : Z) : 0 <= BBSHIFT -> BBTOB x = x * 2 ^ BBSHIFT.
Proof. intros H. unfold BBTOB. now apply Z.shiftl_mul_pow2. Qed.

Lemma shiftr_mul_le (m : Z) :
  0 <= BBSHIFT -> Z.shiftr m BBSHIFT * 2 ^ BBSHIFT <= m.
Proof.
  intros H. rewrite Z.shiftr_div_pow2 by assumption.
  assert (0 < 2 ^ BBSHIFT) by (apply Z.pow_pos_nonneg; lia).
  pose proof (Z.mul_div_le m (2 ^ BBSHIFT) ltac:(lia)). lia.
Qed.

(** X15.  A block address that [xmbuf_verify_daddr] accepts names
    a basic block that lies wholly inside the partition; and a target
    over an unbounded partition ([maxbytes] 0) accepts no address at
    all. *)
Theorem xmbuf_verify_daddr_inside (btp : xfs_buftarg) (daddr : Z) :
  (0 <= BBSHIFT -> 0 <= daddr < 2 ^ 63 ->
   xmbuf_verify_daddr btp daddr = true ->
   0 <= BBTOB daddr /\
   BBTOB daddr + BBTOB 1 <= maxbytes (bt_xfile btp)) /\
  (maxbytes (bt_xfile btp) = 0 -> xmbuf_verify_daddr btp daddr = false).
Proof.
  unfold xmbuf_verify_daddr. split.
  - intros Hs Hd Hv. rewrite u64_small in Hv by lia.
    apply Z.ltb_lt in Hv. rewrite !BBTOB_mul by assumption.
    assert (0 < 2 ^ BBSHIFT) by (apply Z.pow_pos_nonneg; lia).
    pose proof (shiftr_mul_le (maxbytes (bt_xfile btp)) Hs).
    split; nia.
  - intros ->. rewrite Z.shiftr_0_l. apply Z.ltb_ge.
    unfold u64. apply Z.mod_pos_bound. lia.
Qed.



(** X17.  [xmbuf_libinit] always ends with a power-of-two block
    size and its shift: [XMBUF_BLOCKSIZE = 2 ^ XMBUF_BLOCKSHIFT], the size
    being the page size that sysconf reports when that is a power of two
    and 4096 (shift 12) when sysconf fails or reports anything else. *)
Theorem xmbuf_libinit_spec (is_power_of_2 : Z -> bool)
  (libxfs_highbit32 : Z -> Z) (sysconf_pagesize : Z) :
  (forall n, is_power_of_2 n = true -> exists k, 0 <= k /\ n = 2 ^ k) ->
  (forall k, 0 <= k < 32 -> libxfs_highbit32 (2 ^ k) = k) ->
  sysconf_pagesize < 2 ^ 32 ->
  let '(blocksize, blockshift) :=
    xmbuf_libinit is_power_of_2 libxfs_highbit32 sysconf_pagesize in
  blocksize = 2 ^ blockshift /\ 0 <= blockshift < 32 /\
  (sysconf_pagesize < 0 \/ is_power_of_2 sysconf_pagesize = false ->
   blocksize = 4096 /\ blockshift = 12) /\
  (0 <= sysconf_pagesize -> is_power_of_2 sysconf_pagesize = true ->
   blocksize = sysconf_pagesize).
Proof.
  intros Hpow Hhb Hlt. unfold xmbuf_libinit.
  destruct (Z.ltb_spec sysconf_pagesize 0) as [Hneg | Hnn]; cbn [orb].
  - change (u32 4096) with (2 ^ 12). rewrite Hhb by lia.
    change (u32 12) with 12. split; [reflexivity |]. split; [lia |].
    split; [auto | lia].
  - destruct (is_power_of_2 sysconf_pagesize) eqn:Hp; cbn [negb].
    + destruct (Hpow _ Hp) as (k & Hk & ->).
      assert (k < 32).
      { apply (Z.pow_lt_mono_r_iff 2); lia. }
      rewrite (u32_small (2 ^ k)) by lia. rewrite Hhb by lia.
      rewrite u32_small by lia. split; [reflexivity |]. split; [lia |].
      split; [intros [? | ?]; [lia | discriminate] | reflexivity].
    + change (u32 4096) with (2 ^ 12). rewrite Hhb by lia.
      change (u32 12) with 12. split; [reflexivity |]. split; [lia |].
      split; [auto | discriminate].
Qed.

(** ** Buffer targets *)

Lemma xfile_create_error (K : faults) (w w' : world) (m error : Z)
  (oxf : option xfile) :
  pool_wf w ->
  xfile_create K w m = (error, oxf, w') -> error <> 0 ->
  error < 0 /\ oxf = None /\ nothing_leaked w w'.
Proof.
  intros Hwf H Hne. unfold xfile_create in H.
  destruct (flt_kmalloc K).
  - injection H as <- <- <-.
    split; [unfold ENOMEM; lia |]. split; [reflexivity |].
    apply nothing_leaked_refl.
  - destruct (xfile_fcb_find K w m) as [[[error1 pos] a] w1] eqn:Hf.
    destruct (Z.eqb_spec error1 0) as [-> | Hne1]; cbn [negb] in H;
      injection H as <- <- <-; [contradiction |].
    destruct (xfile_fcb_find_error K w w1 m error1 pos a Hwf Hf Hne1).
    auto.
Qed.

Lemma xfile_create_zero (K : faults) (w w' : world) (m : Z)
  (oxf : option xfile) :
  xfile_create K w m = (0, oxf, w') -> is_Some oxf.
Proof.
  unfold xfile_create. destruct (flt_kmalloc K); [intros E; absurd_ret E |].
  destruct (xfile_fcb_find K w m) as [[[error1 pos] a] w1].
  destruct (Z.eqb_spec error1 0) as [-> | Hne]; cbn [negb].
  - intros [= <- _]. eauto.
  - intros E. inversion E. congruence.
Qed.

(** X18.  [xmbuf_alloc] hands out a target exactly when it returns
    0; when it fails, at whichever step, the partition it may have
    created is given back, so that blocks, list and open descriptors are
    as before; and its return value is positive only when
    pthread_mutex_init failed, whose error number is passed on as it is,
    every other failure being a negative errno. *)
Theorem xmbuf_alloc_failure_clean (T : target_faults) (K : faults)
  (w w' : world) (mp m error : Z) (obtp : option xmbuf_target) :
  pool_wf w ->
  (forall b c, fcbs w !! b = Some c -> 1 <= refcount c < 2 ^ 32 - 1) ->
  xmbuf_alloc T K w mp m = (error, obtp, w') ->
  (error = 0 <-> is_Some obtp) /\
  (error <> 0 ->
   fcbs w' = fcbs w /\ fcb_list w' = fcb_list w /\
   dom (files w') = dom (files w)) /\
  (0 < error -> exists e, flt_mutex_init T = Some e /\ error = Z.pos e).
Proof.
  intros Hwf Hrc H. unfold xmbuf_alloc in H.
  assert (Hnone : forall x : xmbuf_target, is_Some (@None xmbuf_target) -> x = x)
    by reflexivity.
  destruct (flt_kzalloc T).
  { injection H as <- <- <-. unfold ENOMEM.
    split; [split; [lia | intros [x Hx]; discriminate] |].
    split; [auto | lia]. }
  destruct (xfile_create K w m) as [[error1 oxf] w1] eqn:Hc.
  destruct (Z.eqb_spec error1 0) as [-> | Hne]; cbn [negb] in H.
  2:{ injection H as <- <- <-.
      destruct (xfile_create_error K w w1 m error1 oxf Hwf Hc Hne)
        as (Hlt & _ & Hf & Hb & Hl & _).
      split; [split; [lia | intros [x Hx]; discriminate] |].
      split; [intros _; rewrite Hf; auto | lia]. }
  destruct (xfile_create_zero K w w1 m oxf Hc) as [xf ->].
  apply xfile_create_ok in Hc as [Hc _].
  pose proof (fcb_find_irele_roundtrip K K w w1 m (partition_pos xf) (fcb xf)
                (partition_pos xf) (maxbytes xf) Hwf Hrc Hc) as Hrt.
  cbn zeta in Hrt. fold (xfile_destroy K w1 xf) in Hrt.
  destruct (cache_init_result T) as [cache |].
  2:{ injection H as <- <- <-. unfold ENOMEM.
      split; [split; [lia | intros [x Hx]; discriminate] |].
      split; [auto | lia]. }
  destruct (flt_mutex_init T) as [e |].
  - injection H as <- <- <-.
    split; [split; [lia | intros [x Hx]; discriminate] |].
    split; [auto | eauto].
  - injection H as <- <- <-.
    split; [split; [eauto | reflexivity] |].
    split; [congruence | lia].
Qed.

(** X19.  A target that [xmbuf_alloc] returns records the mount it
    was given, has no block device ([bt_bdev] is [(dev_t)-1], [bt_bdev_fd]
    is -1) and sits on a partition created with the [maxpos] asked for;
    freeing it with [xmbuf_free] puts blocks, list and open descriptors
    back as they were before the allocation. *)
Theorem xmbuf_alloc_free_roundtrip (T : target_faults) (K K' : faults)
  (w w1 : world) (mp m : Z) (btp : xmbuf_target) :
  pool_wf w ->
  (forall b c, fcbs w !! b = Some c -> 1 <= refcount c < 2 ^ 32 - 1) ->
  xmbuf_alloc T K w mp m = (0, Some btp, w1) ->
  bt_mount btp = mp /\ bt_bdev btp = 2 ^ 64 - 1 /\ bt_bdev_fd btp = - 1 /\
  maxbytes (bt_xfile (bt_target btp)) = m /\
  xfile_create K w m = (0, Some (bt_xfile (bt_target btp)), w1) /\
  let w2 := xmbuf_free K' w1 btp in
  fcbs w2 = fcbs w /\ fcb_list w2 = fcb_list w /\
  dom (files w2) = dom (files w).
Proof.
  intros Hwf Hrc H. unfold xmbuf_alloc in H.
  destruct (flt_kzalloc T); [absurd_ret H |].
  destruct (xfile_create K w m) as [[error1 oxf] w1'] eqn:Hc.
  destruct (Z.eqb_spec error1 0) as [-> | Hne]; cbn [negb] in H.
  2:{ injection H as H0. contradiction. }
  destruct (xfile_create_zero K w w1' m oxf Hc) as [xf ->].
  destruct (cache_init_result T) as [cache |]; [| absurd_ret H].
  destruct (flt_mutex_init T) as [e |]; [absurd_ret H |].
  injection H as <- <-.
  cbn [bt_mount bt_bdev bt_bdev_fd bt_target bt_xfile xmbuf_free].
  pose proof Hc as Hc'. apply xfile_create_ok in Hc' as [Hf Hmax].
  split; [reflexivity |]. split; [reflexivity |]. split; [reflexivity |].
  split; [assumption |]. split; [reflexivity |].
  unfold xfile_destroy. eapply fcb_find_irele_roundtrip; eassumption.
Qed.

(** ** The pool stays in order *)

Lemma pool_inv_same (w w' : world) :
  files w' = files w -> fcbs w' = fcbs w -> fcb_list w' = fcb_list w ->
  pool_inv w -> pool_inv w'.
Proof.
  unfold pool_inv, pool_wf. intros -> -> ->. auto.
Qed.

Lemma pool_inv_update (w w' : world) (a : Z) (c : xfile_fcb) (r : Z) :
  pool_inv w -> fcbs w !! a = Some c ->
  fcbs w' = <[a := {| fd := fd c; refcount := r |}]> (fcbs w) ->
  fcb_list w' = fcb_list w ->
  dom (files w') = dom (files w) ->
  pool_inv w'.
Proof.
  intros (Hnd & Hwf & Hopen & Hfd) Hc Hfcbs Hlist Hdom.
  assert (Hsame : forall b cb, fcbs w' !! b = Some cb ->
            exists cb0, fcbs w !! b = Some cb0 /\ fd cb0 = fd cb).
  { intros b cb. rewrite Hfcbs.
    intros [[<- <-] | [_ Hb]]%lookup_insert_Some; eauto. }
  unfold pool_inv, pool_wf. rewrite Hlist.
  split; [assumption |]. split; [| split].
  - intros b Hb. rewrite Hfcbs. apply lookup_insert_is_Some'.
    right. now apply Hwf.
  - intros b cb Hb. destruct (Hsame _ _ Hb) as (cb0 & Hb0 & <-).
    apply elem_of_dom. rewrite Hdom. apply elem_of_dom. eauto.
  - intros b1 b2 c1 c2 H1 H2 He.
    destruct (Hsame _ _ H1) as (c10 & H10 & E1).
    destruct (Hsame _ _ H2) as (c20 & H20 & E2).
    eapply Hfd; [eassumption | eassumption | congruence].
Qed.

Lemma pool_inv_new (w w' : world) (a d r : Z) :
  pool_inv w -> fcbs w !! a = None -> files w !! d = None ->
  fcbs w' = <[a := {| fd := d; refcount := r |}]> (fcbs w) ->
  fcb_list w' = fcb_list w \/ fcb_list w' = fcb_list w ++ [a] ->
  is_Some (files w' !! d) ->
  (forall d', d' <> d -> files w' !! d' = files w !! d') ->
  pool_inv w'.
Proof.
  intros (Hnd & Hwf & Hopen & Hfd) Ha Hd Hfcbs Hlist Hnew Hold.
  assert (Hnotin : a ∉ fcb_list w).
  { intros Hin. apply Hwf in Hin as [c Hc]. congruence. }
  assert (Hne : forall b cb, fcbs w !! b = Some cb -> fd cb <> d).
  { intros b cb Hb He. apply Hopen in Hb as [f Hf]. congruence. }
  unfold pool_inv, pool_wf. split; [| split; [| split]].
  - destruct Hlist as [-> | ->]; [assumption |].
    apply NoDup_app. split; [assumption |]. split.
    + intros x Hx Hx'. apply list_elem_of_singleton in Hx' as ->.
      contradiction.
    + apply NoDup_singleton.
  - intros b Hb. rewrite Hfcbs. apply lookup_insert_is_Some'.
    destruct Hlist as [Hl | Hl]; rewrite Hl in Hb.
    + right. now apply Hwf.
    + apply elem_of_app in Hb as [Hb | Hb].
      * right. now apply Hwf.
      * left. apply list_elem_of_singleton in Hb. congruence.
  - intros b cb. rewrite Hfcbs.
    intros [[<- <-] | [_ Hb]]%lookup_insert_Some; [exact Hnew |].
    rewrite Hold by (eapply Hne; eassumption). eapply Hopen; eassumption.
  - intros b1 b2 c1 c2. rewrite Hfcbs.
    intros [[<- <-] | [Hn1 H1]]%lookup_insert_Some
           [[<- <-] | [Hn2 H2]]%lookup_insert_Some; cbn [fd].
    + reflexivity.
    + intros He. exfalso. eapply Hne; [exact H2 | congruence].
    + intros He. exfalso. eapply Hne; [exact H1 | congruence].
    + intros He. eapply Hfd; eassumption.
Qed.

Lemma list_del_fresh (a : Z) (l : list Z) : a ∉ l -> list_del a l = l.
Proof.
  intros Ha. unfold list_del.
  induction l as [| b l IH]; [reflexivity |].
  apply not_elem_of_cons in Ha as [Hne Hl].
  rewrite filter_cons_True by congruence. now rewrite IH.
Qed.

Lemma pool_inv_remove (w w' : world) (a : Z) (c : xfile_fcb) :
  pool_inv w -> fcbs w !! a = Some c ->
  fcbs w' = delete a (fcbs w) ->
  files w' = delete (fd c) (files w) ->
  fcb_list w' = list_del a (fcb_list w) ->
  pool_inv w'.
Proof.
  intros (Hnd & Hwf & Hopen & Hfd) Hc Hfcbs Hfiles Hlist.
  unfold pool_inv, pool_wf. rewrite Hfcbs, Hfiles, Hlist.
  split; [| split; [| split]].
  - unfold list_del. now apply NoDup_filter.
  - intros b [Hne Hb]%elem_of_list_del.
    rewrite lookup_delete_ne by congruence. now apply Hwf.
  - intros b cb [Hne Hb]%lookup_delete_Some.
    rewrite lookup_delete_ne; [eapply Hopen; eassumption |].
    intros He. apply Hne. eapply Hfd; eassumption.
  - intros b1 b2 c1 c2 [_ H1]%lookup_delete_Some [_ H2]%lookup_delete_Some.
    eapply Hfd; eassumption.
Qed.

Lemma xfile_fcb_find_inv (K : faults) (w w' : world) (m error pos a : Z) :
  pool_inv w -> xfile_fcb_find K w m = (error, pos, a, w') -> pool_inv w'.
Proof.
  intros Hinv H. pose proof Hinv as (_ & Hwf & _).
  destruct (Z.eq_dec error 0) as [-> | Hne].
  2:{ destruct (xfile_fcb_find_error K w w' m error pos a Hwf H Hne)
        as (_ & Hf & Hb & Hl & _).
      eapply pool_inv_same; eassumption. }
  destruct (Z.eq_dec m 0) as [-> | Hm].
  - unfold xfile_fcb_find in H. cbn [Z.eqb] in H.
    destruct (xfile_fcb_create K w) as [[error a1] w2] eqn:Hcr.
    injection H as -> _ -> ->.
    apply xfile_fcb_create_cases in Hcr
      as [(_ & Hnone & d & Hd & ->) | (Hbad & _)]; [| contradiction].
    eapply (pool_inv_new w _ a d 1); try eassumption.
    + reflexivity.
    + now left.
    + cbn [set_fcbs set_files files]. rewrite lookup_insert_eq. eauto.
    + intros d' Hd'. cbn [set_fcbs set_files files].
      now rewrite lookup_insert_ne by congruence.
  - pose proof H as Hb. apply xfile_fcb_find_bounded in Hb; [| assumption].
    apply xfile_fcb_find_carve in H; [| assumption]. cbn zeta in H.
    destruct H as (d & rc & f & Hc' & Hcase & _ & Hf' & Hother).
    destruct Hb as [(Hin & c & Hc & Hfcbs & Hlist & _) |
                    (Hnone & _ & d0 & Hfcbs & Hlist & _)].
    + destruct Hcase as [(_ & _ & Hf & _) | (Hn & _)]; [| congruence].
      assert (Hd : d = fd c).
      { rewrite Hfcbs, lookup_insert_eq in Hc'. congruence. }
      subst d.
      eapply pool_inv_update; try eassumption.
      apply (files_dom_same _ _ (fd c)); [eauto | eauto | assumption].
    + destruct Hcase as [(Hin & _) | (_ & Hd & _ & _)].
      { apply Hwf in Hin as [c Hc]. congruence. }
      assert (Hd0 : d0 = d).
      { rewrite Hfcbs, lookup_insert_eq in Hc'. congruence. }
      subst d0.
      eapply (pool_inv_new w w' a d 1); try eassumption; [now right | eauto].
Qed.

Lemma xfile_fcb_irele_inv (K : faults) (w : world) (a pos len : Z) :
  pool_inv w -> pool_inv (xfile_fcb_irele K w a pos len).
Proof.
  intros Hinv. unfold xfile_fcb_irele.
  destruct (fcbs w !! a) as [c |] eqn:Hc; [| assumption].
  unfold fcb_is_private. destruct (bool_decide_reflect (a ∉ fcb_list w))
    as [Hpriv | Hlisted].
  { eapply pool_inv_remove; [eassumption | eassumption | reflexivity
                            | reflexivity |].
    cbn [free_fcb sys_close set_fcbs fcb_list].
    now rewrite list_del_fresh. }
  destruct (u32 (refcount c - 1) =? 0).
  { eapply pool_inv_remove; [eassumption | eassumption | reflexivity
                            | reflexivity | reflexivity]. }
  set (w1 := set_fcbs _ w).
  assert (H1 : pool_inv w1).
  { eapply pool_inv_update; [eassumption | eassumption | reflexivity
                            | reflexivity | reflexivity]. }
  assert (H2 : pool_inv (snd (sys_ftruncate K w1 (fd c) pos))).
  { destruct (sys_ftruncate_pool K w1 (fd c) pos) as [(Hb & Hl & _) Hdom].
    assert (Hc1 : fcbs w1 !! a
                  = Some {| fd := fd c; refcount := u32 (refcount c - 1) |}).
    { unfold w1. cbn [set_fcbs fcbs]. apply lookup_insert_eq. }
    eapply (pool_inv_update w1 _ a _ (u32 (refcount c - 1)));
      [exact H1 | exact Hc1 | | exact Hl | exact Hdom].
    rewrite Hb. cbn [fd]. symmetry. apply insert_id. exact Hc1. }
  destruct (0 <? len); [| exact H1].
  destruct (sys_fstat K w1 (fd c)) as [st | e]; [| exact H1].
  destruct (u64 (st_size st) =? u64 (pos + len)); [exact H2 | exact H1].
Qed.

Lemma run_op_inv (K : faults) (op : pool_op) (w : world) :
  pool_inv w -> pool_inv (snd (run_op K op w)).
Proof.
  intros Hinv. destruct op as [m | xf]; cbn [run_op].
  - unfold xfile_create. destruct (flt_kmalloc K); [exact Hinv |].
    destruct (xfile_fcb_find K w m) as [[[error pos] a] w1] eqn:Hf.
    apply xfile_fcb_find_inv in Hf; [| assumption].
    now destruct (negb (error =? 0)).
  - cbn [snd]. unfold xfile_destroy. now apply xfile_fcb_irele_inv.
Qed.

(** X20.  Every run of creations and destructions of partitions,
    under any kernel, keeps the pool in order: no block is listed twice,
    every listed block is allocated, the descriptor of every block is
    open, and no two blocks share a descriptor; in particular a release,
    which closes a descriptor, never closes one that another block still
    uses. *)
Theorem pool_inv_run_ops (ops : list (faults * pool_op)) (w : world) :
  pool_inv w -> pool_inv (snd (run_ops ops w)).
Proof.
  revert w. induction ops as [| [K op] ops IH]; intros w Hinv.
  - exact Hinv.
  - cbn [run_ops].
    pose proof (run_op_inv K op w Hinv) as H1.
    destruct (run_op K op w) as [oxf w1]. cbn [snd] in H1.
    specialize (IH w1 H1).
    destruct (run_ops ops w1) as [acq w2]. exact IH.
Qed.

(** ** Accounting and mapping follow the stores *)

Lemma count_true_ext (p q : Z -> bool) (n : nat) (o : Z) :
  (forall x, o <= x < o + Z.of_nat n -> p x = q x) ->
  count_true p n o = count_true q n o.
Proof.
  revert o. induction n as [| n IH]; intros o H; [reflexivity |].
  cbn [count_true]. rewrite (H o) by lia. f_equal. apply IH.
  intros x Hx. apply H. lia.
Qed.

Lemma resident_bytes_ext (f f' : file) (lo hi : Z) :
  (forall o, lo <= o < hi -> is_data f' o = is_data f o) ->
  resident_bytes f' lo hi = resident_bytes f lo hi.
Proof.
  intros H. unfold resident_bytes. apply count_true_ext.
  intros x Hx. apply H. lia.
Qed.

Lemma write_is_data (f : file) (buf : list byte) (n off o : Z) :
  0 < PAGE_SIZE -> 0 <= off -> off <= o < off + n ->
  is_data (write f buf n off) o = true.
Proof.
  intros HP Hoff Ho. unfold write. destruct (Z.leb_spec n 0); [lia |].
  unfold is_data. cbn [f_size f_resident].
  destruct (Z.leb_spec 0 o); [| lia].
  destruct (Z.ltb_spec o (Z.max (f_size f) (off + n))); [| lia].
  cbn [andb]. apply orb_true_iff. right. apply andb_true_iff.
  split; apply Z.leb_le; apply Z.div_le_mono; lia.
Qed.

(** X21.  What was stored is counted: in a bounded partition whose
    range fits the file offsets ([0 <= partition_pos] and [partition_pos +
    maxbytes < 2 ^ 63]), after a store that succeeded inside it,
    [xfile_bytes] of that partition (the lseek calls going through)
    reports at least the [count] bytes stored and at most [maxbytes]. *)
Theorem stored_bytes_are_counted (K K' : faults) (w w' : world) (xf : xfile)
  (buf : list byte) (count pos : Z) :
  0 < PAGE_SIZE ->
  0 < maxbytes xf -> 0 <= partition_pos xf ->
  partition_pos xf + maxbytes xf < 2 ^ 63 ->
  Z.of_nat (length buf) = count ->
  0 <= pos -> pos + count <= maxbytes xf ->
  xfile_store K w xf buf count pos = (0, w') ->
  (forall o, flt_lseek K' (xf_fd w xf) o = None) ->
  exists v, xfile_bytes K' w' xf = Some v /\ count <= v <= maxbytes xf.
Proof.
  intros HP Hm Hp0 Hov Hlen Hpos Hin Hst Hflt.
  apply xfile_store_ok in Hst as (f & Hf & Hoff & ->); [| assumption].
  set (f' := write f buf count (pos + partition_pos xf)).
  set (w' := set_files _ w).
  assert (Hfd : xf_fd w' xf = xf_fd w xf) by apply xf_fd_set_files.
  assert (Hf' : files w' !! xf_fd w' xf = Some f').
  { rewrite Hfd. unfold w'. cbn [set_files files]. apply lookup_insert_eq. }
  unfold xfile_bytes. destruct (Z.ltb_spec 0 (maxbytes xf)); [| lia].
  rewrite (xfile_partition_bytes_counts K' w' xf f') by
    (try assumption; try lia; rewrite Hfd; assumption).
  eexists. split; [reflexivity |].
  unfold resident_bytes.
  set (lo := partition_pos xf). set (off := pos + partition_pos xf) in *.
  set (hi := partition_pos xf + maxbytes xf).
  rewrite (count_true_split _ lo off hi) by (unfold lo, off, hi; lia).
  rewrite (count_true_split _ off (off + count) hi)
    by (unfold lo, off, hi; lia).
  pose proof (count_true_bounds (is_data f') (Z.to_nat (off - lo)) lo).
  pose proof (count_true_bounds (is_data f')
                (Z.to_nat (hi - (off + count))) (off + count)).
  rewrite (count_true_all (is_data f') (Z.to_nat (off + count - off)) off).
  - unfold lo, off, hi in *. lia.
  - intros x Hx. apply write_is_data; [assumption | assumption | lia].
Qed.

Lemma pwrite_resident_frame (flt : fault) (f : file) (buf : list byte)
  (count off p : Z) :
  0 < PAGE_SIZE ->
  ~ (off / PAGE_SIZE <= p <= (off + count - 1) / PAGE_SIZE) ->
  f_resident (snd (pwrite flt f buf count off)) p = f_resident f p.
Proof.
  intros HP Hp.
  assert (Hw : forall n, n <= count ->
            f_resident (write f buf n off) p = f_resident f p).
  { intros n Hn. unfold write. destruct (Z.leb_spec n 0); [reflexivity |].
    cbn [f_resident].
    destruct (Z.leb_spec (off / PAGE_SIZE) p); cbn [andb];
      [| apply orb_false_r].
    destruct (Z.leb_spec p ((off + n - 1) / PAGE_SIZE));
      [| apply orb_false_r].
    exfalso. apply Hp. split; [assumption |].
    etransitivity; [eassumption |]. apply Z.div_le_mono; lia. }
  unfold pwrite. destruct (off <? 0); [reflexivity |].
  destruct flt as [| e | k]; cbn [snd]; [| reflexivity |].
  - destruct (Z.max_spec 0 count) as [[H ->] | [H ->]];
      [apply Hw; lia |].
    unfold write. now destruct (Z.leb_spec 0 0); [| lia].
  - destruct (Z.max_spec 0 (Z.min k count)) as [[H ->] | [H ->]];
      [apply Hw; lia |].
    unfold write. now destruct (Z.leb_spec 0 0); [| lia].
Qed.

Lemma partition_bytes_loop_no_file (fuel : nat) (K : faults) (w : world)
  (d stop : Z) :
  files w !! d = None ->
  forall q bytes,
    partition_bytes_loop fuel K w d stop (sys_lseek_data K w d q) bytes
    = Some (Fell (SysErr EBADF) bytes).
Proof.
  intros Hf q bytes. unfold sys_lseek_data. rewrite Hf.
  now destruct fuel.
Qed.

(** X22.  The byte count of a bounded partition is its own: a
    store that stays inside another partition, both starting on page
    boundaries as [xfile_fcb_find] places them, leaves what
    [xfile_bytes] reports for the first (the lseek calls going through)
    as it was, although the two may share a file. *)
Theorem xfile_bytes_isolated (K K' : faults) (w : world) (xf xf' : xfile)
  (buf : list byte) (count pos : Z) (f : file) :
  0 < PAGE_SIZE ->
  0 <= pos -> pos + count <= maxbytes xf ->
  0 <= partition_pos xf ->
  partition_pos xf mod PAGE_SIZE = 0 ->
  partition_pos xf' mod PAGE_SIZE = 0 ->
  0 < maxbytes xf' -> 0 <= partition_pos xf' ->
  partition_pos xf' + maxbytes xf' < 2 ^ 63 ->
  (partition_pos xf + maxbytes xf <= partition_pos xf' \/
   partition_pos xf' + maxbytes xf' <= partition_pos xf) ->
  xf_file w xf' = Some f ->
  partition_pos xf' + maxbytes xf' <= f_size f ->
  (forall o, flt_lseek K' (xf_fd w xf') o = None) ->
  xfile_bytes K' (snd (xfile_store K w xf buf count pos)) xf'
  = xfile_bytes K' w xf'.
Proof.
  intros HP Hpos Hin Hp0 Hal Hal' Hm' Hp0' Hov' Hdis Hf Hsz Hflt.
  destruct (xfile_store_world K w xf buf count pos) as [-> | ->];
    [reflexivity |].
  set (off := pos + partition_pos xf).
  pose proof (sys_pwrite_frame K w (xf_fd w xf) buf count off) as H.
  cbn zeta in H. destruct H as (Hfcbs & _ & _ & _ & _ & Hother & Hown).
  set (w' := snd (sys_pwrite K w (xf_fd w xf) buf count off)) in *.
  assert (Hfd : xf_fd w' xf' = xf_fd w xf')
    by (unfold xf_fd; now rewrite Hfcbs).
  unfold xf_file in Hf.
  unfold xfile_bytes. destruct (Z.ltb_spec 0 (maxbytes xf')); [| lia].
  rewrite (xfile_partition_bytes_counts K' w xf' f) by (assumption || lia).
  assert (Hcount : forall f',
            files w' !! xf_fd w xf' = Some f' ->
            xfile_partition_bytes K' w' xf'
            = Some (resident_bytes f' (partition_pos xf')
                      (partition_pos xf' + maxbytes xf'))).
  { intros f' Hf'. apply xfile_partition_bytes_counts; try lia;
      rewrite Hfd; [exact Hf' | exact Hflt]. }
  destruct (decide (xf_fd w xf' = xf_fd w xf)) as [He | Hne].
  2:{ apply Hcount. now rewrite (Hother _ Hne). }
  rewrite He in Hf. rewrite Hf in Hown.
  destruct Hown as (f' & Hf' & Hsize & _).
  assert (Hres : forall p,
            ~ (off / PAGE_SIZE <= p <= (off + count - 1) / PAGE_SIZE) ->
            f_resident f' p = f_resident f p).
  { intros p Hp. unfold w', sys_pwrite in Hf'. rewrite Hf in Hf'.
    pose proof (pwrite_resident_frame
                  (flt_pwrite K (xf_fd w xf) count off) f buf count off p
                  HP Hp) as Hr.
    destruct (pwrite (flt_pwrite K (xf_fd w xf) count off) f buf count off)
      as [r f''].
    cbn [snd set_files files] in Hf', Hr.
    rewrite lookup_insert_eq in Hf'. now injection Hf' as <-. }
  rewrite (Hcount f') by (rewrite He; exact Hf').
  f_equal. apply resident_bytes_ext. intros o Ho.
  unfold is_data.
  destruct (Z.leb_spec 0 o); [| lia].
  destruct (Z.ltb_spec o (f_size f')); [| lia].
  destruct (Z.ltb_spec o (f_size f)); [| lia].
  cbn [andb]. apply Hres. intros [Hlo Hhi].
  destruct Hdis as [Hd | Hd].
  - apply Z.mod_divide in Hal'; [| lia]. destruct Hal' as [k Hk].
    assert (k <= o / PAGE_SIZE) by (apply Z.div_le_lower_bound; lia).
    assert ((off + count - 1) / PAGE_SIZE < k)
      by (apply Z.div_lt_upper_bound; unfold off; lia).
    lia.
  - apply Z.mod_divide in Hal; [| lia]. destruct Hal as [k Hk].
    assert (o / PAGE_SIZE < k) by (apply Z.div_lt_upper_bound; lia).
    assert (k <= off / PAGE_SIZE)
      by (apply Z.div_le_lower_bound; unfold off; lia).
    lia.
Qed.



End Model.

(** * Concrete runs *)

(** C1 at a concrete input.  Two partitions of one page each are made on
    an empty pool; they share block 0, A at offset 0 and B at offset 4096.
    Three bytes are stored in A and two in B, then page 0 of B is
    discarded.  The hole lands on A: A reads back zeroes, B still reads
    back its bytes. *)
Lemma xfile_discard_hits_neighbour :
  let K := no_faults in
  let A := {| fcb := 0; partition_pos := 0; maxbytes := 4096 |} in
  let B := {| fcb := 0; partition_pos := 4096; maxbytes := 4096 |} in
  let w1 := snd (xfile_create 4096 K empty_world 4096) in
  let w2 := snd (xfile_create 4096 K w1 4096) in
  let w3 := snd (xfile_store 4096 K w2 A [x01; x02; x03] 3 0) in
  let w4 := snd (xfile_store 4096 K w3 B [x0a; x0b] 2 0) in
  let w5 := xfile_discard 4096 K w4 B 0 4096 in
  fst (xfile_create 4096 K empty_world 4096) = (0, Some A) /\
  fst (xfile_create 4096 K w1 4096) = (0, Some B) /\
  xfile_load K w4 A 3 0 = (0, [x01; x02; x03]) /\
  xfile_load K w4 B 2 0 = (0, [x0a; x0b]) /\
  xfile_load K w5 A 3 0 = (0, [x00; x00; x00]) /\
  xfile_load K w5 B 2 0 = (0, [x0a; x0b]).
Proof. vm_compute. repeat split; reflexivity. Qed.

(** C10 at a concrete input.  A partition of 100 bytes is made on an empty
    pool: the file is one page long, the partition records 100.  A store
    of one byte at position 200 is not refused, and the byte can be read
    back from there. *)
Lemma store_reaches_rounding_slack :
  let K := no_faults in
  let P := {| fcb := 0; partition_pos := 0; maxbytes := 100 |} in
  let w1 := snd (xfile_create 4096 K empty_world 100) in
  let w2 := snd (xfile_store 4096 K w1 P [x2a] 1 200) in
  fst (xfile_create 4096 K empty_world 100) = (0, Some P) /\
  f_size <$> files w1 !! 0 = Some 4096 /\
  maxbytes P < 200 + 1 /\
  fst (xfile_store 4096 K w1 P [x2a] 1 200) = 0 /\
  xfile_load K w1 P 1 200 = (0, [x00]) /\
  xfile_load K w2 P 1 200 = (0, [x2a]).
Proof. vm_compute. repeat split; reflexivity. Qed.

(** C3 at a concrete input.  Two partitions of one page each, A before B
    on the same file.  At the end of A a load of one byte is refused with
    [-ENOMEM], but a store of one byte is refused with [-EFBIG], and a
    store of [2 ^ 31] bytes with [-E2BIG]: the header comment of
    [xfile_store] promises what [xfile_load] does.  Past the end of A, at
    position 5000, a store of one byte is not refused at all: it returns 0
    and the byte shows at position 904 of B. *)
Lemma store_refusal_is_not_enomem :
  let K := no_faults in
  let A := {| fcb := 0; partition_pos := 0; maxbytes := 4096 |} in
  let B := {| fcb := 0; partition_pos := 4096; maxbytes := 4096 |} in
  let w1 := snd (xfile_create 4096 K empty_world 4096) in
  let w2 := snd (xfile_create 4096 K w1 4096) in
  let w3 := snd (xfile_store 4096 K w2 A [x01] 1 5000) in
  fst (xfile_create 4096 K empty_world 4096) = (0, Some A) /\
  fst (xfile_create 4096 K w1 4096) = (0, Some B) /\
  0 < maxbytes A /\ maxbytes A < 4096 + 1 /\ maxbytes A < 5000 + 1 /\
  fst (xfile_load K w2 A 1 4096) = - ENOMEM /\
  fst (xfile_store 4096 K w2 A [x01] 1 4096) = - EFBIG /\
  fst (xfile_store 4096 K w2 A [x01] (2 ^ 31) 0) = - E2BIG /\
  - EFBIG <> - ENOMEM /\ - E2BIG <> - ENOMEM /\
  fst (xfile_store 4096 K w2 A [x01] 1 5000) = 0 /\
  xfile_load K w2 B 1 904 = (0, [x00]) /\
  xfile_load K w3 B 1 904 = (0, [x01]).
Proof. vm_compute. repeat split; try reflexivity; discriminate. Qed.

(** C2 as stated fails.  With 4096-byte pages the page shift is 12; basic
    blocks are 512 bytes, [BBSHIFT] is 9.  For a partition of one page
    [maxbytes >> page_shift] is 1, and block address 1 is valid: the limit
    is [maxbytes >> BBSHIFT], 8.  A negative address is below any such
    limit and is not valid. *)
Lemma verify_daddr_at_page_count :
  let page_shift := 12 in
  let BBSHIFT := 9 in
  let btp := {| bt_xfile := {| fcb := 0; partition_pos := 0;
                               maxbytes := 4096 |} |} in
  2 ^ page_shift = 4096 /\
  Z.shiftr (maxbytes (bt_xfile btp)) page_shift = 1 /\
  xmbuf_verify_daddr BBSHIFT btp 1 = true /\
  xmbuf_verify_daddr BBSHIFT btp 7 = true /\
  xmbuf_verify_daddr BBSHIFT btp 8 = false /\
  xmbuf_verify_daddr BBSHIFT btp (-1) = false.
Proof. vm_compute. repeat split; reflexivity. Qed.

(** C9 as stated fails for a bounded partition whose range does not fit
    the file offsets.  [xfile_create] does not refuse [maxbytes = 2 ^ 64 -
    1]: the rounded length wraps to 0 and the partition sits at offset 0
    of an empty file.  A store of one byte at position 0 returns 0 and
    the byte reads back, so offset 0, which lies in [partition_pos,
    partition_pos + maxbytes), is data and the data bytes in that range
    are more than none.  But in [xfile_partition_bytes] the signed
    [stop_pos = partition_pos + maxbytes] is -1, the loop is never
    entered, and [xfile_bytes] is 0.

    It also fails when the kernel does not answer: with every lseek
    failing with EIO (5), an empty 100-byte partition, which has no data
    byte, is reported as 100 bytes, its [maxbytes]; and with fstat failing
    with EIO, an unbounded partition is reported as [2 ^ 64 - 5] bytes. *)
Lemma xfile_bytes_of_unrepresentable_range :
  let K := no_faults in
  let P := {| fcb := 0; partition_pos := 0; maxbytes := 2 ^ 64 - 1 |} in
  let w1 := snd (xfile_create 4096 K empty_world (2 ^ 64 - 1)) in
  let w2 := snd (xfile_store 4096 K w1 P [x01] 1 0) in
  let f := default empty_file (files w2 !! 0) in
  let Kl := with_lseek (fun _ _ => Some 5%positive) no_faults in
  let B := {| fcb := 0; partition_pos := 4096; maxbytes := 100 |} in
  let v1 := snd (xfile_create 4096 K empty_world 4096) in
  let v2 := snd (xfile_create 4096 K v1 100) in
  let g := default empty_file (files v2 !! 0) in
  let Kf := with_fstat (fun _ => Some 5%positive) no_faults in
  let Q := {| fcb := 0; partition_pos := 0; maxbytes := 0 |} in
  let u1 := snd (xfile_create 4096 K empty_world 0) in
  (fst (xfile_create 4096 K empty_world (2 ^ 64 - 1)) = (0, Some P) /\
   0 < maxbytes P /\
   fst (xfile_store 4096 K w1 P [x01] 1 0) = 0 /\
   xfile_load K w2 P 1 0 = (0, [x01]) /\
   files w2 !! xf_fd w2 P = Some f /\
   partition_pos P <= 0 < partition_pos P + maxbytes P /\
   is_data 4096 f 0 = true /\
   0 < resident_bytes 4096 f (partition_pos P)
                      (partition_pos P + maxbytes P) /\
   s64 (partition_pos P + maxbytes P) = - 1 /\
   xfile_bytes 4096 K w2 P = Some 0) /\
  (fst (xfile_create 4096 K v1 100) = (0, Some B) /\
   files v2 !! xf_fd v2 B = Some g /\
   resident_bytes 4096 g (partition_pos B) (partition_pos B + maxbytes B)
   = 0 /\
   xfile_bytes 4096 K v2 B = Some 0 /\
   xfile_bytes 4096 Kl v2 B = Some 100) /\
  (fst (xfile_create 4096 K empty_world 0) = (0, Some Q) /\
   xfile_bytes 4096 K u1 Q = Some 0 /\
   xfile_bytes 4096 Kf u1 Q = Some (2 ^ 64 - 5)).
Proof.
  intros K P w1 w2 f Kl B v1 v2 g Kf Q u1.
  assert (Hd : is_data 4096 f 0 = true) by (vm_compute; reflexivity).
  split; [| split; [| vm_compute; repeat split; reflexivity]].
  - split; [vm_compute; reflexivity |].
    split; [vm_compute; reflexivity |].
    split; [vm_compute; reflexivity |].
    split; [vm_compute; reflexivity |].
    split; [reflexivity |].
    split; [vm_compute; split; [discriminate | reflexivity] |].
    split; [exact Hd |].
    split.
    + unfold resident_bytes.
      apply (count_true_pos (is_data 4096 f) _ _ 0); [| exact Hd].
      change (partition_pos P) with 0. change (maxbytes P) with (2 ^ 64 - 1).
      rewrite Z2Nat.id by lia. lia.
    + split; vm_compute; reflexivity.
  - split; [vm_compute; reflexivity |].
    split; [reflexivity |].
    split; vm_compute; [reflexivity |]. split; reflexivity.
Qed.

(** ** Instances of the theorems

    Each theorem above that has hypotheses is used once on a world built
    with the functions of the model, its hypotheses discharged by
    evaluation.  The runs take 4096-byte pages, [BBSHIFT] 9,
    [LIBXFS_B_STALE] 4, [LIBXFS_B_UPTODATE] 8, [LIBXFS_B_UNCHECKED] 32 and
    [EFSCORRUPTED] 117. *)

(** Address 7 of a one-page partition. *)
Lemma xmbuf_verify_daddr_spec_witness :
  let BBSHIFT := 9 in
  let btp := {| bt_xfile := {| fcb := 0; partition_pos := 0;
                               maxbytes := 4096 |} |} in
  (0 < BBSHIFT /\ 0 <= maxbytes (bt_xfile btp) < 2 ^ 64 /\
   - 2 ^ 63 <= 7 < 2 ^ 63) /\
  (xmbuf_verify_daddr BBSHIFT btp 7 = true <->
   0 <= 7 < Z.shiftr (maxbytes (bt_xfile btp)) BBSHIFT) /\
  xmbuf_verify_daddr BBSHIFT btp (Z.shiftr (maxbytes (bt_xfile btp)) BBSHIFT)
  = false.
Proof.
  cbv zeta. split; [cbn; lia |].
  apply (xmbuf_verify_daddr_spec 9
           {| bt_xfile := {| fcb := 0; partition_pos := 0;
                             maxbytes := 4096 |} |} 7); cbn; lia.
Defined.

(** Three bytes stored at position 16 of a one-page partition. *)
Lemma store_load_roundtrip_witness :
  let K := no_faults in
  let P := {| fcb := 0; partition_pos := 0; maxbytes := 4096 |} in
  let w := snd (xfile_create 4096 K empty_world 4096) in
  let buf := [x01; x02; x03] in
  let w' := snd (xfile_store 4096 K w P buf 3 16) in
  (Z.of_nat (length buf) = 3 /\ 0 <= 16 /\ 16 + 3 <= xfile_maxbytes P /\
   xfile_store 4096 K w P buf 3 16 = (0, w') /\
   flt_pread K (xf_fd w' P) 3 (16 + partition_pos P) = NoFault) /\
  xfile_load K w' P 3 16 = (0, buf).
Proof.
  cbv zeta.
  assert (Hst : xfile_store 4096 no_faults
                  (snd (xfile_create 4096 no_faults empty_world 4096))
                  {| fcb := 0; partition_pos := 0; maxbytes := 4096 |}
                  [x01; x02; x03] 3 16
                = (0, snd (xfile_store 4096 no_faults
                             (snd (xfile_create 4096 no_faults empty_world
                                     4096))
                             {| fcb := 0; partition_pos := 0;
                                maxbytes := 4096 |}
                             [x01; x02; x03] 3 16)))
    by reflexivity.
  assert (Hmax : 16 + 3 <= xfile_maxbytes
                             {| fcb := 0; partition_pos := 0;
                                maxbytes := 4096 |})
    by (vm_compute; discriminate).
  split.
  - repeat split; try reflexivity; try exact Hst; try exact Hmax; lia.
  - apply (proj2 (store_load_roundtrip 4096 no_faults no_faults _ _ _
                    [x01; x02; x03] [x01; x02; x03] 3 16
                    eq_refl ltac:(lia) Hmax Hst)).
    reflexivity.
Defined.

(** 200 bytes at position 4000 of a one-page partition; [2 ^ 31] bytes;
    two bytes of which the kernel writes one. *)
Lemma capacity_enforcement_witness :
  let K := no_faults in
  let Ks := with_pwrite (Short 1) no_faults in
  let P := {| fcb := 0; partition_pos := 0; maxbytes := 4096 |} in
  let w := snd (xfile_create 4096 K empty_world 4096) in
  ((0 < maxbytes P <= LLONG_MAX /\ - 2 ^ 63 <= 4000 <= maxbytes P /\
    0 <= 200 <= INT_MAX /\ maxbytes P < 4000 + 200) /\
   xfile_load K w P 200 4000 = (- ENOMEM, []) /\
   xfile_store 4096 K w P [x01] 200 4000 = (- EFBIG, w)) /\
  (INT_MAX < 2 ^ 31 /\
   xfile_load K w P (2 ^ 31) 0 = (- ENOMEM, []) /\
   xfile_store 4096 K w P [x01] (2 ^ 31) 0 = (- E2BIG, w)) /\
  ((2 <= INT_MAX /\ (u64 (xfile_maxbytes P - 0) <? 2) = false /\
    fst (sys_pwrite 4096 Ks w (xf_fd w P) [x01; x02] 2 (0 + partition_pos P))
    = SysOk 1 /\ 1 <> 2) /\
   fst (xfile_store 4096 Ks w P [x01; x02] 2 0) = - ENOMEM).
Proof.
  cbv zeta. split; [| split].
  - split; [vm_compute; repeat split; discriminate |].
    apply (proj1 (capacity_enforcement 4096 no_faults _
                    {| fcb := 0; partition_pos := 0; maxbytes := 4096 |}
                    [x01] 200 4000));
      vm_compute; split; discriminate || reflexivity.
  - split; [reflexivity |].
    apply (proj1 (proj2 (capacity_enforcement 4096 no_faults _
                    {| fcb := 0; partition_pos := 0; maxbytes := 4096 |}
                    [x01] (2 ^ 31) 0))).
    reflexivity.
  - split; [vm_compute; repeat split; discriminate |].
    rewrite (proj2 (proj2 (proj2 (capacity_enforcement 4096
                    (with_pwrite (Short 1) no_faults)
                    (snd (xfile_create 4096 no_faults empty_world 4096))
                    {| fcb := 0; partition_pos := 0; maxbytes := 4096 |}
                    [x01; x02] 2 0))
                    ltac:(vm_compute; discriminate) eq_refl)
                    1 _ eq_refl ltac:(lia)).
    reflexivity.
Defined.

(** Two partitions on one block, released in turn. *)
Lemma shared_fcb_refcount_witness :
  let K := no_faults in
  let A := {| fcb := 0; partition_pos := 0; maxbytes := 4096 |} in
  let B := {| fcb := 0; partition_pos := 4096; maxbytes := 100 |} in
  let w1 := snd (xfile_create 4096 K empty_world 4096) in
  let w2 := snd (xfile_create 4096 K w1 100) in
  let rs := [(K, B); (K, A)] in
  (xfile_create 4096 K w1 100 = (0, Some B, w2) /\
   fcbs w1 !! 0 = Some {| fd := 0; refcount := 1 |}) /\
  fcbs w2 !! 0 = Some {| fd := 0; refcount := 2 |} /\
  fcbs (release_all 4096 rs w2) !! 0 = None /\
  closed (release_all 4096 rs w2) = [0] /\
  fcbs (release_all 4096 (take 1 rs) w2) !! 0
  = Some {| fd := 0; refcount := 1 |} /\
  closed (release_all 4096 (take 1 rs) w2) = [].
Proof.
  cbv zeta.
  pose proof (proj1 (shared_fcb_refcount 4096) no_faults
                (snd (xfile_create 4096 no_faults empty_world 4096))
                (snd (xfile_create 4096 no_faults
                        (snd (xfile_create 4096 no_faults empty_world 4096))
                        100))
                100 {| fcb := 0; partition_pos := 4096; maxbytes := 100 |}
                ltac:(discriminate) eq_refl) as Hacq.
  pose proof (proj2 (shared_fcb_refcount 4096)
                (snd (xfile_create 4096 no_faults
                        (snd (xfile_create 4096 no_faults empty_world 4096))
                        100))
                0 {| fd := 0; refcount := 2 |}
                [(no_faults, {| fcb := 0; partition_pos := 4096;
                                maxbytes := 100 |});
                 (no_faults, {| fcb := 0; partition_pos := 0;
                                maxbytes := 4096 |})]
                eq_refl (list_elem_of_here 0 [])
                ltac:(repeat constructor) eq_refl
                ltac:(cbn; lia) ltac:(cbn; lia)) as [Hk Hn].
  specialize (Hk 1%nat ltac:(cbn; lia)). cbv zeta in Hk, Hn.
  destruct Hk as (Hk1 & _ & Hk3 & _). destruct Hn as (Hn1 & _ & Hn3 & _).
  split; [split; reflexivity |].
  split; [reflexivity |].
  split; [exact Hn1 |]. split; [exact Hn3 |].
  split; [exact Hk1 | exact Hk3].
Defined.

(** A private partition on an empty pool, followed by three more
    acquisitions. *)
Lemma private_fcb_exclusive_witness :
  let K := no_faults in
  let P := {| fcb := 0; partition_pos := 0; maxbytes := 0 |} in
  let w1 := snd (xfile_create 4096 K empty_world 0) in
  let ops := [(K, Acquire 4096); (K, Acquire 0); (K, Acquire 100)] in
  (pool_wf empty_world /\
   xfile_create 4096 K empty_world 0 = (0, Some P, w1)) /\
  fcb_list w1 = [] /\
  Forall (fun xf' => fcb xf' <> fcb P) (fst (run_ops 4096 ops w1)) /\
  length (fst (run_ops 4096 ops w1)) = 3%nat.
Proof.
  cbv zeta.
  assert (Hwf : pool_wf empty_world).
  { intros b Hb. apply elem_of_nil in Hb. destruct Hb. }
  destruct (private_fcb_exclusive 4096 no_faults empty_world _
              {| fcb := 0; partition_pos := 0; maxbytes := 0 |} Hwf eq_refl)
    as (_ & _ & _ & _ & Hl & _ & d & _ & _ & _ & Hops).
  destruct (Hops [(no_faults, Acquire 4096); (no_faults, Acquire 0);
                  (no_faults, Acquire 100)] ltac:(constructor))
    as (Hacq & _).
  split; [split; [exact Hwf | reflexivity] |].
  split; [exact Hl |]. split; [exact Hacq | reflexivity].
Defined.



(** A 100-byte partition behind a one-page partition, after a store into
    it; a private partition after a store at position 10000. *)
Lemma xfile_bytes_spec_witness :
  let K := no_faults in
  let A := {| fcb := 0; partition_pos := 0; maxbytes := 4096 |} in
  let B := {| fcb := 0; partition_pos := 4096; maxbytes := 100 |} in
  let w1 := snd (xfile_create 4096 K empty_world 4096) in
  let w2 := snd (xfile_create 4096 K w1 100) in
  let w3 := snd (xfile_store 4096 K w2 B [x01; x02; x03] 3 0) in
  let f := default empty_file (files w3 !! 0) in
  let P := {| fcb := 0; partition_pos := 0; maxbytes := 0 |} in
  let v1 := snd (xfile_create 4096 K empty_world 0) in
  let v2 := snd (xfile_store 4096 K v1 P [x01; x02; x03] 3 10000) in
  (files w3 !! xf_fd w3 B = Some f /\ 0 < maxbytes B /\
   0 <= partition_pos B /\ partition_pos B + maxbytes B < 2 ^ 63) /\
  xfile_bytes 4096 K w3 B = Some 100 /\
  xfile_bytes 4096 K w3 A = Some 0 /\
  (files v1 !! xf_fd v1 P = Some empty_file /\ maxbytes P = 0 /\
   xfile_store 4096 K v1 P [x01; x02; x03] 3 10000 = (0, v2)) /\
  xfile_bytes 4096 K v2 P = Some 4096.
Proof.
  intros K A B w1 w2 w3 f P v1 v2.
  assert (Hf : files w3 !! xf_fd w3 B = Some f) by reflexivity.
  assert (HfA : files w3 !! xf_fd w3 A = Some f) by reflexivity.
  assert (Hv1 : files v1 !! xf_fd v1 P = Some empty_file)
    by reflexivity.
  assert (Hst : xfile_store 4096 K v1 P [x01; x02; x03] 3 10000 = (0, v2))
    by reflexivity.
  split; [split; [exact Hf | vm_compute; repeat split; discriminate] |].
  split; [| split; [| split]].
  - rewrite (proj1 (xfile_bytes_spec 4096 K w3 B f Hf)
               ltac:(reflexivity) ltac:(discriminate) ltac:(reflexivity)
               (fun _ => eq_refl)).
    vm_compute. reflexivity.
  - rewrite (proj1 (xfile_bytes_spec 4096 K w3 A f HfA)
               ltac:(reflexivity) ltac:(discriminate) ltac:(reflexivity)
               (fun _ => eq_refl)).
    vm_compute. reflexivity.
  - split; [exact Hv1 | split; [reflexivity | exact Hst]].
  - destruct (proj2 (proj2 (xfile_bytes_spec 4096 K v1 P empty_file Hv1)
                       eq_refl)
                K v2 [x01; x02; x03] 3 10000
                ltac:(vm_compute; split; reflexivity) eq_refl
                ltac:(vm_compute; split; discriminate)
                ltac:(vm_compute; discriminate)
                ltac:(reflexivity) eq_refl Hst eq_refl)
      as (Hv & _ & Hfirst).
    rewrite Hv, (Hfirst eq_refl). reflexivity.
Defined.

(** A store into the first of two one-page partitions of one file, seen
    from the second. *)
Lemma xfile_store_isolated_witness :
  let K := no_faults in
  let A := {| fcb := 0; partition_pos := 0; maxbytes := 4096 |} in
  let B := {| fcb := 0; partition_pos := 4096; maxbytes := 4096 |} in
  let w1 := snd (xfile_create 4096 K empty_world 4096) in
  let w2 := snd (xfile_create 4096 K w1 4096) in
  let w3 := snd (xfile_store 4096 K w2 B [x0a; x0b] 2 0) in
  (0 <= 0 /\ 0 + 3 <= maxbytes A /\ 0 + 2 <= maxbytes B /\
   partition_pos A + maxbytes A <= partition_pos B /\
   f_size <$> xf_file w3 B = Some 8192) /\
  xfile_load K (snd (xfile_store 4096 K w3 A [x01; x02; x03] 3 0)) B 2 0
  = (0, [x0a; x0b]).
Proof.
  intros K A B w1 w2 w3.
  split; [vm_compute; repeat split; discriminate |].
  rewrite (xfile_store_isolated 4096 K K w3 A B [x01; x02; x03] 3 0 2 0).
  - vm_compute. reflexivity.
  - lia.
  - vm_compute. discriminate.
  - lia.
  - vm_compute. discriminate.
  - left. vm_compute. discriminate.
  - intros f Hf.
    assert (Hx : xf_file w3 B = Some (default empty_file (files w3 !! 0)))
      by reflexivity.
    assert (Hfx : f = default empty_file (files w3 !! 0)) by congruence.
    rewrite Hfx. vm_compute. discriminate.
Defined.

(** Three bytes stored at position 16 of a one-page partition and loaded
    again. *)
Lemma xfile_load_ok_witness :
  let K := no_faults in
  let P := {| fcb := 0; partition_pos := 0; maxbytes := 4096 |} in
  let w := snd (xfile_create 4096 K empty_world 4096) in
  let w' := snd (xfile_store 4096 K w P [x01; x02; x03] 3 16) in
  xfile_load K w' P 3 16 = (0, [x01; x02; x03]) /\
  exists f,
    xf_file w' P = Some f /\ 0 <= 3 <= INT_MAX /\
    0 <= 16 + partition_pos P /\
    (0 < 3 -> 16 + partition_pos P + 3 <= f_size f) /\
    Z.of_nat (length [x01; x02; x03]) = 3 /\
    [x01; x02; x03] = read_bytes f (16 + partition_pos P) 3.
Proof.
  intros K P w w'.
  assert (H : xfile_load K w' P 3 16 = (0, [x01; x02; x03]))
    by (vm_compute; reflexivity).
  split; [exact H |].
  exact (xfile_load_ok K w' P 3 16 [x01; x02; x03] H).
Defined.

(** Two listed blocks, made by a kernel that fails fstat on descriptor 0
    at the second creation; under that kernel the scan passes block 0 and
    takes block 1. *)
Lemma xfile_fcb_find_first_fit_witness :
  let K1 := with_fstat (fun d => if d =? 0 then Some 5%positive else None)
                       no_faults in
  let w1 := snd (xfile_create 4096 no_faults empty_world 4096) in
  let w2 := snd (xfile_create 4096 K1 w1 4096) in
  let M := u64 (roundup_64 100 4096) in
  (100 <> 0 /\ fcb_list w2 = [0] ++ 1 :: [] /\
   fcb_usable 4096 K1 w2 M 0 = false /\
   fcb_usable 4096 K1 w2 M 1 = true) /\
  exists pos w',
    xfile_fcb_find 4096 K1 w2 100 = (0, pos, 1, w') /\
    fcb_list w' = fcb_list w2 /\ dom (fcbs w') = dom (fcbs w2).
Proof.
  intros K1 w1 w2 M.
  assert (Hl : fcb_list w2 = [0] ++ 1 :: []) by reflexivity.
  assert (H0 : fcb_usable 4096 K1 w2 M 0 = false) by reflexivity.
  assert (H1 : fcb_usable 4096 K1 w2 M 1 = true) by reflexivity.
  split; [split; [discriminate | split; [exact Hl | split; assumption]] |].
  pose proof (xfile_fcb_find_first_fit 4096 K1 w2 100 ltac:(discriminate))
    as H.
  cbv zeta in H. destruct H as [H _].
  apply (H [0] 1 []); [exact Hl | | exact H1].
  constructor; [exact H0 | constructor].
Defined.


(** A 100-byte partition made behind a one-page partition that holds
    three bytes. *)
Lemma new_partition_reads_zero_witness :
  let K := no_faults in
  let A := {| fcb := 0; partition_pos := 0; maxbytes := 4096 |} in
  let B := {| fcb := 0; partition_pos := 4096; maxbytes := 100 |} in
  let w0 := snd (xfile_create 4096 K empty_world 4096) in
  let w1 := snd (xfile_store 4096 K w0 A [x01; x02; x03] 3 4093) in
  let w2 := snd (xfile_create 4096 K w1 100) in
  (0 < 4096 /\ 0 < 100 /\ xfile_create 4096 K w1 100 = (0, Some B, w2) /\
   0 <= partition_pos B /\
   partition_pos B + roundup_64 100 4096 < 2 ^ 63 /\
   0 <= 0 /\ 0 <= 5 <= INT_MAX /\ 0 + 5 <= 100 /\
   flt_pread K (xf_fd w2 B) 5 (0 + partition_pos B) = NoFault) /\
  xfile_load K w1 A 3 4093 = (0, [x01; x02; x03]) /\
  xfile_load K w2 B 5 0 = (0, [x00; x00; x00; x00; x00]).
Proof.
  intros K A B w0 w1 w2.
  assert (H : xfile_create 4096 K w1 100 = (0, Some B, w2)) by reflexivity.
  split.
  { split; [lia |]. split; [lia |]. split; [exact H |].
    vm_compute. repeat split; discriminate. }
  split; [vm_compute; reflexivity |].
  apply (new_partition_reads_zero 4096 K K w1 w2 100 B 5 0);
    try lia; try exact H; try reflexivity;
    vm_compute; try split; discriminate.
Defined.

(** A bounded creation on an empty pool under a kernel that fails every
    ftruncate with ENOSPC (28). *)
Lemma xfile_create_failure_clean_witness :
  let K := with_ftruncate (fun _ _ => Some 28%positive) no_faults in
  let w' := snd (xfile_create 4096 K empty_world 4096) in
  (pool_wf empty_world /\
   xfile_create 4096 K empty_world 4096 = (- 28, None, w') /\ - 28 <> 0) /\
  - 28 < 0 /\ nothing_leaked empty_world w' /\ closed w' = [0].
Proof.
  intros K w'.
  assert (Hwf : pool_wf empty_world).
  { intros b Hb. apply elem_of_nil in Hb. destruct Hb. }
  assert (H : xfile_create 4096 K empty_world 4096 = (- 28, None, w'))
    by reflexivity.
  split; [split; [exact Hwf | split; [exact H | discriminate]] |].
  destruct (proj2 (xfile_create_failure_clean 4096 K empty_world w' 4096
                     (- 28) None Hwf H) ltac:(discriminate)) as [Hlt Hnl].
  split; [exact Hlt |]. split; [exact Hnl | reflexivity].
Defined.

(** Two one-page partitions of one file: releasing the second cuts the
    file back to one page, releasing the first instead leaves it.  And a
    partition of [2 ^ 64 - 4096] bytes behind a one-page partition: its
    creation leaves the file at length 0, since the new length wraps, and
    its release, for which 0 and [4096 + (2 ^ 64 - 4096)] agree, sets the
    length to 4096. *)
Lemma xfile_fcb_irele_tail_witness :
  let K := no_faults in
  let w1 := snd (xfile_create 4096 K empty_world 4096) in
  let w2 := snd (xfile_create 4096 K w1 4096) in
  let c := {| fd := 0; refcount := 2 |} in
  let f := default empty_file (files w2 !! 0) in
  let v2 := snd (xfile_create 4096 K w1 (2 ^ 64 - 4096)) in
  let g := default empty_file (files v2 !! 0) in
  (fcbs w2 !! 0 = Some c /\ 0 ∈ fcb_list w2 /\ 1 < refcount c < 2 ^ 32 /\
   files w2 !! fd c = Some f /\ f_size f = 8192 /\
   u64 (f_size f) = u64 (4096 + 4096) /\
   u64 (f_size f) <> u64 (0 + 4096)) /\
  files (xfile_fcb_irele 4096 K w2 0 4096 4096) !! 0
  = Some (truncate 4096 f 4096) /\
  files (xfile_fcb_irele 4096 K w2 0 0 4096) !! 0 = Some f /\
  (fst (xfile_create 4096 K w1 (2 ^ 64 - 4096))
   = (0, Some {| fcb := 0; partition_pos := 4096;
                 maxbytes := 2 ^ 64 - 4096 |}) /\
   fcbs v2 !! 0 = Some c /\ files v2 !! fd c = Some g /\ f_size g = 0 /\
   u64 (f_size g) = u64 (4096 + (2 ^ 64 - 4096))) /\
  files (xfile_fcb_irele 4096 K v2 0 4096 (2 ^ 64 - 4096)) !! 0
  = Some (truncate 4096 g 4096).
Proof.
  intros K w1 w2 c f v2 g.
  assert (Hc : fcbs w2 !! 0 = Some c) by reflexivity.
  assert (Hf : files w2 !! fd c = Some f) by reflexivity.
  assert (Hin : 0 ∈ fcb_list w2) by exact (list_elem_of_here 0 []).
  assert (Hrc : 1 < refcount c < 2 ^ 32) by (vm_compute; split; reflexivity).
  assert (Hsz : f_size f = 8192) by reflexivity.
  assert (He : u64 (f_size f) = u64 (4096 + 4096)) by reflexivity.
  assert (Hne : u64 (f_size f) <> u64 (0 + 4096))
    by (vm_compute; discriminate).
  assert (Hcv : fcbs v2 !! 0 = Some c) by reflexivity.
  assert (Hg : files v2 !! fd c = Some g) by reflexivity.
  assert (Hinv : 0 ∈ fcb_list v2) by exact (list_elem_of_here 0 []).
  assert (Hgs : f_size g = 0) by reflexivity.
  assert (Heg : u64 (f_size g) = u64 (4096 + (2 ^ 64 - 4096)))
    by reflexivity.
  split.
  { split; [exact Hc |]. split; [exact Hin |]. split; [exact Hrc |].
    split; [exact Hf |]. split; [exact Hsz |]. split; [exact He | exact Hne]. }
  split; [| split; [| split]].
  - apply (proj1 (xfile_fcb_irele_tail 4096 K w2 0 4096 4096 c f Hc Hin Hrc
                    Hf));
      [lia | exact He | lia | reflexivity | reflexivity].
  - apply (proj1 (proj2 (xfile_fcb_irele_tail 4096 K w2 0 0 4096 c f Hc Hin
                    Hrc Hf))).
    right. left. exact Hne.
  - split; [reflexivity |]. split; [exact Hcv |]. split; [exact Hg |].
    split; [exact Hgs | exact Heg].
  - apply (proj1 (xfile_fcb_irele_tail 4096 K v2 0 4096 (2 ^ 64 - 4096) c g
                    Hcv Hinv Hrc Hg));
      [lia | exact Heg | lia | reflexivity | reflexivity].
Defined.

(** A 100-byte partition made on a new block and destroyed again. *)
Lemma create_destroy_roundtrip_witness :
  let K := no_faults in
  let B := {| fcb := 0; partition_pos := 0; maxbytes := 100 |} in
  let w1 := snd (xfile_create 4096 K empty_world 100) in
  let w2 := xfile_destroy 4096 K w1 B in
  (pool_wf empty_world /\
   (forall b c, fcbs empty_world !! b = Some c ->
      1 <= refcount c < 2 ^ 32 - 1) /\
   xfile_create 4096 K empty_world 100 = (0, Some B, w1)) /\
  fcb_list w1 = [0] /\
  fcbs w2 = fcbs empty_world /\ fcb_list w2 = fcb_list empty_world /\
  dom (files w2) = dom (files empty_world).
Proof.
  intros K B w1 w2.
  assert (Hwf : pool_wf empty_world).
  { intros b Hb. apply elem_of_nil in Hb. destruct Hb. }
  assert (Hrc : forall b c, fcbs empty_world !! b = Some c ->
                  1 <= refcount c < 2 ^ 32 - 1).
  { intros b c Hb. cbn [empty_world fcbs] in Hb.
    rewrite lookup_empty in Hb. discriminate. }
  assert (H : xfile_create 4096 K empty_world 100 = (0, Some B, w1))
    by reflexivity.
  split; [split; [exact Hwf | split; [exact Hrc | exact H]] |].
  split; [reflexivity |].
  exact (create_destroy_roundtrip 4096 K K empty_world w1 100 B Hwf Hrc H).
Defined.


(** A private partition under a kernel that fails fstat with EIO (5). *)
Lemma xfile_bytes_fstat_error_witness :
  let Kf := with_fstat (fun _ => Some 5%positive) no_faults in
  let P := {| fcb := 0; partition_pos := 0; maxbytes := 0 |} in
  let w := snd (xfile_create 4096 no_faults empty_world 0) in
  (maxbytes P <= 0 /\ sys_fstat 4096 Kf w (xf_fd w P) = SysErr 5 /\
   5 < 2 ^ 64) /\
  xfile_bytes 4096 Kf w P = Some (2 ^ 64 - 5).
Proof.
  intros Kf P w.
  assert (Hs : sys_fstat 4096 Kf w (xf_fd w P) = SysErr 5) by reflexivity.
  split; [split; [cbn; lia | split; [exact Hs | reflexivity]] |].
  exact (proj2 (xfile_bytes_fstat_error 4096 Kf w P 5 ltac:(cbn; lia) Hs
                  ltac:(reflexivity))).
Defined.

(** The second page of a two-page partition, mapped and released. *)
Lemma xmbuf_cache_alloc_relse_witness :
  let P := {| fcb := 0; partition_pos := 0; maxbytes := 8192 |} in
  let w := snd (xfile_create 4096 no_faults empty_world 8192) in
  let key := {| buftarg := {| bt_xfile := P |}; blkno := 8; bblen := 8 |} in
  let bp := {| b_cache_key := 8; b_length := 8;
               b_target := {| bt_xfile := P |}; b_flags := 40;
               b_addr := Some 0; b_error := 0; b_nmaps := 1; bm_bn := 8;
               bm_len := 8; b_ops := None |} in
  let w' := snd (xmbuf_cache_alloc 4096 9 8 32 no_faults w key) in
  xmbuf_cache_alloc 4096 9 8 32 no_faults w key = (Some bp, w') /\
  allocated w' = 1 /\
  xmbuf_cache_relse w' bp = w.
Proof.
  intros P w key bp w'.
  assert (H : xmbuf_cache_alloc 4096 9 8 32 no_faults w key = (Some bp, w'))
    by reflexivity.
  split; [exact H |]. split; [reflexivity |].
  exact (xmbuf_cache_alloc_relse 4096 9 8 32 no_faults w w' key bp H).
Defined.

(** Address 7 of a one-page partition, and a target over a private
    partition. *)
Lemma xmbuf_verify_daddr_inside_witness :
  let BBSHIFT := 9 in
  let btp := {| bt_xfile := {| fcb := 0; partition_pos := 0;
                               maxbytes := 4096 |} |} in
  let btp0 := {| bt_xfile := {| fcb := 1; partition_pos := 0;
                                maxbytes := 0 |} |} in
  (0 <= BBSHIFT /\ 0 <= 7 < 2 ^ 63 /\
   xmbuf_verify_daddr BBSHIFT btp 7 = true /\
   maxbytes (bt_xfile btp0) = 0) /\
  (0 <= BBTOB BBSHIFT 7 /\
   BBTOB BBSHIFT 7 + BBTOB BBSHIFT 1 <= maxbytes (bt_xfile btp)) /\
  xmbuf_verify_daddr BBSHIFT btp0 0 = false.
Proof.
  intros BBSHIFT btp btp0.
  split; [repeat split; reflexivity || (vm_compute; discriminate) |].
  split.
  - apply (proj1 (xmbuf_verify_daddr_inside BBSHIFT btp 7));
      [vm_compute; discriminate | vm_compute; split; [discriminate |
       reflexivity] | reflexivity].
  - apply (proj2 (xmbuf_verify_daddr_inside BBSHIFT btp0 0)). reflexivity.
Defined.


(** A page size of 16384 with the usual helpers: a power of two is a
    positive number equal to 2 to its binary logarithm, the highest bit of
    such a number is that logarithm. *)
Lemma xmbuf_libinit_spec_witness :
  let is_power_of_2 := fun n => (0 <? n) && (n =? 2 ^ Z.log2 n) in
  let libxfs_highbit32 := Z.log2 in
  ((forall n, is_power_of_2 n = true -> exists k, 0 <= k /\ n = 2 ^ k) /\
   (forall k, 0 <= k < 32 -> libxfs_highbit32 (2 ^ k) = k) /\
   16384 < 2 ^ 32) /\
  xmbuf_libinit is_power_of_2 libxfs_highbit32 16384 = (16384, 14) /\
  xmbuf_libinit is_power_of_2 libxfs_highbit32 (-1) = (4096, 12) /\
  xmbuf_libinit is_power_of_2 libxfs_highbit32 12288 = (4096, 12) /\
  let '(blocksize, blockshift) :=
    xmbuf_libinit is_power_of_2 libxfs_highbit32 16384 in
  blocksize = 2 ^ blockshift /\ 0 <= blockshift < 32 /\
  (16384 < 0 \/ is_power_of_2 16384 = false ->
   blocksize = 4096 /\ blockshift = 12) /\
  (0 <= 16384 -> is_power_of_2 16384 = true -> blocksize = 16384).
Proof.
  intros is_power_of_2 libxfs_highbit32.
  assert (Hpow : forall n, is_power_of_2 n = true ->
                   exists k, 0 <= k /\ n = 2 ^ k).
  { intros n H. apply andb_prop in H as [_ H]. apply Z.eqb_eq in H.
    exists (Z.log2 n). split; [apply Z.log2_nonneg | exact H]. }
  assert (Hhb : forall k, 0 <= k < 32 -> libxfs_highbit32 (2 ^ k) = k).
  { intros k Hk. apply Z.log2_pow2. lia. }
  split; [split; [exact Hpow | split; [exact Hhb | reflexivity]] |].
  split; [reflexivity |]. split; [reflexivity |]. split; [reflexivity |].
  exact (xmbuf_libinit_spec is_power_of_2 libxfs_highbit32 16384 Hpow Hhb
           ltac:(reflexivity)).
Defined.

(** A target on an empty pool when pthread_mutex_init fails with EAGAIN
    (11): the partition is given back and 11 returned. *)
Lemma xmbuf_alloc_failure_clean_witness :
  let T := {| flt_kzalloc := false; cache_init_result := Some 1;
              flt_mutex_init := Some 11%positive |} in
  let r := xmbuf_alloc 4096 T no_faults empty_world 7 4096 in
  (pool_wf empty_world /\
   (forall b c, fcbs empty_world !! b = Some c ->
      1 <= refcount c < 2 ^ 32 - 1) /\
   r = (11, None, snd r)) /\
  fcbs (snd r) = fcbs empty_world /\
  fcb_list (snd r) = fcb_list empty_world /\
  dom (files (snd r)) = dom (files empty_world) /\
  closed (snd r) = [0].
Proof.
  intros T r.
  assert (Hwf : pool_wf empty_world).
  { intros b Hb. apply elem_of_nil in Hb. destruct Hb. }
  assert (Hrc : forall b c, fcbs empty_world !! b = Some c ->
                  1 <= refcount c < 2 ^ 32 - 1).
  { intros b c Hb. cbn [empty_world fcbs] in Hb.
    rewrite lookup_empty in Hb. discriminate. }
  assert (H : r = (11, None, snd r)) by reflexivity.
  split; [split; [exact Hwf | split; [exact Hrc | exact H]] |].
  destruct (proj1 (proj2 (xmbuf_alloc_failure_clean 4096 T no_faults
                            empty_world (snd r) 7 4096 11 None Hwf Hrc H))
              ltac:(discriminate)) as (H1 & H2 & H3).
  split; [exact H1 |]. split; [exact H2 |]. split; [exact H3 | reflexivity].
Defined.

(** A one-page target on an empty pool, allocated and freed. *)
Lemma xmbuf_alloc_free_roundtrip_witness :
  let T := {| flt_kzalloc := false; cache_init_result := Some 1;
              flt_mutex_init := None |} in
  let P := {| fcb := 0; partition_pos := 0; maxbytes := 4096 |} in
  let btp := {| bt_mount := 7; bt_bdev := 2 ^ 64 - 1; bt_bdev_fd := - 1;
                bt_target := {| bt_xfile := P |}; bcache := 1 |} in
  let w1 := snd (xmbuf_alloc 4096 T no_faults empty_world 7 4096) in
  (pool_wf empty_world /\
   (forall b c, fcbs empty_world !! b = Some c ->
      1 <= refcount c < 2 ^ 32 - 1) /\
   xmbuf_alloc 4096 T no_faults empty_world 7 4096 = (0, Some btp, w1)) /\
  fcb_list w1 = [0] /\
  fcbs (xmbuf_free 4096 no_faults w1 btp) = fcbs empty_world /\
  fcb_list (xmbuf_free 4096 no_faults w1 btp) = fcb_list empty_world /\
  dom (files (xmbuf_free 4096 no_faults w1 btp)) = dom (files empty_world).
Proof.
  intros T P btp w1.
  assert (Hwf : pool_wf empty_world).
  { intros b Hb. apply elem_of_nil in Hb. destruct Hb. }
  assert (Hrc : forall b c, fcbs empty_world !! b = Some c ->
                  1 <= refcount c < 2 ^ 32 - 1).
  { intros b c Hb. cbn [empty_world fcbs] in Hb.
    rewrite lookup_empty in Hb. discriminate. }
  assert (H : xmbuf_alloc 4096 T no_faults empty_world 7 4096
              = (0, Some btp, w1)) by reflexivity.
  split; [split; [exact Hwf | split; [exact Hrc | exact H]] |].
  split; [reflexivity |].
  exact (proj2 (proj2 (proj2 (proj2 (proj2
           (xmbuf_alloc_free_roundtrip 4096 T no_faults no_faults
              empty_world w1 7 4096 btp Hwf Hrc H)))))).
Defined.

(** Creations and destructions on an empty pool, one creation under a
    kernel that fails every ftruncate. *)
Lemma pool_inv_run_ops_witness :
  let K := no_faults in
  let Kt := with_ftruncate (fun _ _ => Some 28%positive) no_faults in
  let A := {| fcb := 0; partition_pos := 0; maxbytes := 4096 |} in
  let B := {| fcb := 0; partition_pos := 4096; maxbytes := 100 |} in
  let ops := [(K, Acquire 4096); (K, Acquire 100); (K, Acquire 0);
              (Kt, Acquire 4096); (K, Release A); (K, Release B)] in
  pool_inv empty_world /\
  pool_inv (snd (run_ops 4096 ops empty_world)).
Proof.
  intros K Kt A B ops.
  assert (Hinv : pool_inv empty_world).
  { split; [apply NoDup_nil_2 |].
    split; [intros b Hb; apply elem_of_nil in Hb; destruct Hb |].
    split.
    - intros a c Ha. cbn [empty_world fcbs] in Ha.
      rewrite lookup_empty in Ha. discriminate.
    - intros a b ca cb Ha. cbn [empty_world fcbs] in Ha.
      rewrite lookup_empty in Ha. discriminate. }
  split; [exact Hinv |].
  exact (pool_inv_run_ops 4096 ops empty_world Hinv).
Defined.

(** Three bytes stored in a 100-byte partition behind a one-page
    partition. *)
Lemma stored_bytes_are_counted_witness :
  let K := no_faults in
  let B := {| fcb := 0; partition_pos := 4096; maxbytes := 100 |} in
  let w1 := snd (xfile_create 4096 K empty_world 4096) in
  let w2 := snd (xfile_create 4096 K w1 100) in
  let w3 := snd (xfile_store 4096 K w2 B [x01; x02; x03] 3 0) in
  (0 < 4096 /\ 0 < maxbytes B /\ 0 <= partition_pos B /\
   partition_pos B + maxbytes B < 2 ^ 63 /\
   Z.of_nat (length [x01; x02; x03]) = 3 /\ 0 <= 0 /\
   0 + 3 <= maxbytes B /\
   xfile_store 4096 K w2 B [x01; x02; x03] 3 0 = (0, w3)) /\
  exists v, xfile_bytes 4096 K w3 B = Some v /\ 3 <= v <= maxbytes B.
Proof.
  intros K B w1 w2 w3.
  assert (Hst : xfile_store 4096 K w2 B [x01; x02; x03] 3 0 = (0, w3))
    by reflexivity.
  split.
  { split; [lia |]. split; [cbn; lia |]. split; [cbn; lia |].
    split; [vm_compute; reflexivity |]. split; [reflexivity |].
    split; [lia |]. split; [cbn; lia | exact Hst]. }
  apply (stored_bytes_are_counted 4096 K K w2 w3 B [x01; x02; x03] 3 0);
    try exact Hst; try reflexivity; try lia; try (cbn; lia).
Defined.

(** A store into a one-page partition, and the byte count of the 100-byte
    partition behind it. *)
Lemma xfile_bytes_isolated_witness :
  let K := no_faults in
  let A := {| fcb := 0; partition_pos := 0; maxbytes := 4096 |} in
  let B := {| fcb := 0; partition_pos := 4096; maxbytes := 100 |} in
  let w1 := snd (xfile_create 4096 K empty_world 4096) in
  let w2 := snd (xfile_create 4096 K w1 100) in
  let f := default empty_file (files w2 !! 0) in
  (0 < 4096 /\ 0 <= 4000 /\ 4000 + 3 <= maxbytes A /\
   partition_pos A mod 4096 = 0 /\ partition_pos B mod 4096 = 0 /\
   0 < maxbytes B /\ partition_pos A + maxbytes A <= partition_pos B /\
   xf_file w2 B = Some f /\ partition_pos B + maxbytes B <= f_size f) /\
  xfile_bytes 4096 K w2 A = Some 0 /\
  xfile_bytes 4096 K
    (snd (xfile_store 4096 K w2 A [x01; x02; x03] 3 4000)) A = Some 4096 /\
  xfile_bytes 4096 K
    (snd (xfile_store 4096 K w2 A [x01; x02; x03] 3 4000)) B
  = xfile_bytes 4096 K w2 B.
Proof.
  intros K A B w1 w2 f.
  assert (Hf : xf_file w2 B = Some f) by reflexivity.
  assert (Hsz : partition_pos B + maxbytes B <= f_size f)
    by (vm_compute; discriminate).
  split.
  { split; [lia |]. split; [lia |]. split; [cbn; lia |].
    split; [reflexivity |]. split; [reflexivity |].
    split; [cbn; lia |]. split; [cbn; lia |]. split; [exact Hf | exact Hsz]. }
  split; [vm_compute; reflexivity |].
  split; [vm_compute; reflexivity |].
  apply (xfile_bytes_isolated 4096 K K w2 A B [x01; x02; x03] 3 4000 f);
    try exact Hf; try exact Hsz; try reflexivity; try lia;
    try (cbn; lia); left; cbn; lia.
Defined.

